(** * Placement planners of alpa_serve: model parallelism

    A shallow embedding of
      - [alpa_serve/placement_policy/model_parallelism.py]
        ([compute_capability], [ModelParallelismILP],
        [ModelParallelismSearch]) and
      - [benchmarks/alpa/plot_goodput_vs_slo.py] ([read_data]),
    followed by the properties of these functions.

    Conventions of the embedding.
      - Python [int] is [Z]; Python [float] is idealised as an exact
        rational [Q] (no rounding, no [inf]/[nan]); a division by zero
        raises [ZeroDivisionError] as it does for Python numbers (a
        [numpy] float would give an infinity and a warning instead).
        The idealisation keeps the order of the values and the
        exceptions, not the exact values: [compute_capability] is
        embedded a second time over IEEE 754 doubles (module [Double])
        where its exact value is stated.
      - A Python exception is a value [Raise e] of the [result] type;
        statements that can raise are sequenced with [x <- e ; k].
      - A [dict] that is only looked up is a [gmap]; a [dict] that is
        iterated is the list of its items in iteration order.
      - [range(n)] is a list of naturals when it indexes a list. *)

From Stdlib Require Import ZArith QArith Qround Qminmax Qpower Lqa Lia.
From Stdlib Require Import List String Ascii Bool.
From Stdlib Require Import Permutation Sorted.
From Stdlib Require Import Decimal DecimalString DecimalZ DecimalPos DecimalN.
From Stdlib Require SpecFloat.
From stdpp Require Import base countable gmap strings.
Import ListNotations.

#[local] Open Scope Z_scope.

(* ================================================================== *)
(** * Part I. The programs                                              *)
(* ================================================================== *)

(** ** Python values, exceptions and builtins *)

Module Py.

(** The exceptions the embedded code can raise. *)
Inductive exn : Set :=
| KeyError | IndexError | ValueError | TypeError
| ZeroDivisionError | AssertionError | RuntimeError.

(** The outcome of running a statement: a value or a raised exception. *)
Inductive result (A : Type) : Type :=
| Ok (a : A)
| Raise (e : exn).
Arguments Ok {A} a.
Arguments Raise {A} e.

Definition bind {A B : Type} (r : result A) (k : A -> result B) : result B :=
  match r with
  | Ok a => k a
  | Raise e => Raise e
  end.

(** [assert c] *)
Definition assert (c : bool) : result unit :=
  if c then Ok tt else Raise AssertionError.

(** A [for] loop whose body can raise and that collects one value per
    iteration: [[f x for x in l]]. *)
Fixpoint for_each {A B : Type} (f : A -> result B) (l : list A)
  : result (list B) :=
  match l with
  | [] => Ok []
  | x :: l' =>
      bind (f x) (fun y => bind (for_each f l') (fun ys => Ok (y :: ys)))
  end.

(** [range(n)] as list indices. *)
Definition range (n : Z) : list nat := seq 0 (Z.to_nat n).

(** [range(lo, hi)] over the integers. *)
Definition range_from (lo hi : Z) : list Z :=
  map (fun i => lo + Z.of_nat i) (seq 0 (Z.to_nat (hi - lo))).

(** [l[i]] for a list: a negative index counts from the end. *)
Definition getitem {A : Type} (l : list A) (i : Z) : result A :=
  let n := Z.of_nat (List.length l) in
  let j := if i <? 0 then i + n else i in
  if (j <? 0) || (n <=? j) then Raise IndexError
  else match nth_error l (Z.to_nat j) with
       | Some x => Ok x
       | None => Raise IndexError
       end.

(** [l[i]] for an index [i] that [range] produced (not negative). *)
Definition index {A : Type} (l : list A) (i : nat) : result A :=
  match nth_error l i with
  | Some x => Ok x
  | None => Raise IndexError
  end.

(** [d[k]] for a dict: [KeyError] when the key is absent. *)
Definition dict_getitem {K V : Type} `{Countable K}
           (d : gmap K V) (k : K) : result V :=
  match d !! k with
  | Some v => Ok v
  | None => Raise KeyError
  end.

(** [sum(ls)] on floats: starts from 0 and adds from the left. *)
Definition sum (ls : list Q) : Q := fold_left Qplus ls 0%Q.

(** [max(a, b)]: the first argument unless the second is larger. *)
Definition max2 (a b : Q) : Q := Qmax a b.

(** [max(ls)]: [ValueError] on an empty sequence. *)
Definition max (ls : list Q) : result Q :=
  match ls with
  | [] => Raise ValueError
  | x :: ls' => Ok (fold_left max2 ls' x)
  end.

(** [a / b] on floats. *)
Definition truediv (a b : Q) : result Q :=
  if Qeq_bool b 0 then Raise ZeroDivisionError else Ok (a / b)%Q.

(** [a // b] on floats: the floor of the quotient, as a float. *)
Definition floordiv (a b : Q) : result Q :=
  if Qeq_bool b 0 then Raise ZeroDivisionError
  else Ok (inject_Z (Qfloor (a / b))).

(** [a // b] and [a % b] on ints: floor division, the remainder has the
    sign of the divisor (as [Z.div] and [Z.modulo]). *)
Definition int_floordiv (a b : Z) : result Z :=
  if b =? 0 then Raise ZeroDivisionError else Ok (a / b).

Definition int_mod (a b : Z) : result Z :=
  if b =? 0 then Raise ZeroDivisionError else Ok (a mod b).

(** Truth value of a float: non-zero. *)
Definition truthy (x : Q) : bool := negb (Qeq_bool x 0).

End Py.

Import Py.

Notation "x <- e1 ; e2" := (Py.bind e1 (fun x => e2))
  (at level 20, e1 at level 100, e2 at level 200, only parsing).

(** ** Data model *)

(** [alpa_serve.profiling.ParallelConfig]: a named tuple [(dp, op, pp)]. *)
Record ParallelConfig : Set := mkParallelConfig { dp : Z; op : Z; pp : Z }.

#[global] Instance ParallelConfig_eq_dec : EqDecision ParallelConfig.
Proof. solve_decision. Defined.

#[global] Instance ParallelConfig_countable : Countable ParallelConfig :=
  inj_countable'
    (fun c => (dp c, op c, pp c))
    (fun t => match t with (a, b, c) => mkParallelConfig a b c end)
    (fun c => match c with mkParallelConfig _ _ _ => eq_refl end).

(** [np.prod(cfg)]: the number of devices of a group. *)
Definition group_size (c : ParallelConfig) : Z := dp c * op c * pp c.

(** Modelled from the spec: the profile of a model under one parallel
    configuration (a value of [para_dict]; its class lives in
    [alpa_serve.profiling], not among the source files): [latency] maps
    a batch size to the per-stage latencies, [weight_mem] is the
    per-stage weight footprint.  [latency] is iterated with [.items()],
    so it is kept as the list of its items. *)
Record LatencyMem : Type := mkLatencyMem {
  latency : list (Z * list Q);
  weight_mem : list Q
}.

(** Modelled from the spec: [ProfilingResult.para_dict], a dict from
    [ParallelConfig] to the profile entry. *)
Record ProfilingResult : Type := mkProfilingResult {
  para_dict : gmap ParallelConfig LatencyMem
}.

(** Modelled from the spec: [base_policy.ModelData]. *)
Record ModelData : Type := mkModelData {
  name : string;
  slo : Q;
  rate : Q;
  profiling_result : ProfilingResult
}.

(** Modelled from the spec: [base_policy.ClusterEnv]. *)
Record ClusterEnv : Type := mkClusterEnv {
  num_devices : Z;
  mem_budget : Q;
  num_devices_per_node : Z
}.

(** Modelled from the spec: [base_policy.ModelPlacement], the group
    configurations and, per group, the indices of the models it hosts. *)
Record ModelPlacement : Type := mkModelPlacement {
  group_configs : list ParallelConfig;
  group_models : list (list Z)
}.

(** The model [m] with its SLO replaced by [s]. *)
Definition with_slo (m : ModelData) (s : Q) : ModelData :=
  {| name := name m; slo := s; rate := rate m;
     profiling_result := profiling_result m |}.

(** ** [compute_capability] *)

(** The expression [(slo - sum(ls)) // max(ls) + 1] of the loop body.
    Python evaluates [sum(ls)], then [max(ls)], then the division. *)
Definition stage_capability (slo : Q) (ls : list Q) : result Q :=
  let s := Py.sum ls in
  m <- Py.max ls ;
  q <- Py.floordiv (slo - s) m ;
  Ok (q + 1)%Q.

(** The loop [for b, ls in latency_mem.latency.items()], threading
    [max_cap]. *)
Fixpoint capability_loop (slo : Q) (max_bs : Z)
         (items : list (Z * list Q)) (max_cap : Q) : result Q :=
  match items with
  | [] => Ok max_cap
  | (b, ls) :: rest =>
      if max_bs <? b then capability_loop slo max_bs rest max_cap
      else
        c <- stage_capability slo ls ;
        capability_loop slo max_bs rest (Py.max2 max_cap c)
  end.

Definition compute_capability (model_data : ModelData)
           (parallel_config : ParallelConfig) (max_bs : Z) : result Q :=
  let slo := slo model_data in
  let latency_mem :=
    para_dict (profiling_result model_data) !! parallel_config in
  match latency_mem with
  | None => Ok 0%Q
  | Some latency_mem =>
      let num_stages := pp parallel_config in
      max_cap <- capability_loop slo max_bs (latency latency_mem) 0%Q ;
      Ok (max_cap * Qpower (99 # 100) num_stages)%Q
  end.

(** *** Vocabulary of the capability formula

    The spec's words: the sum of the stage latencies, their maximum, and
    the pipeline bound [floor((slo - sum) / max) + 1] of one batch
    size. *)
Definition total (ls : list Q) : Q := fold_right Qplus 0%Q ls.

Definition is_maximum (ls : list Q) (m : Q) : Prop :=
  In m ls /\ forall x, In x ls -> (x <= m)%Q.

Definition pipeline_bound (slo : Q) (ls : list Q) (t : Q) : Prop :=
  exists m, is_maximum ls m /\ ~ (m == 0)%Q /\
            (t == inject_Z (Qfloor ((slo - total ls) / m)) + 1)%Q.

(** The loop body does not fail on [ls]: the list is not empty and its
    maximum is not zero. *)
Definition stage_defined (ls : list Q) : bool :=
  match Py.max ls with
  | Ok m => negb (Qeq_bool m 0)
  | Raise _ => false
  end.

(** Every batch size the loop considers has a defined bound. *)
Definition profile_defined (max_bs : Z) (items : list (Z * list Q)) : bool :=
  forallb (fun it => (max_bs <? fst it) || stage_defined (snd it)) items.


(** *** Sample profiles *)

Definition cfg_1_1_1 : ParallelConfig := mkParallelConfig 1 1 1.

(** One stage of latency 0.5 at batch size 1. *)
Definition half_second_entry : LatencyMem :=
  {| latency := [(1, [1 # 2]%Q)]; weight_mem := [1%Q] |}.

Definition half_second_model : ModelData :=
  {| name := "m0"; slo := 1; rate := 1;
     profiling_result :=
       {| para_dict := {[ cfg_1_1_1 := half_second_entry ]} |} |}.

(** One stage whose profiled latency is 0. *)
Definition zero_latency_entry : LatencyMem :=
  {| latency := [(1, [0%Q])]; weight_mem := [1%Q] |}.

Definition zero_latency_model : ModelData :=
  {| name := "m0"; slo := 1; rate := 1;
     profiling_result :=
       {| para_dict := {[ cfg_1_1_1 := zero_latency_entry ]} |} |}.

(** ** [compute_capability] in double precision

    A Python [float] is an IEEE 754 binary64 number, and the value that
    [compute_capability] returns depends on how its operations round.
    The function is embedded a second time here, over the binary64
    numbers of the Standard Library's [SpecFloat] ([prec = 53],
    [emax = 1024], rounding to nearest, ties to even), infinities and
    [nan] included. *)

Module Double.

Definition prec : Z := 53.
Definition emax : Z := 1024.

Definition float : Set := SpecFloat.spec_float.

Definition add : float -> float -> float := SpecFloat.SFadd prec emax.
Definition sub : float -> float -> float := SpecFloat.SFsub prec emax.
Definition mul : float -> float -> float := SpecFloat.SFmul prec emax.
Definition div : float -> float -> float := SpecFloat.SFdiv prec emax.

(** [a < b] and [a == b]: false when an operand is a [nan]. *)
Definition lt : float -> float -> bool := SpecFloat.SFltb.
Definition eqb : float -> float -> bool := SpecFloat.SFeqb.

(** [float(n)] for an int small enough to convert. *)
Definition of_int (n : Z) : float :=
  SpecFloat.binary_normalize prec emax n 0 false.

(** A decimal literal [n/d] with [n] and [d] below [2**53]: the double
    nearest to the quotient. *)
Definition of_ratio (n d : Z) : float := div (of_int n) (of_int d).

Definition zero : float := SpecFloat.S754_zero false.
Definition one : float := of_int 1.
Definition half : float := of_ratio 1 2.

(** The value of a finite double as a rational; 0 for an infinity or a
    [nan]. *)
Definition to_Q (x : float) : Q :=
  match x with
  | SpecFloat.S754_finite s m e =>
      (inject_Z (SpecFloat.cond_Zopp s (Zpos m)) * Qpower 2 e)%Q
  | _ => 0%Q
  end.

(** C's truth value of a double: [x != 0.0]. *)
Definition truthy (x : float) : bool := negb (eqb x zero).

(** C's [fmod(x, y)]: the remainder of [x / y] truncated, exact, with the
    sign of [x]. *)
Definition fmod (x y : float) : float :=
  match x, y with
  | SpecFloat.S754_nan, _ | _, SpecFloat.S754_nan => SpecFloat.S754_nan
  | SpecFloat.S754_infinity _, _ => SpecFloat.S754_nan
  | _, SpecFloat.S754_zero _ => SpecFloat.S754_nan
  | _, SpecFloat.S754_infinity _ => x
  | SpecFloat.S754_zero _, _ => x
  | SpecFloat.S754_finite sx mx ex, SpecFloat.S754_finite _ my ey =>
      let ez := Z.min ex ey in
      let r := Z.rem (Z.shiftl (Zpos mx) (ex - ez))
                     (Z.shiftl (Zpos my) (ey - ez)) in
      SpecFloat.binary_normalize prec emax (SpecFloat.cond_Zopp sx r) ez sx
  end.

(** C's [floor(x)]. *)
Definition floor (x : float) : float :=
  match x with
  | SpecFloat.S754_finite s m e =>
      if 0 <=? e then x
      else SpecFloat.binary_normalize prec emax
             (SpecFloat.cond_Zopp s (Zpos m) / 2 ^ (- e)) 0 s
  | _ => x
  end.

(** C's [copysign(0.0, x)]. *)
Definition signed_zero (x : float) : float :=
  match x with
  | SpecFloat.S754_zero s | SpecFloat.S754_infinity s
  | SpecFloat.S754_finite s _ _ => SpecFloat.S754_zero s
  | SpecFloat.S754_nan => zero
  end.

(** [vx // wx] on floats, as CPython's [float_divmod] computes the
    quotient: the exact remainder [r] of [fmod], the rounded quotient
    [(vx - r) / wx], less one when [r] and [wx] differ in sign, then
    its floor, raised by one when the quotient lies more than a half
    above it.  A zero divisor raises. *)
Definition floordiv (vx wx : float) : result float :=
  if eqb wx zero then Raise ZeroDivisionError
  else
    let r := fmod vx wx in
    let q := div (sub vx r) wx in
    let q := if truthy r && negb (Bool.eqb (lt wx zero) (lt r zero))
             then sub q one else q in
    if truthy q then
      let fl := floor q in
      Ok (if lt half (sub q fl) then add fl one else fl)
    else Ok (signed_zero (div vx wx)).

(** [sum(ls)]: starts from the int 0 and adds from the left, each
    addition rounded (CPython before 3.12; later versions compensate the
    rounding errors, and agree on lists of one or two items). *)
Definition sum (ls : list float) : float := fold_left add ls zero.

(** [max(a, b)]: the first argument unless the second is greater. *)
Definition max2 (a b : float) : float := if lt a b then b else a.

(** [max(ls)]: [ValueError] on an empty sequence. *)
Definition max (ls : list float) : result float :=
  match ls with
  | [] => Raise ValueError
  | x :: ls' => Ok (fold_left max2 ls' x)
  end.

(** Modelled from the spec: the profile entry, as [LatencyMem] above,
    its latencies and weights being doubles. *)
Record LatencyMem : Type := mkLatencyMem {
  latency : list (Z * list float);
  weight_mem : list float
}.

(** Modelled from the spec: [ProfilingResult.para_dict]. *)
Record ProfilingResult : Type := mkProfilingResult {
  para_dict : gmap ParallelConfig LatencyMem
}.

(** Modelled from the spec: [base_policy.ModelData], its SLO and rate
    being doubles. *)
Record ModelData : Type := mkModelData {
  name : string;
  slo : float;
  rate : float;
  profiling_result : ProfilingResult
}.

(** The expression [(slo - sum(ls)) // max(ls) + 1] of the loop body. *)
Definition stage_capability (slo : float) (ls : list float) : result float :=
  let s := sum ls in
  m <- max ls ;
  q <- floordiv (sub slo s) m ;
  Ok (add q one).

(** The loop [for b, ls in latency_mem.latency.items()], threading
    [max_cap]. *)
Fixpoint capability_loop (slo : float) (max_bs : Z)
         (items : list (Z * list float)) (max_cap : float) : result float :=
  match items with
  | [] => Ok max_cap
  | (b, ls) :: rest =>
      if max_bs <? b then capability_loop slo max_bs rest max_cap
      else
        c <- stage_capability slo ls ;
        capability_loop slo max_bs rest (max2 max_cap c)
  end.

Section Pow.

(** [x ** n] for a float [x] and an int [n]: CPython hands it to the C
    library's [pow], whose rounding IEEE 754 does not fix, and raises
    when [pow] reports a range error. *)
Variable pow : float -> Z -> result float.

(** The int [0] that the function returns for an absent configuration,
    and from which [max_cap] starts, compares and multiplies as the
    double [0.0]. *)
Definition compute_capability (model_data : ModelData)
           (parallel_config : ParallelConfig) (max_bs : Z) : result float :=
  let slo := slo model_data in
  let latency_mem :=
    para_dict (profiling_result model_data) !! parallel_config in
  match latency_mem with
  | None => Ok zero
  | Some latency_mem =>
      let num_stages := pp parallel_config in
      max_cap <- capability_loop slo max_bs (latency latency_mem) zero ;
      p <- pow (of_ratio 99 100) num_stages ;
      Ok (mul max_cap p)
  end.

End Pow.

(** A stand-in for [pow] at an int exponent: repeated rounded
    multiplication, inverted for a negative exponent.  Like [pow] it is
    exact at the exponents 0 and 1. *)
Definition sample_pow (x : float) (n : Z) : result float :=
  let p := Z.iter (Z.abs n) (mul x) one in
  Ok (if n <? 0 then div one p else p).

(** *** Vocabulary of the capability formula in double precision *)

(** The bound [(slo - sum) // max + 1] of one batch size, every
    operation being the one on doubles: the sum and the difference are
    rounded before the floor division. *)
Definition pipeline_bound (slo : float) (ls : list float) (t : float) : Prop :=
  exists m q, max ls = Ok m /\ floordiv (sub slo (sum ls)) m = Ok q /\
              t = add q one.

(** The loop body does not fail on [ls]: the list is not empty and its
    maximum is not zero. *)
Definition stage_defined (ls : list float) : bool :=
  match max ls with
  | Ok m => negb (eqb m zero)
  | Raise _ => false
  end.

(** Every batch size the loop considers has a defined bound. *)
Definition profile_defined (max_bs : Z) (items : list (Z * list float)) : bool :=
  forallb (fun it => (max_bs <? fst it) || stage_defined (snd it)) items.

(** *** Sample profile *)

(** One stage of latency 0.1 at batch size 1, under an SLO of 1.1. *)
Definition tenth_second_entry : LatencyMem :=
  {| latency := [(1, [of_ratio 1 10])]; weight_mem := [one] |}.

Definition tenth_second_model : ModelData :=
  {| name := "m0"; slo := of_ratio 11 10; rate := one;
     profiling_result :=
       {| para_dict := {[ cfg_1_1_1 := tenth_second_entry ]} |} |}.

(** One stage of latency 0.5 at batch size 1, under an SLO of 1. *)
Definition half_second_entry : LatencyMem :=
  {| latency := [(1, [half])]; weight_mem := [one] |}.

Definition half_second_model : ModelData :=
  {| name := "m0"; slo := one; rate := one;
     profiling_result :=
       {| para_dict := {[ cfg_1_1_1 := half_second_entry ]} |} |}.

End Double.

(** ** [ModelParallelismSearch] *)

(** Modelled from the spec: [alpa_serve.util.get_factors] is not among
    the source files; the spec calls its results the divisors of [n].
    They are listed in increasing order.  The spec says nothing of
    [n <= 0]: the list is empty there, and nothing below is derived
    from that. *)
Definition get_factors (n : Z) : list Z :=
  List.filter (fun d => n mod d =? 0) (Py.range_from 1 (n + 1)).

(** A [for] loop that threads a state and can raise. *)
Fixpoint for_loop {A S : Type} (body : A -> S -> result S)
         (l : list A) (s : S) : result S :=
  match l with
  | [] => Ok s
  | x :: l' => s' <- body x s ; for_loop body l' s'
  end.

Module ModelParallelismSearch.

Record t : Type := mk {
  max_bs : Z;
  max_pp : Z;
  max_op : Z;
  n_iter : Z;
  seed : Z;
  beam_size : Z;
  add_evo_search : bool;
  evaluator_method : string;
  parallel_evaluator : bool;
  parallel_initial_placement : bool;
  verbose : Z
}.

(** [__init__(max_bs=1, max_pp=8, max_op=4, add_evo_search=False,
    verbose=0)] *)
Definition init (max_bs max_pp max_op : Z) (add_evo_search : bool)
           (verbose : Z) : t :=
  {| max_bs := max_bs; max_pp := max_pp; max_op := max_op;
     n_iter := 1; seed := 0; beam_size := 3;
     add_evo_search := add_evo_search;
     evaluator_method := "fast_simulator";
     parallel_evaluator := false;
     parallel_initial_placement := false;
     verbose := verbose |}.

Definition default : t := init 1 8 4 false 0.

(** [ModelPlacement([ParallelConfig(1, op, pp)] * num_groups,
                    [[] for _ in range(num_groups)])] *)
Definition skeleton (op pp num_groups : Z) : ModelPlacement :=
  {| group_configs := repeat (mkParallelConfig 1 op pp) (Z.to_nat num_groups);
     group_models := map (fun _ => []) (Py.range num_groups) |}.

(** The test [group_size > num_devices_per_node and
    group_size % num_devices_per_node != 0]; [and] does not evaluate
    its second operand when the first is false. *)
Definition crosses_node (group_size num_devices_per_node : Z) : result bool :=
  if group_size >? num_devices_per_node then
    r <- Py.int_mod group_size num_devices_per_node ;
    Ok (negb (r =? 0))
  else Ok false.

Definition enumerate_group_configs (self : t) (cluster_env : ClusterEnv)
  : result (list ModelPlacement) :=
  let sols := [] in
  let num_devices := num_devices cluster_env in
  let num_devices_per_node := num_devices_per_node cluster_env in
  for_loop
    (fun group_size sols =>
       skip <- crosses_node group_size num_devices_per_node ;
       if skip then Ok sols
       else
         for_loop
           (fun pp sols =>
              op <- Py.int_floordiv group_size pp ;
              num_groups <- Py.int_floordiv num_devices group_size ;
              if (pp >? max_pp self) || (op >? max_op self) then Ok sols
              else Ok (sols ++ [skeleton op pp num_groups]))
           (get_factors group_size) sols)
    (get_factors num_devices) sols.

(** *** [greedy_group_configs]

    The collaborators of the planner that are not among the source
    files are parameters: the replica placement primitive that fills a
    skeleton (the code calls [replica_placement_fast_greedy]) and the
    evaluator's [get_scores]. *)

Section Greedy.

Variables Workload Evaluator : Type.

Variable replica_placement_fast_greedy :
  ModelPlacement -> list ModelData -> ClusterEnv -> Workload -> Evaluator ->
  Z -> ModelPlacement.

Variable get_scores : Evaluator -> list ModelPlacement -> list Q.

(** [pre_sol = sol.copy(); pre_sol.group_configs.append(cfg);
    pre_sol.group_models.append([])].  Modelled from the spec:
    [ModelPlacement.copy] (not among the source files) returns an
    independent clone, so the parent in [beam_sols] is not changed. *)
Definition append_group (sol : ModelPlacement) (cfg : ParallelConfig)
  : ModelPlacement :=
  {| group_configs := group_configs sol ++ [cfg];
     group_models := group_models sol ++ [[]] |}.

(** [np.argsort(scores)]: the indices of [scores] by increasing score
    (insertion sort; equal scores keep their order). *)
Fixpoint insert_index (scores : list Q) (i : nat) (l : list nat) : list nat :=
  match l with
  | [] => [i]
  | j :: l' =>
      if Qle_bool (nth i scores 0%Q) (nth j scores 0%Q) then i :: l
      else j :: insert_index scores i l'
  end.

Definition argsort (scores : list Q) : list nat :=
  fold_right (insert_index scores) [] (seq 0 (List.length scores)).

(** Lines 374-396: the placements [next_sols] tried at [cur_num]. *)
Definition candidates (self : t) (model_datas : list ModelData)
           (cluster_env : ClusterEnv) (train_workload : Workload)
           (evaluator : Evaluator)
           (beam_sols : list (list ModelPlacement)) (cur_num : Z)
  : result (list ModelPlacement) :=
  let num_devices_per_node := num_devices_per_node cluster_env in
  r <- Py.int_mod (cur_num - 1) num_devices_per_node ;
  for_loop
    (fun last_group_size next_sols =>
       for_loop
         (fun pp next_sols =>
            op <- Py.int_floordiv last_group_size pp ;
            if (pp >? max_pp self) || (op >? max_op self) then Ok next_sols
            else
              sols <- Py.getitem beam_sols (cur_num - last_group_size) ;
              for_loop
                (fun sol next_sols =>
                   let pre_sol :=
                     append_group sol (mkParallelConfig 1 op pp) in
                   let new_sol :=
                     replica_placement_fast_greedy
                       pre_sol model_datas cluster_env train_workload
                       evaluator (verbose self) in
                   Ok (next_sols ++ [new_sol]))
                sols next_sols)
         (get_factors last_group_size) next_sols)
    (Py.range_from 1 (r + 1 + 1)) [].

(** Lines 397-401: the [beam_size] best of [next_sols]. *)
Definition select_beam (evaluator : Evaluator)
           (next_sols : list ModelPlacement) (beam_size : Z)
  : result (list ModelPlacement) :=
  let scores := get_scores evaluator next_sols in
  let next_indices := firstn (Z.to_nat beam_size) (rev (argsort scores)) in
  Py.for_each (fun i => Py.index next_sols i) next_indices.

(** One iteration of the loop over [cur_num]. *)
Definition beam_step (self : t) (model_datas : list ModelData)
           (cluster_env : ClusterEnv) (train_workload : Workload)
           (evaluator : Evaluator) (beam_size : Z)
           (beam_sols : list (list ModelPlacement)) (cur_num : Z)
  : result (list ModelPlacement) :=
  next_sols <- candidates self model_datas cluster_env train_workload
                          evaluator beam_sols cur_num ;
  select_beam evaluator next_sols beam_size.

(** Lines 370-401: the table [beam_sols] after the loop. *)
Definition greedy_beams (self : t) (model_datas : list ModelData)
           (cluster_env : ClusterEnv) (train_workload : Workload)
           (evaluator : Evaluator) (beam_size : Z)
  : result (list (list ModelPlacement)) :=
  for_loop
    (fun cur_num beam_sols =>
       beam <- beam_step self model_datas cluster_env train_workload
                         evaluator beam_size beam_sols cur_num ;
       Ok (beam_sols ++ [beam]))
    (Py.range_from 1 (num_devices cluster_env + 1))
    [[mkModelPlacement [] []]].

Definition greedy_group_configs (self : t) (model_datas : list ModelData)
           (cluster_env : ClusterEnv) (train_workload : Workload)
           (evaluator : Evaluator) (beam_size : Z)
  : result (list ModelPlacement) :=
  _ <- Py.assert (beam_size >=? 1) ;
  beam_sols <- greedy_beams self model_datas cluster_env train_workload
                            evaluator beam_size ;
  Py.getitem beam_sols (num_devices cluster_env).

End Greedy.

(** *** [solve_placement]

    The collaborators that are not among the source files are
    parameters: [gen_train_workload], the constructor of
    [PlacementEvaluator], its [get_scores], the primitive
    [replica_placement_fast_greedy] and [evolutionary_search].  A call
    through [ray] is taken to give what the call itself gives; nothing
    is printed. *)

(** [np.argmax(scores)]: the first position of the largest score,
    [ValueError] on an empty sequence. *)
Fixpoint argmax_from (scores : list Q) (i : nat) (best : Q) (best_idx : nat)
  : nat :=
  match scores with
  | [] => best_idx
  | x :: scores' =>
      if Qle_bool x best then argmax_from scores' (S i) best best_idx
      else argmax_from scores' (S i) x i
  end.

Definition argmax (scores : list Q) : result nat :=
  match scores with
  | [] => Raise ValueError
  | x :: scores' => Ok (argmax_from scores' 1 x 0)
  end.

Section Solve.

Variables Workload Evaluator : Type.

Variable gen_train_workload : list ModelData -> Workload.

Variable PlacementEvaluator :
  list ModelData -> ClusterEnv -> Workload -> string -> bool -> Evaluator.

(** The call through [ray] (line 285) passes [None] for the evaluator. *)
Variable replica_placement_fast_greedy :
  ModelPlacement -> list ModelData -> ClusterEnv -> Workload ->
  option Evaluator -> Z -> ModelPlacement.

Variable get_scores : Evaluator -> list ModelPlacement -> list Q.

(** [best_sol] is still [None] when no score exceeded -1. *)
Variable evolutionary_search :
  list (option ModelPlacement) -> list ModelData -> ClusterEnv -> Evaluator ->
  Z -> Z -> ModelPlacement.

(** Lines 282-296: every skeleton is filled. *)
Definition initial_placements (self : t) (model_datas : list ModelData)
           (cluster_env : ClusterEnv) (train_workload : Workload)
           (evaluator : Evaluator) (initial_sols : list ModelPlacement)
  : list ModelPlacement :=
  if parallel_initial_placement self then
    map (fun sol =>
           replica_placement_fast_greedy
             sol model_datas cluster_env train_workload None (verbose self))
        initial_sols
  else
    map (fun sol =>
           replica_placement_fast_greedy
             sol model_datas cluster_env train_workload (Some evaluator)
             (verbose self))
        initial_sols.

(** Lines 306-312: one round of the search; the state is
    [(best_score, best_sol)]. *)
Definition search_round (evaluator : Evaluator)
           (cur_sols : list ModelPlacement)
           (state : Q * option ModelPlacement)
  : result (Q * option ModelPlacement) :=
  let best_score := fst state in
  let best_sol := snd state in
  let scores := get_scores evaluator cur_sols in
  tmp_best_idx <- argmax scores ;
  score <- Py.index scores tmp_best_idx ;
  if negb (Qle_bool score best_score) then
    sol <- Py.index cur_sols tmp_best_idx ;
    Ok (score, Some sol)
  else Ok (best_score, best_sol).

(** [solve_placement] returns [(best_sol, {})]; [tt] stands for the
    empty dict. *)
Definition solve_placement (self : t) (model_datas : list ModelData)
           (cluster_env : ClusterEnv) (train_workload : option Workload)
  : result (option ModelPlacement * unit) :=
  let train_workload :=
    match train_workload with
    | None => gen_train_workload model_datas
    | Some w => w
    end in
  let evaluator :=
    PlacementEvaluator model_datas cluster_env train_workload
                       (evaluator_method self) (parallel_evaluator self) in
  initial_sols <- enumerate_group_configs self cluster_env ;
  let initial_sols :=
    initial_placements self model_datas cluster_env train_workload evaluator
                       initial_sols in
  let cur_sols := initial_sols in
  state <- for_loop (fun _ state => search_round evaluator cur_sols state)
                    (Py.range (n_iter self)) ((-1)%Q, None) ;
  let best_sol := snd state in
  let best_sol :=
    if add_evo_search self then
      Some (evolutionary_search [best_sol] model_datas cluster_env evaluator
                                200 (verbose self))
    else best_sol in
  Ok (best_sol, tt).

End Solve.

End ModelParallelismSearch.

(** *** What the spec asks of the enumeration *)

(** [sk] is the skeleton of a divisor [gs] of [num_devices] that does not
    cross a node boundary unevenly, factored as [gs = op * pp] within
    the limits: [num_devices / gs] identical groups [(1, op, pp)] with
    no models. *)
Definition is_skeleton (self : ModelParallelismSearch.t)
           (cluster_env : ClusterEnv) (sk : ModelPlacement) : Prop :=
  exists gs op pp : Z,
    0 < gs /\ (gs | num_devices cluster_env) /\
    ~ (gs > num_devices_per_node cluster_env /\
       gs mod num_devices_per_node cluster_env <> 0) /\
    0 < pp /\ 0 < op /\ gs = op * pp /\
    pp <= ModelParallelismSearch.max_pp self /\
    op <= ModelParallelismSearch.max_op self /\
    sk = {| group_configs :=
              repeat (mkParallelConfig 1 op pp)
                     (Z.to_nat (num_devices cluster_env / gs));
            group_models :=
              repeat [] (Z.to_nat (num_devices cluster_env / gs)) |}.

(** The group sizes that occur in a list of placements. *)
Definition emitted_group_sizes (sols : list ModelPlacement) : list Z :=
  flat_map (fun sk => map group_size (group_configs sk)) sols.

(** Sixteen devices on two nodes of eight, no memory budget needed. *)
Definition two_node_cluster : ClusterEnv :=
  {| num_devices := 16; mem_budget := 1; num_devices_per_node := 8 |}.

(** The two loops of [enumerate_group_configs] read as list
    comprehensions: the group sizes that are kept, the pipeline depths
    that are kept for a group size, and the skeletons of a group size. *)
Definition keeps_size (num_devices_per_node gs : Z) : bool :=
  negb ((gs >? num_devices_per_node)
        && negb (gs mod num_devices_per_node =? 0)).

Definition keeps_factor (self : ModelParallelismSearch.t) (gs pp : Z) : bool :=
  negb ((pp >? ModelParallelismSearch.max_pp self)
        || (gs / pp >? ModelParallelismSearch.max_op self)).

Definition skeletons_of (self : ModelParallelismSearch.t)
           (num_devices gs : Z) : list ModelPlacement :=
  map (fun pp => ModelParallelismSearch.skeleton (gs / pp) pp (num_devices / gs))
      (List.filter (keeps_factor self gs) (get_factors gs)).

(** ** The linear programs handed to the solver

    The part of [pulp] that [ModelParallelismILP] uses.  A problem is
    data: affine expressions over named variables, constraints between
    them, an objective.  The solver itself ([PULP_CBC_CMD]) is outside
    the program; it is a parameter of [solve_placement]. *)

Module Pulp.

(** The variables of the placement problem:
    [p[i][j]], [s[j][k]], [pxs[i][j][k]] (created with [cat="Binary"])
    and [min_tolerance], [sum_tolerance] (continuous, [lowBound=0]). *)
Inductive LpVariable : Set :=
| p_var (i j : nat)
| s_var (j k : nat)
| pxs_var (i j k : nat)
| min_tolerance
| sum_tolerance.

Definition is_binary (v : LpVariable) : bool :=
  match v with
  | p_var _ _ | s_var _ _ | pxs_var _ _ _ => true
  | min_tolerance | sum_tolerance => false
  end.

(** An affine expression: coefficients of variables and a constant.
    [non_finite] tells that numpy arithmetic has put [inf] or [nan]
    among them (see [div]); the rational coefficients of such an
    expression are those it had before. *)
Record LpAffineExpression : Type := mkExpr {
  terms : list (LpVariable * Q);
  constant : Q;
  non_finite : bool
}.

Inductive LpSense : Set := LE | EQ | GE.

Record LpConstraint : Type := mkConstraint {
  lhs : LpAffineExpression;
  sense : LpSense;
  rhs : LpAffineExpression
}.

(** [LpProblem(name, LpMaximize)] with its objective and constraints. *)
Record LpProblem : Type := mkProblem {
  objective : LpAffineExpression;
  constraints : list LpConstraint
}.

(** A variable and a number as expressions. *)
Definition var (v : LpVariable) : LpAffineExpression :=
  {| terms := [(v, 1%Q)]; constant := 0%Q; non_finite := false |}.

Definition const (c : Q) : LpAffineExpression :=
  {| terms := []; constant := c; non_finite := false |}.

(** [v * c] *)
Definition times (v : LpVariable) (c : Q) : LpAffineExpression :=
  {| terms := [(v, c)]; constant := 0%Q; non_finite := false |}.

(** [e1 + e2], [e1 - e2] *)
Definition plus (e1 e2 : LpAffineExpression) : LpAffineExpression :=
  {| terms := terms e1 ++ terms e2;
     constant := (constant e1 + constant e2)%Q;
     non_finite := non_finite e1 || non_finite e2 |}.

Definition minus (e1 e2 : LpAffineExpression) : LpAffineExpression :=
  {| terms := terms e1 ++ map (fun t => (fst t, - snd t)%Q) (terms e2);
     constant := (constant e1 - constant e2)%Q;
     non_finite := non_finite e1 || non_finite e2 |}.

(** [lpSum(es)] *)
Definition lpSum (es : list LpAffineExpression) : LpAffineExpression :=
  fold_right plus (const 0) es.

(** [e / c] for the expressions that the planner divides, the
    capabilities [cap[i]]: their coefficients are entries of the numpy
    array [f] (line 93), and PuLP leaves out a product by zero.  The
    constant and every coefficient are divided by the number [c].
    When [c] is zero and no coefficient is different from zero, the
    constant is the Python int [0] and [0 / c] raises
    [ZeroDivisionError]; when [c] is zero and a coefficient is not,
    the constant and the coefficients are numpy floats, their division
    by zero gives [nan] and [inf] (with a warning), and nothing is
    raised. *)
Definition div (e : LpAffineExpression) (c : Q) : result LpAffineExpression :=
  if Qeq_bool c 0 then
    if forallb (fun t => Qeq_bool (snd t) 0) (terms e) then
      Raise ZeroDivisionError
    else
      Ok {| terms := terms e; constant := constant e; non_finite := true |}
  else Ok {| terms := map (fun t => (fst t, snd t / c)%Q) (terms e);
             constant := (constant e / c)%Q;
             non_finite := non_finite e |}.

(** [e1 <= e2], [e1 == e2], [e1 >= e2] *)
Definition le (e1 e2 : LpAffineExpression) : LpConstraint :=
  {| lhs := e1; sense := LE; rhs := e2 |}.
Definition eq (e1 e2 : LpAffineExpression) : LpConstraint :=
  {| lhs := e1; sense := EQ; rhs := e2 |}.
Definition ge (e1 e2 : LpAffineExpression) : LpConstraint :=
  {| lhs := e1; sense := GE; rhs := e2 |}.

(** [pulp.LpStatusInfeasible] *)
Definition LpStatusInfeasible : Z := -1.

(** What is read back after [prob.solve(solver)]: [prob.status],
    [pulp.value(v)] of a variable ([None] when the solver assigned
    none) and [pulp.value(prob.objective)]. *)
Record LpSolution : Type := mkSolution {
  status : Z;
  value : LpVariable -> option Q;
  objective_value : option Q
}.

(** *** Meaning of a problem *)

Definition value_or_zero (sol : LpSolution) (v : LpVariable) : Q :=
  match value sol v with Some x => x | None => 0%Q end.

Definition eval (sol : LpSolution) (e : LpAffineExpression) : Q :=
  fold_right (fun t acc => (snd t * value_or_zero sol (fst t) + acc)%Q)
             (constant e) (terms e).

Definition holds (sol : LpSolution) (c : LpConstraint) : bool :=
  match sense c with
  | LE => Qle_bool (eval sol (lhs c)) (eval sol (rhs c))
  | EQ => Qeq_bool (eval sol (lhs c)) (eval sol (rhs c))
  | GE => Qle_bool (eval sol (rhs c)) (eval sol (lhs c))
  end.

(** A binary variable is 0 or 1, a continuous one is not negative. *)
Definition in_bounds (sol : LpSolution) (v : LpVariable) : bool :=
  match value sol v with
  | None => false
  | Some x => if is_binary v then Qeq_bool x 0 || Qeq_bool x 1
              else Qle_bool 0 x
  end.

Definition variables_of (e : LpAffineExpression) : list LpVariable :=
  map fst (terms e).

Definition variables (prob : LpProblem) : list LpVariable :=
  variables_of (objective prob)
  ++ flat_map (fun c => variables_of (lhs c) ++ variables_of (rhs c))
              (constraints prob).

(** The solution is a feasible point of the problem: every variable of
    the problem has a value within its bounds and every constraint
    holds.  This is what a sound solver returns with an incumbent. *)
Definition feasible (prob : LpProblem) (sol : LpSolution) : bool :=
  forallb (in_bounds sol) (variables prob)
  && forallb (holds sol) (constraints prob).

End Pulp.

(** ** [ModelParallelismILP] *)

Module ModelParallelismILP.

Import Pulp.

Record t : Type := mk {
  time_limit : Z;
  sum_k : Q;
  max_bs : Z;
  group_configs : list ParallelConfig;
  group_sizes : list Z;
  verbose : Z
}.

(** [__init__(verbose=0)]: the group configurations are hard coded;
    [group_sizes] is [[np.prod(x) for x in self.group_configs]]. *)
Definition init (verbose : Z) : t :=
  let group_configs :=
    [ mkParallelConfig 0 0 0;
      mkParallelConfig 1 1 1;
      mkParallelConfig 1 1 2;
      mkParallelConfig 1 1 4;
      mkParallelConfig 1 1 8 ] in
  {| time_limit := 30;
     sum_k := 1 # 10000;
     max_bs := 1;
     group_configs := group_configs;
     group_sizes := map group_size group_configs;
     verbose := verbose |}.

Definition compute_max_stage_mem (self : t) (model_data : ModelData)
           (parallel_config : ParallelConfig) (mem_budget : Q) : result Q :=
  let latency_mem :=
    para_dict (profiling_result model_data) !! parallel_config in
  match latency_mem with
  | None => Ok (mem_budget * 2)%Q
  | Some latency_mem => Py.max (weight_mem latency_mem)
  end.

(** [(j, k) for j in range(G) for k in range(K)] *)
Definition pairs (G K : Z) : list (nat * nat) :=
  flat_map (fun j => map (fun k => (j, k)) (Py.range K)) (Py.range G).

(** [(i, j, k) for i in range(N) for j in range(G) for k in range(K)] *)
Definition triples (N G K : Z) : list (nat * nat * nat) :=
  flat_map (fun i => map (fun jk => (i, fst jk, snd jk)) (pairs G K))
           (Py.range N).

(** Lines 83-101: the constants [c], [f] and [d]. *)
Definition load_constants (self : t) (model_datas : list ModelData)
           (cluster_env : ClusterEnv)
  : result (list Q * list (list Q) * list (list Q)) :=
  let N := Z.of_nat (List.length model_datas) in
  let K := Z.of_nat (List.length (group_configs self)) in
  c <- Py.for_each
         (fun x =>
            lm <- Py.dict_getitem (para_dict (profiling_result x))
                                  (mkParallelConfig 1 1 1) ;
            Py.index (weight_mem lm) 0)
         model_datas ;
  fd <- Py.for_each
          (fun i =>
             model_data <- Py.index model_datas i ;
             Py.for_each
               (fun k =>
                  parallel_config <- Py.index (group_configs self) k ;
                  fik <- compute_capability model_data parallel_config
                                            (max_bs self) ;
                  dik <- compute_max_stage_mem self model_data parallel_config
                                               (mem_budget cluster_env) ;
                  Ok (fik, dik))
               (Py.range K))
          (Py.range N) ;
  Ok (c, map (map fst) fd, map (map snd) fd).

(** Lines 103-151: variables, objective and constraints (a)-(f). *)
Definition build_problem (self : t) (N G K : Z) (M : Z) (C : Q)
           (a c : list Q) (g : list Z) (f : list (list Q))
  : result LpProblem :=
  let obj := plus (var min_tolerance) (times sum_tolerance (sum_k self)) in
  (* (a). memory budget on each GPU *)
  memory <- Py.for_each
              (fun j =>
                 used <- Py.for_each
                           (fun i =>
                              ci <- Py.index c i ;
                              w <- Py.truediv ci C ;
                              Ok (times (p_var i j) w))
                           (Py.range N) ;
                 avail <- Py.for_each
                            (fun k =>
                               gk <- Py.index g k ;
                               Ok (times (s_var j k) (inject_Z gk)))
                            (Py.range K) ;
                 Ok (le (lpSum used) (lpSum avail)))
              (Py.range G) ;
  (* (b). capability *)
  cap <- Py.for_each
           (fun i =>
              ts <- Py.for_each
                      (fun jk =>
                         fi <- Py.index f i ;
                         fik <- Py.index fi (snd jk) ;
                         Ok (times (pxs_var i (fst jk) (snd jk)) fik))
                      (pairs G K) ;
              Ok (lpSum ts))
           (Py.range N) ;
  (* (c). min tolerance and sum tolerance *)
  min_tol <- Py.for_each
               (fun i =>
                  capi <- Py.index cap i ;
                  ai <- Py.index a i ;
                  tol <- div capi ai ;
                  Ok (le (var min_tolerance) tol))
               (Py.range N) ;
  tols <- Py.for_each
            (fun i =>
               capi <- Py.index cap i ;
               ai <- Py.index a i ;
               div capi ai)
            (Py.range N) ;
  let sum_tol := eq (var sum_tolerance) (lpSum tols) in
  (* (d). group size *)
  sizes <- Py.for_each
             (fun jk =>
                gk <- Py.index g (snd jk) ;
                Ok (times (s_var (fst jk) (snd jk)) (inject_Z gk)))
             (pairs G K) ;
  let group_size_c := eq (lpSum sizes) (const (inject_Z M)) in
  (* (e). only one configuration *)
  let one_config :=
    map (fun j =>
           eq (lpSum (map (fun k => var (s_var j k)) (Py.range K)))
              (const 1))
        (Py.range G) in
  (* (f). linearization *)
  let linearization :=
    flat_map
      (fun ijk =>
         match ijk with
         | (i, j, k) =>
             [ le (var (pxs_var i j k)) (var (p_var i j));
               le (var (pxs_var i j k)) (var (s_var j k));
               ge (var (pxs_var i j k))
                  (minus (plus (var (p_var i j)) (var (s_var j k)))
                         (const 1)) ]
         end)
      (triples N G K) in
  Ok {| objective := obj;
        constraints :=
          memory ++ min_tol ++ [sum_tol; group_size_c]
          ++ one_config ++ linearization |}.

(** Lines 83-151: the problem passed to [prob.solve]. *)
Definition formulate (self : t) (model_datas : list ModelData)
           (cluster_env : ClusterEnv) : result LpProblem :=
  let N := Z.of_nat (List.length model_datas) in
  let M := num_devices cluster_env in
  let C := mem_budget cluster_env in
  let a := map rate model_datas in
  let G := num_devices cluster_env in
  let K := Z.of_nat (List.length (group_configs self)) in
  let g := group_sizes self in
  consts <- load_constants self model_datas cluster_env ;
  match consts with
  | (c, f, d) => build_problem self N G K M C a c g f
  end.

(** Truth value of [pulp.value(v)]: [None] and zero are false. *)
Definition value_truthy (sol : LpSolution) (v : LpVariable) : bool :=
  match value sol v with
  | Some x => Py.truthy x
  | None => false
  end.

(** [sum(pulp.value(v) for v in vs)]: adding [None] raises. *)
Definition sum_values (sol : LpSolution) (vs : list LpVariable) : result Q :=
  for_loop
    (fun v acc =>
       match value sol v with
       | Some x => Ok (acc + x)%Q
       | None => Raise TypeError
       end)
    vs 0%Q.

(** Lines 174-180: the configuration chosen for each device slot. *)
Definition select_configs (sol : LpSolution) (G K : Z) : result (list nat) :=
  for_loop
    (fun j s_res =>
       total <- sum_values sol (map (fun k => s_var j k) (Py.range K)) ;
       _ <- Py.assert (Qeq_bool total 1) ;
       Ok (s_res ++ List.filter (fun k => value_truthy sol (s_var j k))
                               (Py.range K)))
    (Py.range G) [].

(** Lines 182-187: [p_res[i][j]] is 1 where the model is placed. *)
Definition placement_matrix (sol : LpSolution) (N G : Z) : list (list Z) :=
  map (fun i =>
         map (fun j => if value_truthy sol (p_var i j) then 1 else 0)
             (Py.range G))
      (Py.range N).

(** Lines 189-199: one group per slot whose configuration has a
    non-zero size. *)
Definition collect_groups (self : t) (N G : Z) (s_res : list nat)
           (p_res : list (list Z))
  : result (list ParallelConfig * list (list Z)) :=
  for_loop
    (fun j acc =>
       config_id <- Py.index s_res j ;
       size <- Py.index (group_sizes self) config_id ;
       if negb (size =? 0) then
         tmp <- for_loop
                  (fun i tmp =>
                     row <- Py.index p_res i ;
                     pij <- Py.index row j ;
                     if negb (pij =? 0) then Ok (tmp ++ [Z.of_nat i])
                     else Ok tmp)
                  (Py.range N) [] ;
         cfg <- Py.index (group_configs self) config_id ;
         Ok (fst acc ++ [cfg], snd acc ++ [tmp])
       else Ok acc)
    (Py.range G) ([], []).

(** Lines 162-201: reading the solution back. *)
Definition decode (self : t) (N G K : Z) (sol : LpSolution)
  : result (ModelPlacement * Q) :=
  let objective :=
    match objective_value sol with
    | Some o => o
    | None => (-1)%Q
    end in
  if status sol =? LpStatusInfeasible then Raise RuntimeError
  else
    s_res <- select_configs sol G K ;
    let p_res := placement_matrix sol N G in
    groups <- collect_groups self N G s_res p_res ;
    Ok (mkModelPlacement (fst groups) (snd groups), objective).

(** [solve_placement]; [solver] stands for [prob.solve(solver)] followed
    by the reads of [prob.status] and [pulp.value].  The CBC solver is
    taken to be installed (the assertion of line 153 holds), nothing is
    printed, and [train_workload], which the method does not use, is
    left out. *)
Definition solve_placement (self : t) (solver : LpProblem -> LpSolution)
           (model_datas : list ModelData) (cluster_env : ClusterEnv)
  : result (ModelPlacement * Q) :=
  let N := Z.of_nat (List.length model_datas) in
  let G := num_devices cluster_env in
  let K := Z.of_nat (List.length (group_configs self)) in
  prob <- formulate self model_datas cluster_env ;
  let sol := solver prob in
  decode self N G K sol.

End ModelParallelismILP.

(** The configurations other than the idle one that [__init__] lists. *)
Definition pipeline_configs : list ParallelConfig :=
  [ mkParallelConfig 1 1 1; mkParallelConfig 1 1 2;
    mkParallelConfig 1 1 4; mkParallelConfig 1 1 8 ].

(** *** Sample inputs of the ILP planner *)

Definition one_device_cluster : ClusterEnv :=
  {| num_devices := 1; mem_budget := 1; num_devices_per_node := 1 |}.

(** A model whose profile has no entry at all. *)
Definition unprofiled_model : ModelData :=
  {| name := "m0"; slo := 1; rate := 1;
     profiling_result := {| para_dict := ∅ |} |}.


(** The optimum for the half-second model on one device: the device
    runs configuration 1, [(1,1,1)], and hosts the model. *)
Definition one_device_solution : Pulp.LpSolution :=
  {| Pulp.status := 1;
     Pulp.value := fun v =>
       match v with
       | Pulp.p_var 0 0 => Some 1%Q
       | Pulp.s_var 0 1 => Some 1%Q
       | Pulp.pxs_var 0 0 1 => Some 1%Q
       | Pulp.min_tolerance => Some (198 # 100)%Q
       | Pulp.sum_tolerance => Some (198 # 100)%Q
       | _ => Some 0%Q
       end;
     Pulp.objective_value := Some (1980198 # 1000000)%Q |}.

Definition one_device_solver (prob : Pulp.LpProblem) : Pulp.LpSolution :=
  one_device_solution.

(** Sums of rationals and integers over a list. *)
Definition qsum {A : Type} (f : A -> Q) (l : list A) : Q :=
  fold_right (fun x acc => (f x + acc)%Q) 0%Q l.

Definition zsum {A : Type} (f : A -> Z) (l : list A) : Z :=
  fold_right (fun x acc => f x + acc) 0 l.

(** The devices a placement uses: the sum of its group sizes. *)
Definition devices_used (placement : ModelPlacement) : Z :=
  zsum group_size (group_configs placement).

(** The size of the configuration that [s_res] gives slot [j] (0 when
    there is none). *)
Definition slot_size (g : list Z) (s_res : list nat) (j : nat) : Z :=
  match nth_error s_res j with
  | Some k => nth k g 0
  | None => 0
  end.

(** The configuration index the solution selects for slot [j]: the
    first [k] whose [s[j][k]] is true. *)
Definition chosen (sol : Pulp.LpSolution) (K : Z) (j : nat) : nat :=
  hd 0%nat (List.filter
              (fun k => ModelParallelismILP.value_truthy sol (Pulp.s_var j k))
              (Py.range K)).

(** *** Constraints (d) and (e) of the formulated problem *)

(** The sizes of the hard-coded configurations. *)
Definition hard_coded_sizes : list Z := [0; 1; 2; 4; 8].

Definition size_term (jk : nat * nat) : Pulp.LpAffineExpression :=
  Pulp.times (Pulp.s_var (fst jk) (snd jk))
             (inject_Z (nth (snd jk) hard_coded_sizes 0)).

(** Constraint (d): the sizes of the selected configurations add up to
    the number of devices. *)
Definition group_size_constraint (G : Z) : Pulp.LpConstraint :=
  Pulp.eq (Pulp.lpSum (map size_term (ModelParallelismILP.pairs G 5)))
          (Pulp.const (inject_Z G)).

(** Constraint (e) of slot [j]: exactly one configuration. *)
Definition one_config_constraint (j : nat) : Pulp.LpConstraint :=
  Pulp.eq (Pulp.lpSum (map (fun k => Pulp.var (Pulp.s_var j k)) (Py.range 5)))
          (Pulp.const 1).

(** The problem formulated for the half-second model on one device. *)
Definition one_device_problem : Pulp.LpProblem :=
  match ModelParallelismILP.formulate
          (ModelParallelismILP.init 0) [half_second_model] one_device_cluster
  with
  | Ok prob => prob
  | Raise _ => {| Pulp.objective := Pulp.const 0; Pulp.constraints := [] |}
  end.

(** ** [read_data] of [plot_goodput_vs_slo.py] *)

(** *** Python strings *)

Module PyStr.

#[local] Open Scope string_scope.

(** [s.startswith(p)] *)
Definition startswith (s p : string) : bool := String.prefix p s.

(** [s.split(sep)] for a one-character separator: the first field and
    the fields after it (the result of [split] is never empty). *)
Fixpoint split_fields (sep : ascii) (s : string) : string * list string :=
  match s with
  | EmptyString => (EmptyString, [])
  | String c s' =>
      let (h, t) := split_fields sep s' in
      if Ascii.eqb c sep then (EmptyString, h :: t) else (String c h, t)
  end.

Definition split (sep : ascii) (s : string) : list string :=
  let (h, t) := split_fields sep s in h :: t.

(** The characters [str.strip] removes and [int] skips. *)
Definition is_space (c : ascii) : bool :=
  let n := nat_of_ascii c in
  (n =? 32)%nat || ((9 <=? n)%nat && (n <=? 13)%nat).

Fixpoint lstrip (s : list ascii) : list ascii :=
  match s with
  | c :: s' => if is_space c then lstrip s' else s
  | [] => []
  end.

Definition strip (s : list ascii) : list ascii :=
  rev (lstrip (rev (lstrip s))).

Definition digit_of (c : ascii) : option Z :=
  let n := nat_of_ascii c in
  if (48 <=? n)%nat && (n <=? 57)%nat then Some (Z.of_nat (n - 48))
  else None.

(** The digits of an integer literal, most significant first; single
    underscores may separate digits.  [after_digit] tells whether the
    previous character was a digit. *)
Fixpoint parse_digits (s : list ascii) (acc : Z) (after_digit : bool)
  : option Z :=
  match s with
  | [] => if after_digit then Some acc else None
  | c :: s' =>
      if Ascii.eqb c "_" then
        if after_digit then parse_digits s' acc false else None
      else
        match digit_of c with
        | Some d => parse_digits s' (10 * acc + d) true
        | None => None
        end
  end.

(** [int(s)]: surrounding white space, an optional sign, decimal
    digits; anything else is a [ValueError]. *)
Definition int (s : string) : result Z :=
  let body := strip (list_ascii_of_string s) in
  let parsed :=
    match body with
    | c :: rest =>
        if Ascii.eqb c "-" then option_map Z.opp (parse_digits rest 0 false)
        else if Ascii.eqb c "+" then parse_digits rest 0 false
        else parse_digits body 0 false
    | [] => None
    end in
  match parsed with
  | Some z => Ok z
  | None => Raise ValueError
  end.

(** [str(n)] of an int: its decimal digits after a minus sign when
    negative. *)
Definition str_int (n : Z) : string :=
  NilZero.string_of_int (Z.to_int n).

End PyStr.

(** *** The TSV rows and the arrival-process column *)

(** Modelled from the spec: a row that [read_all_equal_case_tsv] (not
    among the source files) yields, with the columns the spec lists. *)
Record Row : Type := mkRow {
  policy_name : string;
  row_slo : Q;
  goodput : Q;
  arrival_process : string
}.

(** Modelled from the spec: a parameter [<r>] or [<cv>] of the column as
    it is written, an int or a float in positional notation
    ([PyFloat 0 (D5 Nil)] is [0.5], [PyFloat 2 (D0 Nil)] is [2.0]);
    Python prints a float with a point (or an exponent), never as bare
    digits. *)
Inductive PyNumber : Set :=
| PyInt (n : Z)
| PyFloat (whole : Z) (fraction : Decimal.uint).

Definition str_number (x : PyNumber) : string :=
  match x with
  | PyInt n => PyStr.str_int n
  | PyFloat w f =>
      (PyStr.str_int w ++ "." ++ NilZero.string_of_uint f)%string
  end.

(** Modelled from the spec: the arrival-process column,
    [GammaProcess(rate=<r>,cv=<cv>)]. *)
Definition gamma_process_str (r cv : PyNumber) : string :=
  ("GammaProcess(rate=" ++ str_number r ++ ",cv=" ++ str_number cv ++ ")")%string.

(** *** [read_data] *)

(** [data[policy][slo] = goodput] on the nested [defaultdict]: the
    inner dict is the list of its items, keys compared as numbers. *)
Fixpoint dict_set (k v : Q) (d : list (Q * Q)) : list (Q * Q) :=
  match d with
  | [] => [(k, v)]
  | (k', v') :: d' =>
      if Qeq_bool k' k then (k', v) :: d' else (k', v') :: dict_set k v d'
  end.

Record Params : Type := mkParams {
  per_model_rate : option Z;
  per_model_cv : option Z
}.

Definition option_Z_eqb (a b : option Z) : bool :=
  match a, b with
  | Some x, Some y => x =? y
  | None, None => true
  | _, _ => false
  end.

(** The body of the loop over the rows; the state is [data], [rate]
    and [cv]. *)
Definition read_row (line : Row)
           (st : gmap string (list (Q * Q)) * option Z * option Z)
  : result (gmap string (list (Q * Q)) * option Z * option Z) :=
  match st with
  | (data, rate, cv) =>
      let policy := policy_name line in
      let slo := row_slo line in
      let goodput := goodput line in
      let arrival := arrival_process line in
      rc <- (if PyStr.startswith arrival "GammaProcess" then
               let strs := PyStr.split "=" arrival in
               s1 <- Py.getitem strs 1 ;
               rate_str <- Py.getitem (PyStr.split "," s1) 0 ;
               s2 <- Py.getitem strs 2 ;
               cv_str <- Py.getitem (PyStr.split ")" s2) 0 ;
               match rate with
               | None =>
                   r <- PyStr.int rate_str ;
                   c <- PyStr.int cv_str ;
                   Ok (Some r, Some c)
               | Some _ =>
                   (* assert rate == int(rate_str) and cv == int(cv_str) *)
                   r <- PyStr.int rate_str ;
                   if option_Z_eqb rate (Some r) then
                     c <- PyStr.int cv_str ;
                     _ <- Py.assert (option_Z_eqb cv (Some c)) ;
                     Ok (rate, cv)
                   else Raise AssertionError
               end
             else Ok (rate, cv)) ;
      let inner := match data !! policy with Some d => d | None => [] end in
      Ok (<[policy := dict_set slo goodput inner]> data, fst rc, snd rc)
  end.

(** [read_data] on the rows of the file. *)
Definition read_data (rows : list Row)
  : result (gmap string (list (Q * Q)) * Params) :=
  st <- for_loop read_row rows (∅, None, None) ;
  match st with
  | (data, rate, cv) =>
      Ok (data, {| per_model_rate := rate; per_model_cv := cv |})
  end.

(** A row of policy [mp-search] with the given arrival process. *)
Definition sample_row (arrival : string) : Row :=
  {| policy_name := "mp-search"; row_slo := 1; goodput := 1 # 2;
     arrival_process := arrival |}.

(** *** Vocabulary of the round trip *)

Definition chars (s : string) : list ascii := list_ascii_of_string s.

(** The characters of a printed int: digits and the minus sign. *)
Definition plain (c : ascii) : bool :=
  match PyStr.digit_of c with
  | Some _ => true
  | None => Ascii.eqb c "-"
  end.

(** The character [c] does not occur in [s]. *)
Definition no_char (c : ascii) (s : string) : bool :=
  forallb (fun x => negb (Ascii.eqb x c)) (chars s).

(** *** What the spec asks of the greedy construction *)

(** The greedy construction in the spec's words: the extended skeleton
    is filled by the [on_last_group] primitive.  It is the same loop
    with that primitive in the place of the call at line 392. *)
Definition greedy_group_configs_spec (Workload Evaluator : Type)
           (replica_placement_on_last_group :
              ModelPlacement -> list ModelData -> ClusterEnv -> Workload ->
              Evaluator -> Z -> ModelPlacement)
           (get_scores : Evaluator -> list ModelPlacement -> list Q)
  : ModelParallelismSearch.t -> list ModelData -> ClusterEnv -> Workload ->
    Evaluator -> Z -> result (list ModelPlacement) :=
  ModelParallelismSearch.greedy_group_configs
    Workload Evaluator replica_placement_on_last_group get_scores.

(** [sol] extends a beam parent at [cur_num]: a permitted last group
    [(1, op, pp)] of size [last_group_size] is appended to a placement
    of the beam at [cur_num - last_group_size] and the result is filled
    by [fill]. *)
Definition extends_parent {Workload Evaluator : Type}
           (fill : ModelPlacement -> list ModelData -> ClusterEnv ->
                   Workload -> Evaluator -> Z -> ModelPlacement)
           (self : ModelParallelismSearch.t) (model_datas : list ModelData)
           (cluster_env : ClusterEnv) (train_workload : Workload)
           (evaluator : Evaluator)
           (beam_sols : list (list ModelPlacement)) (cur_num : Z)
           (sol : ModelPlacement) : Prop :=
  exists (last_group_size op pp : Z) parents parent,
    1 <= last_group_size
      <= (cur_num - 1) mod num_devices_per_node cluster_env + 1 /\
    0 < pp /\ 0 < op /\ last_group_size = op * pp /\
    pp <= ModelParallelismSearch.max_pp self /\
    op <= ModelParallelismSearch.max_op self /\
    Py.getitem beam_sols (cur_num - last_group_size) = Ok parents /\
    In parent parents /\
    sol = fill (ModelParallelismSearch.append_group
                  parent (mkParallelConfig 1 op pp))
               model_datas cluster_env train_workload evaluator
               (ModelParallelismSearch.verbose self).

(** [beam] holds the [k] best of [next_sols] by [scores]: it lists the
    placements at distinct positions, as many as [k] allows, and no
    position left out scores higher than one that was taken. *)
Definition top_k (scores : list Q) (next_sols : list ModelPlacement)
           (k : Z) (beam : list ModelPlacement) : Prop :=
  exists idxs : list nat,
    Forall2 (fun i sol => nth_error next_sols i = Some sol) idxs beam /\
    List.NoDup idxs /\
    (forall i, In i idxs -> (i < List.length scores)%nat) /\
    List.length idxs = Nat.min (Z.to_nat k) (List.length scores) /\
    forall i i', In i idxs -> (i' < List.length scores)%nat -> ~ In i' idxs ->
                 (nth i' scores 0 <= nth i scores 0)%Q.

(** *** Sample collaborators of the greedy construction *)

(** A fast-greedy primitive under which both models fit every group. *)
Definition sample_fast_greedy (sol : ModelPlacement) (_ : list ModelData)
           (_ : ClusterEnv) (_ _ : unit) (_ : Z) : ModelPlacement :=
  {| group_configs := group_configs sol;
     group_models := map (fun _ => [0; 1]) (group_models sol) |}.

(** An on-last-group primitive that puts model 0 on the last group and
    leaves the other groups as they are. *)
Definition sample_on_last_group (sol : ModelPlacement) (_ : list ModelData)
           (_ : ClusterEnv) (_ _ : unit) (_ : Z) : ModelPlacement :=
  {| group_configs := group_configs sol;
     group_models := removelast (group_models sol) ++ [[0]] |}.

(** The score of a placement: its number of replicas. *)
Definition sample_get_scores (_ : unit) (sols : list ModelPlacement) : list Q :=
  map (fun sol => inject_Z (Z.of_nat (List.length (concat (group_models sol)))))
      sols.

Definition two_device_cluster : ClusterEnv :=
  {| num_devices := 2; mem_budget := 1; num_devices_per_node := 2 |}.

(** ** [ModelParallelismGreedy] *)

Module ModelParallelismGreedy.

Record t : Type := mk {
  group_size : Z;
  add_evo_search : bool;
  verbose : Z
}.

(** [__init__(group_size=2, add_evo_search=False, verbose=0)] *)
Definition init (group_size : Z) (add_evo_search : bool) (verbose : Z) : t :=
  {| group_size := group_size;
     add_evo_search := add_evo_search;
     verbose := verbose |}.

Definition default : t := init 2 false 0.

Section Solve.

Variables Workload Evaluator : Type.

Variable gen_train_workload : list ModelData -> Workload.

Variable PlacementEvaluator :
  list ModelData -> ClusterEnv -> Workload -> string -> bool -> Evaluator.

Variable replica_placement_fast_greedy :
  ModelPlacement -> list ModelData -> ClusterEnv -> Workload ->
  option Evaluator -> Z -> ModelPlacement.

Variable evolutionary_search :
  list (option ModelPlacement) -> list ModelData -> ClusterEnv -> Evaluator ->
  Z -> Z -> ModelPlacement.

(** [solve_placement] returns [(sol, None)]; [tt] stands for [None]. *)
Definition solve_placement (self : t) (model_datas : list ModelData)
           (cluster_env : ClusterEnv) (train_workload : option Workload)
  : result (ModelPlacement * unit) :=
  let train_workload :=
    match train_workload with
    | None => gen_train_workload model_datas
    | Some w => w
    end in
  let evaluator :=
    PlacementEvaluator model_datas cluster_env train_workload
                       "fast_simulator" false in
  r <- Py.int_mod (num_devices cluster_env) (group_size self) ;
  _ <- Py.assert (r =? 0) ;
  num_groups <- Py.int_floordiv (num_devices cluster_env) (group_size self) ;
  let sol :=
    mkModelPlacement
      (repeat (mkParallelConfig 1 1 (group_size self)) (Z.to_nat num_groups))
      (map (fun _ => []) (Py.range num_groups)) in
  let sol :=
    replica_placement_fast_greedy
      sol model_datas cluster_env train_workload (Some evaluator)
      (verbose self) in
  let sol :=
    if add_evo_search self then
      evolutionary_search [Some sol] model_datas cluster_env evaluator
                          200 (verbose self)
    else sol in
  Ok (sol, tt).

End Solve.

End ModelParallelismGreedy.

(** *** Sample collaborators of the planners *)

(** A fast-greedy primitive that puts model 0 on every group. *)
Definition sample_fill (sol : ModelPlacement) (_ : list ModelData)
           (_ : ClusterEnv) (_ : unit) (_ : option unit) (_ : Z)
  : ModelPlacement :=
  {| group_configs := group_configs sol;
     group_models := map (fun _ => [0]) (group_models sol) |}.

Definition sample_gen_train_workload (_ : list ModelData) : unit := tt.

Definition sample_evaluator (_ : list ModelData) (_ : ClusterEnv) (_ : unit)
           (_ : string) (_ : bool) : unit := tt.

(** An evolutionary search that returns a fixed empty placement. *)
Definition sample_evolutionary_search (_ : list (option ModelPlacement))
           (_ : list ModelData) (_ : ClusterEnv) (_ : unit) (_ _ : Z)
  : ModelPlacement :=
  mkModelPlacement [] [].

(** The search planner and the greedy planner with the sample
    collaborators on two devices of one node. *)
Definition sample_search_solve (self : ModelParallelismSearch.t)
           (cluster_env : ClusterEnv)
  : result (option ModelPlacement * unit) :=
  ModelParallelismSearch.solve_placement
    unit unit sample_gen_train_workload sample_evaluator sample_fill
    sample_get_scores sample_evolutionary_search
    self [] cluster_env None.

Definition sample_greedy_solve (self : ModelParallelismGreedy.t)
           (cluster_env : ClusterEnv) : result (ModelPlacement * unit) :=
  ModelParallelismGreedy.solve_placement
    unit unit sample_gen_train_workload sample_evaluator sample_fill
    sample_evolutionary_search
    self [] cluster_env None.

(** Two one-device groups, each serving model 0. *)
Definition two_single_groups : ModelPlacement :=
  {| group_configs := [mkParallelConfig 1 1 1; mkParallelConfig 1 1 1];
     group_models := [[0]; [0]] |}.

(** One two-stage pipeline serving model 0. *)
Definition one_pipeline_group : ModelPlacement :=
  {| group_configs := [mkParallelConfig 1 1 2];
     group_models := [[0]] |}.

(** *** What the decoding makes of a solution *)

(** The models that the solution places on slot [j], in increasing
    order. *)
Definition placed (sol : Pulp.LpSolution) (N : Z) (j : nat) : list Z :=
  map Z.of_nat
      (List.filter
         (fun i => ModelParallelismILP.value_truthy sol (Pulp.p_var i j))
         (Py.range N)).

(** The group that slot [j] contributes: none when the configuration
    selected for it has size 0. *)
Definition slot_group (self : ModelParallelismILP.t) (sol : Pulp.LpSolution)
           (N : Z) (s_res : list nat) (j : nat)
  : list (ParallelConfig * list Z) :=
  match nth_error s_res j with
  | Some k =>
      if nth k (ModelParallelismILP.group_sizes self) 0 =? 0 then []
      else [(nth k (ModelParallelismILP.group_configs self)
                 (mkParallelConfig 0 0 0),
             placed sol N j)]
  | None => []
  end.

(** The weight [c[i]] of model [i]: the first stage weight of its
    [(1, 1, 1)] profile. *)
Definition model_weight (model_datas : list ModelData) (i : Z) : Q :=
  match nth_error model_datas (Z.to_nat i) with
  | Some m =>
      match para_dict (profiling_result m) !! mkParallelConfig 1 1 1 with
      | Some lm => nth 0 (weight_mem lm) 0%Q
      | None => 0%Q
      end
  | None => 0%Q
  end.

(** The weights of the models of one group, added up. *)
Definition memory_used (model_datas : list ModelData) (models : list Z) : Q :=
  qsum (model_weight model_datas) models.

(** A solver that finds nothing: status "not solved", no values. *)
Definition unsolved_solution : Pulp.LpSolution :=
  {| Pulp.status := 0;
     Pulp.value := fun _ => None;
     Pulp.objective_value := None |}.

(** A solver that reports infeasibility. *)
Definition infeasible_solution : Pulp.LpSolution :=
  {| Pulp.status := Pulp.LpStatusInfeasible;
     Pulp.value := fun _ => None;
     Pulp.objective_value := None |}.

(** ** The other functions of [plot_goodput_vs_slo.py] *)

(** *** [show_name] *)

Definition show_name_dict : gmap string string :=
  list_to_map
    [ ("sr-greedy",   "Selective Replication (greedy)");
      ("sr-ilp",      "Selective Replication (ilp)");
      ("mp-ilp",      "Model Parallelism (ilp)");
      ("mp-search",   "Model Parallelism (search)");
      ("mp-greedy-2", "Pipeline Parallelism (#stage=2)");
      ("mp-greedy-4", "Pipeline Parallelism (#stage=4)");
      ("mp-greedy-8", "Pipeline Parallelism (#stage=8)") ]%string.

(** [show_name_dict.get(name, name)] *)
Definition show_name (name : string) : string :=
  match show_name_dict !! name with
  | Some shown => shown
  | None => name
  end.

(** *** [method2order] and the order of the curves *)

Definition method_order_list : list string :=
  [ "sr-greedy"; "sr-ilp";
    "mp-ilp"; "mp-search";
    "mp-greedy-2"; "mp-greedy-4"; "mp-greedy-8" ]%string.

(** [l.index(x)]: the first position of [x], [ValueError] when [x] is
    not in the list. *)
Fixpoint list_index (l : list string) (x : string) : result Z :=
  match l with
  | [] => Raise ValueError
  | y :: l' =>
      if String.eqb y x then Ok 0
      else i <- list_index l' x ; Ok (i + 1)
  end.

Definition method2order (name : string) : result Z :=
  list_index method_order_list name.

(** [methods.sort(key=lambda x: method2order(x))] (line 78): the keys
    are computed first, then the list is sorted by key; methods with
    equal keys keep their order. *)
Fixpoint insert_by_key (x : Z * string) (l : list (Z * string))
  : list (Z * string) :=
  match l with
  | [] => [x]
  | y :: l' =>
      if fst x <=? fst y then x :: l else y :: insert_by_key x l'
  end.

Definition sort_methods (methods : list string) : result (list string) :=
  keys <- Py.for_each method2order methods ;
  Ok (map snd (fold_right insert_by_key [] (combine keys methods))).

(** *** [method2color]

    The globals [method2color_dict] and [ct] are the state that the
    function reads and updates. *)

Record ColorState : Type := mkColorState {
  method2color_dict : gmap string string;
  ct : Z
}.

(** The state when the module is loaded. *)
Definition initial_colors : ColorState :=
  {| method2color_dict := ∅; ct := 0 |}.

Definition method2color (name : string) (st : ColorState)
  : result (string * ColorState) :=
  let st :=
    match method2color_dict st !! name with
    | None =>
        {| method2color_dict :=
             <[name := ("C" ++ PyStr.str_int (ct st))%string]>
               (method2color_dict st);
           ct := ct st + 1 |}
    | Some _ => st
    end in
  color <- Py.dict_getitem (method2color_dict st) name ;
  Ok (color, st).

(** The colors of the curves: [method2color] is called once per method
    (line 88), in the order of [methods]. *)
Fixpoint curve_colors (methods : list string) (st : ColorState)
  : result (list string * ColorState) :=
  match methods with
  | [] => Ok ([], st)
  | method :: methods' =>
      r <- method2color method st ;
      rs <- curve_colors methods' (snd r) ;
      Ok (fst r :: fst rs, snd rs)
  end.

(** *** What [read_data] stores *)

(** [data[policy][slo] = goodput] for one row. *)
Definition store_row (line : Row) (data : gmap string (list (Q * Q)))
  : gmap string (list (Q * Q)) :=
  let inner :=
    match data !! policy_name line with Some d => d | None => [] end in
  <[policy_name line := dict_set (row_slo line) (goodput line) inner]> data.

(** [d.get(k)] on an inner dict, keys compared as numbers. *)
Fixpoint dict_get (k : Q) (d : list (Q * Q)) : option Q :=
  match d with
  | [] => None
  | (k', v) :: d' => if Qeq_bool k' k then Some v else dict_get k d'
  end.

(** The goodput that [data] holds for a policy and an SLO. *)
Definition lookup_goodput (data : gmap string (list (Q * Q)))
           (policy : string) (slo : Q) : option Q :=
  match data !! policy with
  | Some d => dict_get slo d
  | None => None
  end.

(** The goodput of the last row of the policy with the SLO. *)
Definition last_goodput (rows : list Row) (policy : string) (slo : Q)
  : option Q :=
  fold_left
    (fun acc row =>
       if String.eqb (policy_name row) policy && Qeq_bool (row_slo row) slo
       then Some (goodput row) else acc)
    rows None.

(** The rows whose arrival process is a [GammaProcess]. *)
Definition is_gamma_row (row : Row) : bool :=
  PyStr.startswith (arrival_process row) "GammaProcess".

(** The second component of what [read_data] returns, or its
    exception. *)
Definition params_of (r : result (gmap string (list (Q * Q)) * Params))
  : result Params :=
  x <- r ; Ok (snd x).

(** The number of occurrences of a character in a string. *)
Definition count_char (c : ascii) (s : string) : nat :=
  List.length (List.filter (fun x => Ascii.eqb x c) (chars s)).

(** Two rows of the same policy and SLO with different goodputs. *)
Definition repeated_rows : list Row :=
  [ sample_row "PoissonProcess(rate=2)";
    {| policy_name := "mp-search"; row_slo := 1; goodput := 3 # 4;
       arrival_process := "PoissonProcess(rate=2)" |} ].

(** The half-second model with no requests: its capability is not 0. *)
Definition idle_half_second_model : ModelData :=
  {| name := "m0"; slo := 1; rate := 0;
     profiling_result :=
       {| para_dict := {[ cfg_1_1_1 := half_second_entry ]} |} |}.

(* ================================================================== *)
(** * Part II. Properties                                               *)
(* ================================================================== *)

(** ** Capability model *)

Section Capability.

#[local] Open Scope Q_scope.

Lemma max2_cases a b : Py.max2 a b = a \/ Py.max2 a b = b.
Proof.
  unfold Py.max2, Qmax, GenericMinMax.gmax.
  destruct (a ?= b); auto.
Qed.

Lemma sum_acc ls : forall a, fold_left Qplus ls a == a + total ls.
Proof.
  induction ls as [|x ls IH]; intros a; simpl.
  - ring.
  - rewrite IH. ring.
Qed.

Lemma sum_total ls : Py.sum ls == total ls.
Proof. unfold Py.sum. rewrite sum_acc. ring. Qed.

Lemma fold_max2_spec ls : forall a,
    let m := fold_left Py.max2 ls a in
    (m = a \/ In m ls) /\ a <= m /\ forall x, In x ls -> x <= m.
Proof.
  induction ls as [|x ls IH]; intros a; simpl.
  - split; [auto|]. split; [apply Qle_refl|]. intros ? [].
  - destruct (IH (Py.max2 a x)) as (Hin & Hle & Hub).
    split; [|split].
    + destruct Hin as [-> | Hin]; [|auto].
      destruct (max2_cases a x) as [-> | ->]; auto.
    + eapply Qle_trans; [apply Q.le_max_l | exact Hle].
    + intros y [<- | Hy]; [|auto].
      eapply Qle_trans; [apply Q.le_max_r | exact Hle].
Qed.

Lemma max_is_maximum ls m : Py.max ls = Ok m -> is_maximum ls m.
Proof.
  destruct ls as [|x ls]; simpl; [discriminate|].
  intros [= <-].
  destruct (fold_max2_spec ls x) as (Hin & Hle & Hub).
  split.
  - simpl. destruct Hin as [-> | Hin]; auto.
  - intros y [<- | Hy]; auto.
Qed.

Lemma is_maximum_unique ls m m' :
  is_maximum ls m -> is_maximum ls m' -> m == m'.
Proof.
  intros [Hin Hub] [Hin' Hub'].
  apply Qle_antisym; auto.
Qed.

Lemma stage_defined_max ls :
  stage_defined ls = true -> exists m, Py.max ls = Ok m /\ ~ m == 0.
Proof.
  unfold stage_defined. destruct (Py.max ls) as [m|]; [|discriminate].
  intros H. exists m. split; [reflexivity|].
  apply negb_true_iff in H. now apply Qeq_bool_neq.
Qed.

(** The loop body computes the spec's bound. *)
Lemma stage_capability_bound slo ls :
  stage_defined ls = true ->
  exists c, stage_capability slo ls = Ok c /\ pipeline_bound slo ls c.
Proof.
  intros Hd. destruct (stage_defined_max ls Hd) as (m & Hm & Hnz).
  unfold stage_capability. rewrite Hm. cbn [bind].
  unfold Py.floordiv.
  destruct (Qeq_bool m 0) eqn:E.
  { apply Qeq_bool_eq in E. contradiction. }
  cbn [bind]. eexists. split; [reflexivity|].
  exists m. split; [now apply max_is_maximum|]. split; [assumption|].
  apply Qplus_comp; [|reflexivity].
  rewrite (Qfloor_comp ((slo - Py.sum ls) / m) ((slo - total ls) / m));
    [reflexivity|].
  apply Qmult_comp; [|reflexivity].
  apply Qplus_comp; [reflexivity|]. apply Qopp_comp, sum_total.
Qed.

Lemma pipeline_bound_unique slo ls t t' :
  pipeline_bound slo ls t -> pipeline_bound slo ls t' -> t == t'.
Proof.
  intros (m & Hm & _ & Ht) (m' & Hm' & _ & Ht').
  rewrite Ht, Ht'.
  apply Qplus_comp; [|reflexivity].
  rewrite (Qfloor_comp ((slo - total ls) / m) ((slo - total ls) / m'));
    [reflexivity|].
  apply Qmult_comp; [reflexivity|].
  apply Qinv_comp, (is_maximum_unique _ _ _ Hm Hm').
Qed.

(** Invariant of the loop: the result is the starting value or the
    bound of a considered batch size, and dominates all of them. *)
Lemma capability_loop_spec slo max_bs items :
  profile_defined max_bs items = true ->
  forall acc, exists M,
    capability_loop slo max_bs items acc = Ok M /\
    acc <= M /\
    (forall b ls t, In (b, ls) items -> (b <= max_bs)%Z ->
                    pipeline_bound slo ls t -> t <= M) /\
    (M = acc \/ exists b ls, In (b, ls) items /\ (b <= max_bs)%Z /\
                             pipeline_bound slo ls M).
Proof.
  induction items as [|[b ls] rest IH]; intros Hd acc; simpl.
  - exists acc. split; [reflexivity|]. split; [apply Qle_refl|].
    split; [intros ? ? ? []|auto].
  - simpl in Hd. apply andb_true_iff in Hd as [Hhd Hrest].
    destruct (Z.ltb_spec max_bs b) as [Hlt|Hge].
    + destruct (IH Hrest acc) as (M & HM & Hacc & Hub & Hwit).
      exists M. split; [exact HM|]. split; [exact Hacc|]. split.
      * intros b' ls' t [[= <- <-]|Hin] Hb Ht; [lia|eauto].
      * destruct Hwit as [->|(b' & ls' & Hin & Hb & Ht)]; [auto|].
        right. exists b', ls'. auto.
    + simpl in Hhd.
      destruct (Z.ltb_spec max_bs b) as [?|_]; [lia|]. simpl in Hhd.
      destruct (stage_capability_bound slo ls Hhd) as (c & Hc & Hcb).
      rewrite Hc. simpl.
      destruct (IH Hrest (Py.max2 acc c)) as (M & HM & Hacc & Hub & Hwit).
      exists M. split; [exact HM|]. split; [|split].
      * eapply Qle_trans; [apply Q.le_max_l | exact Hacc].
      * intros b' ls' t [[= <- <-]|Hin] Hb Ht; [|eauto].
        rewrite (pipeline_bound_unique _ _ _ _ Ht Hcb).
        eapply Qle_trans; [apply Q.le_max_r | exact Hacc].
      * destruct Hwit as [->|(b' & ls' & Hin & Hb & Ht)].
        -- destruct (max2_cases acc c) as [->| ->]; [auto|].
           right. exists b, ls. auto.
        -- right. exists b', ls'. auto.
Qed.

(** The capability in exact arithmetic.  Over the rationals
    [compute_capability] returns 0 when the configuration is not in the
    model's profile.  When it is, and every batch size [b <= max_bs]
    has a stage list with a non-zero maximum (so that the formula is
    defined), it returns [M * 0.99^pp] where [M] is the maximum, and at
    least 0, of the bounds
    [floor((slo - sum of the stage latencies) / max stage latency) + 1]
    over the profiled batch sizes [b <= max_bs]: [M] is at least 0 and
    at least every bound, and it is 0 or one of the bounds.  The
    program computes in doubles and can return less; the properties of
    [Double.compute_capability] follow. *)
Theorem compute_capability_exact_formula
        (model_data : ModelData) (cfg : ParallelConfig) (max_bs : Z) :
  (para_dict (profiling_result model_data) !! cfg = None ->
   compute_capability model_data cfg max_bs = Ok 0) /\
  (forall lm,
      para_dict (profiling_result model_data) !! cfg = Some lm ->
      profile_defined max_bs (latency lm) = true ->
      exists M,
        compute_capability model_data cfg max_bs
        = Ok (M * (99 # 100) ^ pp cfg) /\
        0 <= M /\
        (forall b ls t,
            In (b, ls) (latency lm) -> (b <= max_bs)%Z ->
            pipeline_bound (slo model_data) ls t -> t <= M) /\
        (M == 0 \/
         exists b ls, In (b, ls) (latency lm) /\ (b <= max_bs)%Z /\
                      pipeline_bound (slo model_data) ls M)).
Proof.
  unfold compute_capability. split.
  - intros ->. reflexivity.
  - intros lm -> Hd.
    destruct (capability_loop_spec (slo model_data) max_bs (latency lm) Hd 0)
      as (M & HM & H0 & Hub & Hwit).
    exists M. rewrite HM. cbn [bind].
    split; [reflexivity|]. split; [exact H0|]. split; [exact Hub|].
    destruct Hwit as [-> | Hwit]; [left; reflexivity | right; exact Hwit].
Qed.

(** The loop body raises only [ValueError] (empty list) or
    [ZeroDivisionError] (maximum zero). *)
Lemma stage_capability_raise slo ls e :
  stage_capability slo ls = Raise e ->
  (e = ValueError /\ ls = []) \/
  (e = ZeroDivisionError /\ exists m, Py.max ls = Ok m /\ m == 0).
Proof.
  unfold stage_capability.
  destruct ls as [|x ls].
  - cbn. intros [= <-]. auto.
  - destruct (Py.max (x :: ls)) as [m|e'] eqn:Hm; [|discriminate].
    cbn [bind]. unfold Py.floordiv.
    destruct (Qeq_bool m 0) eqn:E; cbn [bind]; [|discriminate].
    intros [= <-]. right. split; [reflexivity|].
    exists m. split; [reflexivity|]. now apply Qeq_bool_eq.
Qed.

Lemma stage_capability_zero_max slo ls :
  (exists m, is_maximum ls m /\ m == 0) ->
  stage_capability slo ls = Raise ZeroDivisionError.
Proof.
  intros (m & Hm & Hz).
  unfold stage_capability.
  destruct (Py.max ls) as [m'|e] eqn:Hm'.
  - cbn [bind]. unfold Py.floordiv.
    assert (Hz' : m' == 0).
    { rewrite <- Hz. apply (is_maximum_unique ls); [|exact Hm].
      now apply max_is_maximum. }
    apply Qeq_eq_bool in Hz'. rewrite Hz'. reflexivity.
  - destruct ls; [|discriminate]. destruct Hm as [[] _].
Qed.

Lemma capability_loop_raise slo max_bs items b ls e0 :
  In (b, ls) items -> (b <= max_bs)%Z ->
  stage_capability slo ls = Raise e0 ->
  forall acc, exists e,
    capability_loop slo max_bs items acc = Raise e /\
    (e = ZeroDivisionError \/ e = ValueError).
Proof.
  intros Hin Hb Hraise.
  induction items as [|[b' ls'] rest IH]; intros acc; [destruct Hin|].
  simpl. destruct (Z.ltb_spec max_bs b') as [Hlt|Hge].
  - destruct Hin as [[= -> ->]|Hin]; [lia|]. apply IH, Hin.
  - destruct (stage_capability slo ls') as [c|e] eqn:Hc.
    + cbn [bind]. destruct Hin as [[= -> ->]|Hin]; [congruence|].
      apply IH, Hin.
    + cbn [bind]. exists e. split; [reflexivity|].
      destruct (stage_capability_raise _ _ _ Hc) as [[-> _]|[-> _]]; auto.
Qed.

(** Claim C5, as the code has it.  When the profile of the
    configuration has a batch size [b <= max_bs] whose stage latencies
    have maximum 0, [compute_capability] does not return: the floor
    division by [max(ls)] raises [ZeroDivisionError] (or an empty stage
    list met earlier raises [ValueError]). *)
Theorem compute_capability_zero_latency_raises
        (model_data : ModelData) (cfg : ParallelConfig) (max_bs : Z)
        (lm : LatencyMem) (b : Z) (ls : list Q) :
  para_dict (profiling_result model_data) !! cfg = Some lm ->
  In (b, ls) (latency lm) -> (b <= max_bs)%Z ->
  (exists m, is_maximum ls m /\ m == 0) ->
  exists e, compute_capability model_data cfg max_bs = Raise e /\
            (e = ZeroDivisionError \/ e = ValueError).
Proof.
  intros Hlm Hin Hb Hz.
  unfold compute_capability. rewrite Hlm.
  destruct (capability_loop_raise (slo model_data) max_bs (latency lm)
              b ls ZeroDivisionError Hin Hb
              (stage_capability_zero_max _ _ Hz) 0) as (e & He & Hk).
  exists e. rewrite He. auto.
Qed.

(** *** Monotonicity in the SLO *)







End Capability.

(** The exact formula on the half-second model, one device, SLO 1: the
    profile is defined and the formula gives the capability [2 * 0.99]. *)
Lemma compute_capability_exact_formula_witness :
  para_dict (profiling_result half_second_model) !! cfg_1_1_1
  = Some half_second_entry /\
  profile_defined 1 (latency half_second_entry) = true /\
  exists M,
    compute_capability half_second_model cfg_1_1_1 1
    = Ok (M * (99 # 100) ^ pp cfg_1_1_1)%Q /\
    (0 <= M)%Q /\
    (forall b ls t,
        In (b, ls) (latency half_second_entry) -> b <= 1 ->
        pipeline_bound (slo half_second_model) ls t -> (t <= M)%Q) /\
    ((M == 0)%Q \/
     exists b ls, In (b, ls) (latency half_second_entry) /\ b <= 1 /\
                  pipeline_bound (slo half_second_model) ls M).
Proof.
  split; [reflexivity|]. split; [reflexivity|].
  exact (proj2 (compute_capability_exact_formula half_second_model
                                                 cfg_1_1_1 1)
               half_second_entry eq_refl eq_refl).
Defined.

Example half_second_capability :
  compute_capability half_second_model cfg_1_1_1 1 = Ok ((2 # 1) * (99 # 100) ^ 1)%Q.
Proof. reflexivity. Qed.

(** ** Capability in double precision *)

Section DoubleCapability.

Import Double.

(** The order of the doubles is transitive. *)
Lemma double_lt_trans (a b c : float) :
  lt a b = true -> lt b c = true -> lt a c = true.
Proof.
  unfold lt, SpecFloat.SFltb, SpecFloat.SFcompare.
  destruct a as [[]|[]| |[] ma ea], b as [[]|[]| |[] mb eb],
           c as [[]|[]| |[] mc ec];
    try discriminate; try reflexivity;
    rewrite !Pos.compare_cont_spec; cbn [Pos.switch_Eq];
    destruct (Z.compare_spec ea eb), (Z.compare_spec eb ec),
             (Z.compare_spec ea ec);
    try discriminate; try reflexivity; try lia; subst;
    destruct (Pos.compare_spec ma mb), (Pos.compare_spec mb mc),
             (Pos.compare_spec ma mc);
    cbn; try discriminate; try reflexivity; try lia.
Qed.

Lemma double_lt_irrefl (a : float) : lt a a = false.
Proof.
  unfold lt, SpecFloat.SFltb, SpecFloat.SFcompare.
  destruct a as [[]|[]| |[] ma ea]; try reflexivity;
    rewrite Z.compare_refl, Pos.compare_cont_refl; reflexivity.
Qed.

Lemma double_lt_asym (a b : float) : lt a b = true -> lt b a = false.
Proof.
  intros H. destruct (lt b a) eqn:E; [|reflexivity].
  rewrite <- (double_lt_irrefl a). symmetry. exact (double_lt_trans _ _ _ H E).
Qed.

(** What is not above [a] is not above anything greater than [a]. *)
Lemma double_not_lt_mono (a b v : float) :
  lt a b = true -> lt a v = false -> lt b v = false.
Proof.
  intros Hab Hav. destruct (lt b v) eqn:E; [|reflexivity].
  rewrite <- Hav. symmetry. exact (double_lt_trans _ _ _ Hab E).
Qed.

(** The floor division returns whenever the divisor is not zero. *)
Lemma double_floordiv_returns (vx wx : float) :
  eqb wx zero = false -> exists q, floordiv vx wx = Ok q.
Proof.
  intros H. unfold floordiv. rewrite H.
  match goal with
  | |- context [if truthy ?d then _ else _] => destruct (truthy d)
  end; eexists; reflexivity.
Qed.

Lemma double_stage_defined_bound (slo : float) (ls : list float) :
  stage_defined ls = true ->
  exists v, stage_capability slo ls = Ok v /\ pipeline_bound slo ls v.
Proof.
  unfold stage_defined, stage_capability, pipeline_bound.
  destruct (max ls) as [m|e]; [|discriminate].
  intros Hm. apply negb_true_iff in Hm. cbn [bind].
  destruct (double_floordiv_returns (sub slo (sum ls)) m Hm) as [q Hq].
  rewrite Hq. cbn [bind]. exists (add q one). split; [reflexivity|].
  exists m, q. split; [reflexivity|]. split; [exact Hq|reflexivity].
Qed.

(** A stage list has at most one bound. *)
Lemma double_pipeline_bound_unique (slo : float) (ls : list float)
      (t t' : float) :
  pipeline_bound slo ls t -> pipeline_bound slo ls t' -> t = t'.
Proof.
  intros (m & q & Hm & Hq & ->) (m' & q' & Hm' & Hq' & ->).
  rewrite Hm in Hm'. injection Hm' as <-.
  rewrite Hq in Hq'. injection Hq' as <-. reflexivity.
Qed.

(** The loop returns the greatest of [max_cap] and the bounds of the
    batch sizes it considers. *)
Lemma double_capability_loop_max (slo : float) (max_bs : Z)
      (items : list (Z * list float)) :
  profile_defined max_bs items = true ->
  forall max_cap,
  exists M,
    capability_loop slo max_bs items max_cap = Ok M /\
    (M = max_cap \/
     lt max_cap M = true /\
     exists b ls, In (b, ls) items /\ b <= max_bs /\ pipeline_bound slo ls M) /\
    (forall b ls, In (b, ls) items -> b <= max_bs ->
       exists v, pipeline_bound slo ls v /\ lt M v = false).
Proof.
  induction items as [|[b ls] rest IH]; intros Hd max_cap.
  - exists max_cap. split; [reflexivity|]. split; [left; reflexivity|].
    intros b ls [].
  - cbn [profile_defined forallb fst snd] in Hd.
    apply andb_prop in Hd. destruct Hd as [Hb Hrest].
    specialize (IH Hrest). cbn [capability_loop].
    destruct (max_bs <? b) eqn:Eb.
    + destruct (IH max_cap) as (M & HM & Hor & Hall).
      exists M. split; [exact HM|]. split.
      * destruct Hor as [->|(Hlt & b' & ls' & Hin & Hle & Hp)];
          [left; reflexivity|].
        right. split; [exact Hlt|]. exists b', ls'. split; [right; exact Hin|].
        split; assumption.
      * intros b' ls' [Heq|Hin] Hle.
        -- inversion Heq; subst. apply Z.ltb_lt in Eb. lia.
        -- exact (Hall b' ls' Hin Hle).
    + cbn [orb] in Hb. apply Z.ltb_ge in Eb.
      destruct (double_stage_defined_bound slo ls Hb) as (c & Hc & Hpc).
      rewrite Hc. cbn [bind].
      destruct (IH (max2 max_cap c)) as (M & HM & Hor & Hall).
      exists M. split; [exact HM|].
      assert (Hstep : max2 max_cap c = max_cap /\ lt max_cap c = false \/
                      max2 max_cap c = c /\ lt max_cap c = true).
      { unfold max2. destruct (lt max_cap c); [right|left]; split; reflexivity. }
      split.
      * destruct Hor as [->|(Hlt & b' & ls' & Hin & Hle & Hp)].
        -- destruct Hstep as [[-> _]|[-> Hlt]]; [left; reflexivity|].
           right. split; [exact Hlt|]. exists b, ls.
           split; [left; reflexivity|]. split; assumption.
        -- right. split.
           ++ destruct Hstep as [[E _]|[E Hlt']]; rewrite E in Hlt;
                [exact Hlt|exact (double_lt_trans _ _ _ Hlt' Hlt)].
           ++ exists b', ls'. split; [right; exact Hin|]. split; assumption.
      * intros b' ls' [Heq|Hin] Hle; [|exact (Hall b' ls' Hin Hle)].
        inversion Heq; subst b' ls'. exists c. split; [exact Hpc|].
        assert (Hc0 : lt (max2 max_cap c) c = false).
        { destruct Hstep as [[-> H]|[-> _]]; [exact H|apply double_lt_irrefl]. }
        destruct Hor as [->|(Hlt & _)]; [exact Hc0|].
        exact (double_not_lt_mono _ _ _ Hlt Hc0).
Qed.

Variable pow : float -> Z -> result float.

(** Claim C1 (amended).  [compute_capability] returns 0 when the
    configuration is not in the model's profile.  When it is, and every
    batch size [b <= max_bs] has a stage list with a non-zero maximum,
    it returns [M * 0.99 ** pp] in double arithmetic, where [M] is the
    greatest of 0 and the bounds
    [(slo - sum of the stage latencies) // max stage latency + 1]
    of the profiled batch sizes [b <= max_bs], each operation rounded
    to a double: [M] is 0 or a bound greater than 0, and no bound is
    greater than [M]. *)
Theorem compute_capability_double_formula
        (model_data : ModelData) (cfg : ParallelConfig) (max_bs : Z) :
  (para_dict (profiling_result model_data) !! cfg = None ->
   compute_capability pow model_data cfg max_bs = Ok zero) /\
  (forall lm,
      para_dict (profiling_result model_data) !! cfg = Some lm ->
      profile_defined max_bs (latency lm) = true ->
      exists M,
        compute_capability pow model_data cfg max_bs
        = (p <- pow (of_ratio 99 100) (pp cfg) ; Ok (mul M p)) /\
        (M = zero \/
         lt zero M = true /\
         exists b ls, In (b, ls) (latency lm) /\ b <= max_bs /\
                      pipeline_bound (slo model_data) ls M) /\
        (forall b ls,
            In (b, ls) (latency lm) -> b <= max_bs ->
            exists t, pipeline_bound (slo model_data) ls t /\
                      lt M t = false)).
Proof.
  unfold compute_capability. split.
  - intros ->. reflexivity.
  - intros lm -> Hd.
    destruct (double_capability_loop_max (slo model_data) max_bs
                (latency lm) Hd zero) as (M & HM & Hor & Hall).
    exists M. rewrite HM. cbn [bind]. split; [reflexivity|].
    split; assumption.
Qed.

End DoubleCapability.

(** Claim C1 (amended) on the tenth-second model: SLO 1.1, one stage of
    latency 0.1 at batch size 1. *)
Lemma compute_capability_double_formula_witness :
  Double.para_dict (Double.profiling_result Double.tenth_second_model)
    !! cfg_1_1_1
  = Some Double.tenth_second_entry /\
  Double.profile_defined 1 (Double.latency Double.tenth_second_entry) = true /\
  exists M,
    Double.compute_capability Double.sample_pow Double.tenth_second_model
                              cfg_1_1_1 1
    = (p <- Double.sample_pow (Double.of_ratio 99 100) (pp cfg_1_1_1) ;
       Ok (Double.mul M p)) /\
    (M = Double.zero \/
     Double.lt Double.zero M = true /\
     exists b ls, In (b, ls) (Double.latency Double.tenth_second_entry) /\
                  b <= 1 /\
                  Double.pipeline_bound (Double.slo Double.tenth_second_model)
                                        ls M) /\
    (forall b ls,
        In (b, ls) (Double.latency Double.tenth_second_entry) -> b <= 1 ->
        exists t, Double.pipeline_bound (Double.slo Double.tenth_second_model)
                                        ls t /\
                  Double.lt M t = false).
Proof.
  split; [reflexivity|]. split; [vm_compute; reflexivity|].
  exact (proj2 (compute_capability_double_formula
                  Double.sample_pow Double.tenth_second_model cfg_1_1_1 1)
               Double.tenth_second_entry eq_refl eq_refl).
Defined.

(** Claim C1 fails in double precision.  With an SLO of 1.1 and one
    stage of latency 0.1 the subtraction [1.1 - 0.1] is rounded to 1.0,
    the floor division by the double 0.1 (a little above one tenth)
    gives 9, and the program returns [10 * 0.99 = 9.9].  On the same
    two doubles the formula of the claim, read over the rationals,
    gives the bound [floor((slo - sum) / max) + 1 = 11] and the value
    [11 * 0.99 = 10.89]. *)
Lemma compute_capability_rounding_counterexample :
  Double.sub (Double.of_ratio 11 10) (Double.sum [Double.of_ratio 1 10])
  = Double.one /\
  Double.floordiv Double.one (Double.of_ratio 1 10) = Ok (Double.of_int 9) /\
  Double.compute_capability Double.sample_pow Double.tenth_second_model
                            cfg_1_1_1 1
  = Ok (Double.of_ratio 99 10) /\
  pipeline_bound (Double.to_Q (Double.of_ratio 11 10))
                 [Double.to_Q (Double.of_ratio 1 10)] 11 /\
  (Double.to_Q (Double.of_ratio 99 10) < 11 * (99 # 100) ^ 1)%Q.
Proof.
  split; [vm_compute; reflexivity|].
  split; [vm_compute; reflexivity|].
  split; [vm_compute; reflexivity|].
  split.
  - exists (Double.to_Q (Double.of_ratio 1 10)). split; [|split].
    + split; [left; reflexivity|].
      intros x [<-|[]]. apply Qle_refl.
    + vm_compute. discriminate.
    + vm_compute. reflexivity.
  - vm_compute. reflexivity.
Qed.

(** Where no operation rounds, the double result is the exact one: the
    half-second model under an SLO of 1 has the bound 2 and the
    capability [2 * 0.99]. *)
Example double_half_second_capability :
  Double.compute_capability Double.sample_pow Double.half_second_model
                            cfg_1_1_1 1
  = Ok (Double.of_ratio 198 100).
Proof. vm_compute. reflexivity. Qed.

(** Claim C5 fails on a profiled latency of zero: the configuration is
    in the profile, its only stage list at batch size 1 has maximum 0,
    and [compute_capability] raises [ZeroDivisionError] instead of
    returning 0. *)
Lemma compute_capability_zero_latency_counterexample :
  para_dict (profiling_result zero_latency_model) !! cfg_1_1_1
  = Some zero_latency_entry /\
  In (1, [0%Q]) (latency zero_latency_entry) /\
  Py.max [0%Q] = Ok 0%Q /\
  compute_capability zero_latency_model cfg_1_1_1 1 = Raise ZeroDivisionError.
Proof.
  split; [reflexivity|]. split; [left; reflexivity|].
  split; reflexivity.
Qed.

(** Claim C5 (amended) on the model whose profiled latency is 0. *)
Lemma compute_capability_zero_latency_raises_witness :
  exists e,
    compute_capability zero_latency_model cfg_1_1_1 1 = Raise e /\
    (e = ZeroDivisionError \/ e = ValueError).
Proof.
  apply (compute_capability_zero_latency_raises
           zero_latency_model cfg_1_1_1 1 zero_latency_entry 1 [0%Q]).
  - reflexivity.
  - left. reflexivity.
  - lia.
  - exists 0%Q. split; [|reflexivity].
    split; [left; reflexivity|].
    intros x [<-|[]]. discriminate.
Defined.


Example monotone_slo_values :
  compute_capability (with_slo half_second_model 1) cfg_1_1_1 1 = Ok ((2 # 1) * (99 # 100) ^ 1)%Q /\
  compute_capability (with_slo half_second_model 2) cfg_1_1_1 1 = Ok ((4 # 1) * (99 # 100) ^ 1)%Q.
Proof. split; reflexivity. Qed.

(** ** Enumeration of the group skeletons *)

Section Enumerate.

Import ModelParallelismSearch.

Lemma in_range_from lo hi x :
  In x (Py.range_from lo hi) <-> lo <= x < hi.
Proof.
  unfold Py.range_from. rewrite in_map_iff. split.
  - intros (i & <- & Hi). apply in_seq in Hi. lia.
  - intros H. exists (Z.to_nat (x - lo)). split; [lia|].
    apply in_seq. lia.
Qed.

Lemma NoDup_range_from lo hi : List.NoDup (Py.range_from lo hi).
Proof.
  unfold Py.range_from.
  apply Finite.Injective_map_NoDup; [|apply seq_NoDup].
  intros i j H. lia.
Qed.

Lemma in_get_factors n d :
  In d (get_factors n) <-> 1 <= d <= n /\ n mod d = 0.
Proof.
  unfold get_factors. rewrite List.filter_In, in_range_from, Z.eqb_eq. lia.
Qed.

Lemma in_get_factors_divide n d :
  0 < n -> In d (get_factors n) <-> 0 < d /\ (d | n).
Proof.
  intros Hn. rewrite in_get_factors. split.
  - intros [Hd Hm]. split; [lia|].
    apply Z.mod_divide; [lia | exact Hm].
  - intros [Hd Hdiv]. split.
    + apply Z.divide_pos_le in Hdiv; lia.
    + apply Z.mod_divide; [lia | exact Hdiv].
Qed.

Lemma NoDup_get_factors n : List.NoDup (get_factors n).
Proof. apply List.NoDup_filter, NoDup_range_from. Qed.

(** The model lists [[[] for _ in range(n)]] are [n] empty lists. *)
Lemma map_range_repeat {A} (x : A) n :
  map (fun _ => x) (Py.range n) = repeat x (Z.to_nat n).
Proof.
  unfold Py.range. generalize 0%nat.
  induction (Z.to_nat n) as [|k IH]; intros s; simpl; [reflexivity|].
  now rewrite IH.
Qed.

Variable self : ModelParallelismSearch.t.
Variable cluster_env : ClusterEnv.

Let nd := num_devices cluster_env.
Let pn := num_devices_per_node cluster_env.

Let keeps_size := keeps_size pn.
Let keeps_factor := keeps_factor self.
Let skeletons_of := skeletons_of self nd.

Lemma inner_loop gs pps : forall sols,
    gs <> 0 -> (forall pp, In pp pps -> pp <> 0) ->
    for_loop
      (fun pp sols =>
         op <- Py.int_floordiv gs pp ;
         num_groups <- Py.int_floordiv nd gs ;
         if (pp >? max_pp self) || (op >? max_op self) then Ok sols
         else Ok (sols ++ [skeleton op pp num_groups]))
      pps sols
    = Ok (sols ++ map (fun pp => skeleton (gs / pp) pp (nd / gs))
                      (List.filter (keeps_factor gs) pps)).
Proof.
  induction pps as [|pp pps IH]; intros sols Hgs Hpps; simpl.
  - now rewrite app_nil_r.
  - unfold Py.int_floordiv at 1 2.
    assert (Hpp : pp <> 0) by (apply Hpps; now left).
    destruct (Z.eqb_spec pp 0) as [?|_]; [contradiction|].
    destruct (Z.eqb_spec gs 0) as [?|_]; [contradiction|].
    cbn [bind].
    assert (E : keeps_factor gs pp
                = negb ((pp >? max_pp self) || (gs / pp >? max_op self)))
      by reflexivity.
    rewrite E.
    destruct ((pp >? max_pp self) || (gs / pp >? max_op self)); cbn [negb bind].
    + apply IH; [exact Hgs|]. intros; apply Hpps; now right.
    + rewrite IH; [|exact Hgs|intros; apply Hpps; now right].
      now rewrite <- app_assoc.
Qed.

Lemma crosses_node_keeps gs :
  pn <> 0 -> crosses_node gs pn = Ok (negb (keeps_size gs)).
Proof.
  intros Hpn.
  assert (E : keeps_size gs = negb ((gs >? pn) && negb (gs mod pn =? 0)))
    by reflexivity.
  rewrite E. unfold crosses_node, Py.int_mod.
  destruct (gs >? pn); cbn [andb negb]; [|reflexivity].
  destruct (Z.eqb_spec pn 0) as [?|_]; [contradiction|].
  cbn [bind]. now rewrite negb_involutive.
Qed.

Lemma outer_loop gss : forall sols,
    pn <> 0 -> (forall gs, In gs gss -> 0 < gs) ->
    for_loop
      (fun group_size sols =>
         skip <- crosses_node group_size pn ;
         if skip then Ok sols
         else
           for_loop
             (fun pp sols =>
                op <- Py.int_floordiv group_size pp ;
                num_groups <- Py.int_floordiv nd group_size ;
                if (pp >? max_pp self) || (op >? max_op self) then Ok sols
                else Ok (sols ++ [skeleton op pp num_groups]))
             (get_factors group_size) sols)
      gss sols
    = Ok (sols ++ flat_map skeletons_of (List.filter keeps_size gss)).
Proof.
  induction gss as [|gs gss IH]; intros sols Hpn Hgss; simpl.
  - now rewrite app_nil_r.
  - rewrite (crosses_node_keeps gs Hpn). cbn [bind].
    assert (Hgs : 0 < gs) by (apply Hgss; now left).
    destruct (keeps_size gs); cbn [negb].
    + rewrite inner_loop; [|lia|].
      * cbn [bind]. rewrite IH; [|exact Hpn|intros; apply Hgss; now right].
        simpl. now rewrite <- app_assoc.
      * intros pp Hpp. apply in_get_factors in Hpp. lia.
    + apply IH; [exact Hpn|]. intros; apply Hgss; now right.
Qed.

Lemma enumerate_group_configs_eq :
  pn <> 0 ->
  enumerate_group_configs self cluster_env
  = Ok (flat_map skeletons_of (List.filter keeps_size (get_factors nd))).
Proof.
  intros Hpn. unfold enumerate_group_configs.
  fold nd. fold pn.
  rewrite outer_loop; [reflexivity|exact Hpn|].
  intros gs Hgs. apply in_get_factors in Hgs. lia.
Qed.

Lemma keeps_size_iff gs :
  keeps_size gs = true <-> ~ (gs > pn /\ gs mod pn <> 0).
Proof.
  assert (E : keeps_size gs = negb ((gs >? pn) && negb (gs mod pn =? 0)))
    by reflexivity.
  rewrite E.
  rewrite negb_true_iff, andb_false_iff, negb_false_iff, Z.eqb_eq.
  destruct (Z.gtb_spec gs pn) as [Hgt|Hngt]; split; intros Hk;
    try lia; try (destruct Hk; [discriminate|lia]);
    try (right; lia); try (now left).
Qed.

Lemma keeps_factor_iff gs pp :
  keeps_factor gs pp = true <-> pp <= max_pp self /\ gs / pp <= max_op self.
Proof.
  assert (E : keeps_factor gs pp
              = negb ((pp >? max_pp self) || (gs / pp >? max_op self)))
    by reflexivity.
  rewrite E.
  rewrite negb_true_iff, orb_false_iff.
  destruct (Z.gtb_spec pp (max_pp self)) as [Hp|Hp],
           (Z.gtb_spec (gs / pp) (max_op self)) as [Ho|Ho];
    split; intros Hk; try lia; try (destruct Hk; discriminate); auto.
Qed.

Lemma in_skeletons sk :
  0 < nd ->
  In sk (flat_map skeletons_of (List.filter keeps_size (get_factors nd)))
  <-> is_skeleton self cluster_env sk.
Proof.
  intros Hnd. rewrite in_flat_map. unfold is_skeleton. fold nd. fold pn.
  split.
  - intros (gs & Hgs & Hsk).
    apply List.filter_In in Hgs as [Hgs Hkeep].
    apply (in_get_factors_divide nd gs Hnd) in Hgs as [Hpos Hdiv].
    unfold skeletons_of in Hsk. apply in_map_iff in Hsk as (pp & <- & Hpp).
    apply List.filter_In in Hpp as [Hpp Hkf].
    apply (in_get_factors_divide gs pp Hpos) in Hpp as [Hpp Hdpp].
    apply keeps_factor_iff in Hkf as [Hmp Hmo].
    destruct Hdpp as [q Hq].
    assert (Hdiv' : gs / pp = q) by (subst gs; apply Z.div_mul; lia).
    exists gs, (gs / pp), pp.
    repeat split; try assumption; try lia.
    + now apply keeps_size_iff.
    + unfold skeleton. now rewrite map_range_repeat.
  - intros (gs & op & pp & Hgs & Hdiv & Hkeep & Hpp & Hop & Heq & Hmp & Hmo & ->).
    assert (Hq : gs / pp = op) by (subst gs; apply Z.div_mul; lia).
    exists gs. split.
    + apply List.filter_In. split.
      * now apply in_get_factors_divide.
      * now apply keeps_size_iff.
    + unfold skeletons_of. apply in_map_iff. exists pp. split.
      * unfold skeleton. now rewrite map_range_repeat, Hq.
      * apply List.filter_In. split.
        -- apply in_get_factors_divide; [exact Hgs|].
           split; [exact Hpp|]. exists op. exact Heq.
        -- apply keeps_factor_iff. lia.
Qed.

Lemma skeleton_inj op pp n op' pp' n' :
  0 < n -> skeleton op pp n = skeleton op' pp' n' -> op = op' /\ pp = pp'.
Proof.
  intros Hn H. unfold skeleton in H. injection H as Hc _.
  destruct (Z.to_nat n) as [|k] eqn:Ek; [lia|].
  destruct (Z.to_nat n') as [|k']; simpl in Hc; [discriminate|].
  now injection Hc.
Qed.

Lemma NoDup_skeletons :
  0 < nd ->
  List.NoDup (flat_map skeletons_of (List.filter keeps_size (get_factors nd))).
Proof.
  intros Hnd.
  assert (Hfac : forall gs, In gs (List.filter keeps_size (get_factors nd)) ->
                            0 < gs /\ 0 < nd / gs).
  { intros gs Hgs. apply List.filter_In in Hgs as [Hgs _].
    apply in_get_factors in Hgs as [Hr Hm]. split; [lia|].
    apply Z.div_str_pos. lia. }
  assert (Hsk : forall gs sk, 0 < gs -> 0 < nd / gs -> In sk (skeletons_of gs) ->
               exists pp, 0 < pp /\ (pp | gs) /\ sk = skeleton (gs / pp) pp (nd / gs)).
  { intros gs sk Hgs Hq Hin. unfold skeletons_of in Hin.
    apply in_map_iff in Hin as (pp & <- & Hpp).
    apply List.filter_In in Hpp as [Hpp _].
    apply in_get_factors_divide in Hpp as [? ?]; [|exact Hgs].
    exists pp. auto. }
  pose proof (List.NoDup_filter keeps_size (NoDup_get_factors nd)) as Hnd'.
  revert Hfac Hnd'.
  induction (List.filter keeps_size (get_factors nd)) as [|gs gss IH];
    intros Hfac Hnd'; simpl; [constructor|].
  inversion Hnd' as [|? ? Hnotin Hrest]; subst.
  destruct (Hfac gs (or_introl eq_refl)) as [Hgs Hq].
  apply List.NoDup_app.
  - unfold skeletons_of.
    apply Finite.Injective_map_NoDup_in.
    + intros pp pp' Hpp Hpp' Heq.
      apply skeleton_inj in Heq; [tauto|exact Hq].
    + apply List.NoDup_filter, NoDup_get_factors.
  - apply IH; [|exact Hrest]. intros; apply Hfac; now right.
  - intros sk Hin Hin'.
    apply in_flat_map in Hin' as (gs' & Hgs' & Hin').
    destruct (Hfac gs' (or_intror Hgs')) as [Hgs'pos Hq'].
    destruct (Hsk gs sk Hgs Hq Hin) as (pp & Hpp & [q Hdq] & ->).
    destruct (Hsk gs' _ Hgs'pos Hq' Hin') as (pp' & Hpp' & [q' Hdq'] & Heq).
    apply skeleton_inj in Heq as [Ho Hp]; [|exact Hq].
    subst pp'.
    assert (gs / pp = q) by (subst gs; apply Z.div_mul; lia).
    assert (gs' / pp = q') by (subst gs'; apply Z.div_mul; lia).
    apply Hnotin. replace gs with gs'; [exact Hgs'|]. subst gs gs'. congruence.
Qed.

End Enumerate.

(** Claim C4.  On a cluster with [num_devices > 0] and a non-zero
    [num_devices_per_node], [enumerate_group_configs] returns a list
    without repetition whose members are exactly the skeletons of the
    spec: for a divisor [gs] of [num_devices] that is not both larger
    than a node and not a multiple of it, and a factorization
    [gs = op * pp] with [pp <= max_pp] and [op <= max_op],
    [num_devices / gs] groups [(1, op, pp)] with no models.  With 16
    devices, 8 per node and the default limits, a group size of 16 is
    emitted and 12 is not. *)
Theorem enumerate_group_configs_skeletons :
  (forall (self : ModelParallelismSearch.t) (cluster_env : ClusterEnv),
      0 < num_devices cluster_env ->
      num_devices_per_node cluster_env <> 0 ->
      exists sols,
        ModelParallelismSearch.enumerate_group_configs self cluster_env = Ok sols /\
        List.NoDup sols /\
        forall sk, In sk sols <-> is_skeleton self cluster_env sk) /\
  (exists sols,
      ModelParallelismSearch.enumerate_group_configs
        ModelParallelismSearch.default two_node_cluster = Ok sols /\
      In 16 (emitted_group_sizes sols) /\
      ~ In 12 (emitted_group_sizes sols)).
Proof.
  split.
  - intros self cluster_env Hnd Hpn.
    eexists. split; [now apply enumerate_group_configs_eq|].
    split; [now apply NoDup_skeletons|].
    intros sk. now apply in_skeletons.
  - eexists. split; [vm_compute; reflexivity|].
    split.
    + vm_compute. tauto.
    + vm_compute. intuition discriminate.
Qed.

(** Claim C4 on sixteen devices, eight per node, default limits. *)
Lemma enumerate_group_configs_skeletons_witness :
  0 < num_devices two_node_cluster /\
  num_devices_per_node two_node_cluster <> 0 /\
  exists sols,
    ModelParallelismSearch.enumerate_group_configs
      ModelParallelismSearch.default two_node_cluster = Ok sols /\
    List.NoDup sols /\
    forall sk, In sk sols <->
               is_skeleton ModelParallelismSearch.default two_node_cluster sk.
Proof.
  split; [reflexivity|]. split; [discriminate|].
  apply (proj1 enumerate_group_configs_skeletons
               ModelParallelismSearch.default two_node_cluster);
    [reflexivity | discriminate].
Defined.

(** The skeletons of the two-node cluster, by group size 1, 2, 4, 8
    and 16. *)
Example enumerate_two_node_cluster :
  option_map (map (fun sk => (hd_error (group_configs sk),
                              List.length (group_configs sk))))
             (match ModelParallelismSearch.enumerate_group_configs
                      ModelParallelismSearch.default two_node_cluster with
              | Ok sols => Some sols | Raise _ => None end)
  = Some [ (Some (mkParallelConfig 1 1 1), 16%nat);
           (Some (mkParallelConfig 1 2 1), 8%nat);
           (Some (mkParallelConfig 1 1 2), 8%nat);
           (Some (mkParallelConfig 1 4 1), 4%nat);
           (Some (mkParallelConfig 1 2 2), 4%nat);
           (Some (mkParallelConfig 1 1 4), 4%nat);
           (Some (mkParallelConfig 1 4 2), 2%nat);
           (Some (mkParallelConfig 1 2 4), 2%nat);
           (Some (mkParallelConfig 1 1 8), 2%nat);
           (Some (mkParallelConfig 1 4 4), 1%nat);
           (Some (mkParallelConfig 1 2 8), 1%nat) ].
Proof. vm_compute. reflexivity. Qed.

(** ** Loops that can raise *)

Lemma bind_ok {A B : Type} (r : result A) (k : A -> result B) b :
  Py.bind r k = Ok b -> exists a, r = Ok a /\ k a = Ok b.
Proof. destruct r as [a|e]; simpl; [eauto|discriminate]. Qed.

Lemma bind_raises {A B : Type} (r : result A) (k : A -> result B) :
  (forall a, exists e, k a = Raise e) -> exists e, Py.bind r k = Raise e.
Proof. intros H. destruct r as [a|e]; simpl; [apply H|eauto]. Qed.

Section Loops.

Context {A B S : Type}.

(** A loop raises when one of its iterations would. *)
Lemma for_each_raises (f : A -> result B) l x :
  In x l -> (exists e, f x = Raise e) -> exists e, Py.for_each f l = Raise e.
Proof.
  intros Hin Hx. induction l as [|y l IH]; [destruct Hin|].
  simpl. destruct (f y) as [b|e] eqn:Hy; simpl; [|eauto].
  destruct Hin as [->|Hin].
  - destruct Hx as [e He]. congruence.
  - destruct (IH Hin) as [e He]. rewrite He. simpl. eauto.
Qed.

(** A loop whose every iteration returns is a [map]. *)
Lemma for_each_map (f : A -> result B) (h : A -> B) l :
  (forall x, In x l -> f x = Ok (h x)) -> Py.for_each f l = Ok (map h l).
Proof.
  induction l as [|y l IH]; intros H; simpl; [reflexivity|].
  rewrite (H y (or_introl eq_refl)). simpl.
  rewrite IH; [reflexivity|]. intros x Hx. apply H. now right.
Qed.

Lemma for_each_ok (f : A -> result B) l ys :
  Py.for_each f l = Ok ys -> Forall2 (fun x y => f x = Ok y) l ys.
Proof.
  revert ys. induction l as [|x l IH]; intros ys; simpl.
  - intros [= <-]. constructor.
  - intros H. apply bind_ok in H as (y & Hy & H).
    destruct (Py.for_each f l) as [ys'|e]; simpl in H; [|discriminate].
    injection H as <-. constructor; [exact Hy|]. now apply IH.
Qed.

(** An invariant of a state-threading loop. *)
Lemma for_loop_invariant (P : S -> Prop) (body : A -> S -> result S) l :
  (forall x s s', In x l -> P s -> body x s = Ok s' -> P s') ->
  forall s s', P s -> for_loop body l s = Ok s' -> P s'.
Proof.
  induction l as [|x l IH]; intros Hstep s s' Hs; simpl.
  - now intros [= <-].
  - destruct (body x s) as [s1|e] eqn:Hb; simpl; [|discriminate].
    apply IH.
    + intros y t t' Hy. apply Hstep. now right.
    + eapply Hstep; [now left|exact Hs|exact Hb].
Qed.

End Loops.

Lemma index_ok {A} (l : list A) i x :
  Py.index l i = Ok x <-> nth_error l i = Some x.
Proof.
  unfold Py.index. destruct (nth_error l i); split; congruence.
Qed.

Lemma in_range n i : In i (Py.range n) <-> (Z.of_nat i < n).
Proof. unfold Py.range. rewrite in_seq. lia. Qed.

(** ** The ILP planner *)

Section ILP.

Import Pulp ModelParallelismILP.

Variable solver : LpProblem -> LpSolution.

(** Claim C3 fails on the code: for a model whose profile has no entry,
    [solve_placement] raises [KeyError] (line 87 indexes the profile
    with [(1, 1, 1)]) whatever the planner, the cluster and the solver
    are; no placement is returned. *)
Theorem solve_placement_unprofiled_model_raises :
  forall self cluster_env,
    solve_placement self solver [unprofiled_model] cluster_env = Raise KeyError.
Proof. reflexivity. Qed.

(** The capability and the stage memory of the same model are computed
    without raising: the two helpers look the profile up with [get]. *)
Example unprofiled_model_helpers :
  compute_capability unprofiled_model cfg_1_1_1 1 = Ok 0%Q /\
  compute_max_stage_mem (init 0) unprofiled_model cfg_1_1_1 1 = Ok (1 * 2)%Q.
Proof. split; reflexivity. Qed.

End ILP.

(** ** Reading the solution back *)

Section Decode.

Import Pulp.

(** *** Sums *)

Lemma qsum_ext {A} (f h : A -> Q) l :
  (forall x, In x l -> (f x == h x)%Q) -> (qsum f l == qsum h l)%Q.
Proof.
  induction l as [|x l IH]; intros H; simpl; [reflexivity|].
  rewrite (H x (or_introl eq_refl)), IH; [reflexivity|].
  intros y Hy. apply H. now right.
Qed.

Lemma qsum_app {A} (f : A -> Q) l1 l2 :
  (qsum f (l1 ++ l2) == qsum f l1 + qsum f l2)%Q.
Proof.
  induction l1 as [|x l1 IH]; simpl; [ring|]. rewrite IH. ring.
Qed.

Lemma qsum_flat_map {A B} (f : B -> Q) (F : A -> list B) l :
  (qsum f (flat_map F l) == qsum (fun x => qsum f (F x)) l)%Q.
Proof.
  induction l as [|x l IH]; simpl; [reflexivity|].
  now rewrite qsum_app, IH.
Qed.

Lemma qsum_map {A B} (f : B -> Q) (h : A -> B) l :
  qsum f (map h l) = qsum (fun x => f (h x)) l.
Proof. induction l as [|x l IH]; simpl; [reflexivity|]. now rewrite IH. Qed.

Lemma qsum_inject_Z {A} (f : A -> Z) l :
  (qsum (fun x => inject_Z (f x)) l == inject_Z (zsum f l))%Q.
Proof.
  induction l as [|x l IH]; simpl; [reflexivity|].
  now rewrite IH, inject_Z_plus.
Qed.

(** *** Evaluation of expressions *)

Variable sol : LpSolution.

Lemma eval_terms ts c :
  (fold_right (fun t acc => snd t * value_or_zero sol (fst t) + acc) c ts
   == qsum (fun t => snd t * value_or_zero sol (fst t)) ts + c)%Q.
Proof.
  induction ts as [|t ts IH]; simpl; [ring|]. rewrite IH. ring.
Qed.

Lemma eval_plus e1 e2 :
  (eval sol (plus e1 e2) == eval sol e1 + eval sol e2)%Q.
Proof.
  unfold eval, plus. cbn [terms constant].
  rewrite !eval_terms, qsum_app. ring.
Qed.

Lemma eval_const c : (eval sol (const c) == c)%Q.
Proof. unfold eval, const. simpl. reflexivity. Qed.

Lemma eval_times v c : (eval sol (times v c) == c * value_or_zero sol v)%Q.
Proof. unfold eval, times. simpl. ring. Qed.

Lemma eval_var v : (eval sol (var v) == value_or_zero sol v)%Q.
Proof. unfold eval, var. simpl. ring. Qed.

Lemma eval_lpSum es : (eval sol (lpSum es) == qsum (eval sol) es)%Q.
Proof.
  induction es as [|e es IH]; simpl.
  - apply eval_const.
  - now rewrite eval_plus, IH.
Qed.

Lemma terms_lpSum es : terms (lpSum es) = flat_map terms es.
Proof.
  induction es as [|e es IH]; simpl; [reflexivity|]. now rewrite IH.
Qed.

(** *** One configuration per slot *)

Lemma qsum_binary_nonneg (val : nat -> Q) ks :
  (forall k, In k ks -> (val k == 0 \/ val k == 1)%Q) -> (0 <= qsum val ks)%Q.
Proof.
  induction ks as [|k ks IH]; intros H; simpl; [apply Qle_refl|].
  assert (0 <= qsum val ks)%Q by (apply IH; intros; apply H; now right).
  destruct (H k (or_introl eq_refl)) as [Hk|Hk]; rewrite Hk; lra.
Qed.

Lemma none_selected (val coef : nat -> Q) (tr : nat -> bool) ks :
  (forall k, In k ks ->
             (val k == 0 /\ tr k = false)%Q \/ (val k == 1 /\ tr k = true)%Q) ->
  (qsum val ks == 0)%Q ->
  List.filter tr ks = [] /\ (qsum (fun k => coef k * val k) ks == 0)%Q.
Proof.
  induction ks as [|k ks IH]; intros H Hs; simpl; [split; reflexivity|].
  simpl in Hs.
  assert (Hb : forall k', In k' ks -> (val k' == 0 \/ val k' == 1)%Q).
  { intros k' Hk'. destruct (H k' (or_intror Hk')) as [[? _]|[? _]]; auto. }
  assert (Hn := qsum_binary_nonneg val ks Hb).
  destruct (H k (or_introl eq_refl)) as [[Hv Ht]|[Hv Ht]].
  - rewrite Hv in Hs. rewrite Ht.
    destruct IH as [IH1 IH2];
      [intros; apply H; now right | lra |].
    split; [exact IH1|]. rewrite Hv, IH2. ring.
  - rewrite Hv in Hs. lra.
Qed.

Lemma one_selected (val coef : nat -> Q) (tr : nat -> bool) ks :
  (forall k, In k ks ->
             (val k == 0 /\ tr k = false)%Q \/ (val k == 1 /\ tr k = true)%Q) ->
  (qsum val ks == 1)%Q ->
  exists k0, In k0 ks /\ List.filter tr ks = [k0] /\
             (qsum (fun k => coef k * val k) ks == coef k0)%Q.
Proof.
  induction ks as [|k ks IH]; intros H Hs; simpl in *; [lra|].
  destruct (H k (or_introl eq_refl)) as [[Hv Ht]|[Hv Ht]].
  - rewrite Hv in Hs. rewrite Ht.
    destruct IH as (k0 & Hin & Hf & Hq);
      [intros; apply H; now right | lra |].
    exists k0. split; [now right|]. split; [exact Hf|].
    rewrite Hv, Hq. ring.
  - rewrite Hv in Hs. rewrite Ht.
    destruct (none_selected val coef tr ks) as [Hf Hq];
      [intros; apply H; now right | lra |].
    exists k. split; [now left|]. rewrite Hf. split; [reflexivity|].
    rewrite Hv, Hq. ring.
Qed.

Lemma in_bounds_binary v :
  is_binary v = true -> in_bounds sol v = true ->
  (value_or_zero sol v == 0 /\ ModelParallelismILP.value_truthy sol v = false)%Q
  \/ (value_or_zero sol v == 1 /\ ModelParallelismILP.value_truthy sol v = true)%Q.
Proof.
  unfold in_bounds, value_or_zero, ModelParallelismILP.value_truthy, Py.truthy.
  intros Hb. rewrite Hb.
  destruct (value sol v) as [x|]; [|discriminate].
  intros H. apply orb_true_iff in H as [H|H].
  - left. rewrite H. split; [now apply Qeq_bool_eq|reflexivity].
  - right. apply Qeq_bool_eq in H. split; [exact H|].
    destruct (Qeq_bool x 0) eqn:E; [|reflexivity].
    apply Qeq_bool_eq in E. rewrite E in H. discriminate.
Qed.

(** A slot whose [s] variables are binary and sum to one selects
    exactly one configuration, and the weighted sum of the slot is the
    weight of that configuration. *)
Lemma slot_selects_one (coef : nat -> Q) K j :
  (forall k, In k (Py.range K) -> in_bounds sol (s_var j k) = true) ->
  (qsum (fun k => value_or_zero sol (s_var j k)) (Py.range K) == 1)%Q ->
  In (chosen sol K j) (Py.range K) /\
  List.filter (fun k => ModelParallelismILP.value_truthy sol (s_var j k))
              (Py.range K) = [chosen sol K j] /\
  (qsum (fun k => coef k * value_or_zero sol (s_var j k)) (Py.range K)
   == coef (chosen sol K j))%Q.
Proof.
  intros Hb Hs.
  destruct (one_selected (fun k => value_or_zero sol (s_var j k)) coef
              (fun k => ModelParallelismILP.value_truthy sol (s_var j k))
              (Py.range K)) as (k0 & Hin & Hf & Hq).
  - intros k Hk. apply in_bounds_binary; [reflexivity|now apply Hb].
  - exact Hs.
  - unfold chosen. rewrite Hf. simpl. auto.
Qed.

(** *** The loops of the decoding *)

Lemma select_configs_loop K js : forall acc s_res,
  for_loop
    (fun j s_res =>
       total <- ModelParallelismILP.sum_values sol
                  (map (fun k => s_var j k) (Py.range K)) ;
       _ <- Py.assert (Qeq_bool total 1) ;
       Ok (s_res ++ List.filter
                      (fun k => ModelParallelismILP.value_truthy sol (s_var j k))
                      (Py.range K)))
    js acc = Ok s_res ->
  s_res = acc ++ flat_map
                   (fun j => List.filter
                               (fun k => ModelParallelismILP.value_truthy
                                           sol (s_var j k))
                               (Py.range K))
                   js.
Proof.
  induction js as [|j js IH]; intros acc s_res; simpl.
  - intros [= <-]. now rewrite app_nil_r.
  - intros H. apply bind_ok in H as (acc1 & H1 & H).
    apply bind_ok in H1 as (total & _ & H1).
    apply bind_ok in H1 as (u & _ & [= <-]).
    apply IH in H as ->. now rewrite app_assoc.
Qed.

Lemma select_configs_ok G K s_res :
  ModelParallelismILP.select_configs sol G K = Ok s_res ->
  s_res = flat_map
            (fun j => List.filter
                        (fun k => ModelParallelismILP.value_truthy sol (s_var j k))
                        (Py.range K))
            (Py.range G).
Proof.
  unfold ModelParallelismILP.select_configs. intros H.
  now apply select_configs_loop in H.
Qed.

(** The selected indices when every slot selects exactly one. *)
Lemma select_configs_chosen G K s_res :
  ModelParallelismILP.select_configs sol G K = Ok s_res ->
  (forall j, In j (Py.range G) ->
             List.filter
               (fun k => ModelParallelismILP.value_truthy sol (s_var j k))
               (Py.range K) = [chosen sol K j]) ->
  s_res = map (chosen sol K) (Py.range G).
Proof.
  intros H Hone. apply select_configs_ok in H as ->.
  induction (Py.range G) as [|j js IH]; simpl; [reflexivity|].
  rewrite Hone by now left. simpl. f_equal.
  apply IH. intros; apply Hone; now right.
Qed.

Lemma nth_error_map_range {A} (h : nat -> A) G j :
  In j (Py.range G) -> nth_error (map h (Py.range G)) j = Some (h j).
Proof.
  intros Hj. apply in_range in Hj. unfold Py.range.
  rewrite nth_error_map, nth_error_seq.
  destruct (Nat.ltb_spec j (Z.to_nat G)); [reflexivity|lia].
Qed.

(** The devices of the collected groups: one configuration size per
    slot, the idle ones adding nothing. *)
Lemma collect_groups_loop (self : ModelParallelismILP.t) N s_res p_res js :
  ModelParallelismILP.group_sizes self
  = map group_size (ModelParallelismILP.group_configs self) ->
  forall acc acc',
    for_loop
      (fun j acc =>
         config_id <- Py.index s_res j ;
         size <- Py.index (ModelParallelismILP.group_sizes self) config_id ;
         if negb (size =? 0) then
           tmp <- for_loop
                    (fun i tmp =>
                       row <- Py.index p_res i ;
                       pij <- Py.index row j ;
                       if negb (pij =? 0) then Ok (tmp ++ [Z.of_nat i])
                       else Ok tmp)
                    (Py.range N) [] ;
           cfg <- Py.index (ModelParallelismILP.group_configs self) config_id ;
           Ok (fst acc ++ [cfg], snd acc ++ [tmp])
         else Ok acc)
      js acc = Ok acc' ->
    zsum group_size (fst acc')
    = zsum group_size (fst acc)
      + zsum (slot_size (ModelParallelismILP.group_sizes self) s_res) js.
Proof.
  intros Hsizes.
  induction js as [|j js IH]; intros acc acc'; simpl.
  - intros [= <-]. lia.
  - intros H. apply bind_ok in H as (acc1 & H1 & H).
    apply IH in H. rewrite H. clear H IH.
    apply bind_ok in H1 as (config_id & Hid & H1).
    apply bind_ok in H1 as (size & Hsize & H1).
    apply index_ok in Hid, Hsize.
    assert (Hslot : slot_size (ModelParallelismILP.group_sizes self) s_res j
                    = size).
    { unfold slot_size. rewrite Hid. now apply nth_error_nth. }
    rewrite Hslot.
    destruct (Z.eqb_spec size 0) as [->|Hnz]; cbn [negb] in H1.
    + injection H1 as <-. lia.
    + apply bind_ok in H1 as (tmp & _ & H1).
      apply bind_ok in H1 as (cfg & Hcfg & [= <-]).
      apply index_ok in Hcfg. cbn [fst].
      rewrite Hsizes, nth_error_map, Hcfg in Hsize. injection Hsize as <-.
      unfold zsum. rewrite fold_right_app. simpl.
      clear. induction (fst acc) as [|c cs IHc]; simpl; lia.
Qed.

Lemma collect_groups_devices (self : ModelParallelismILP.t) N G s_res p_res groups :
  ModelParallelismILP.group_sizes self
  = map group_size (ModelParallelismILP.group_configs self) ->
  ModelParallelismILP.collect_groups self N G s_res p_res = Ok groups ->
  zsum group_size (fst groups)
  = zsum (slot_size (ModelParallelismILP.group_sizes self) s_res) (Py.range G).
Proof.
  intros Hsizes H. unfold ModelParallelismILP.collect_groups in H.
  apply (collect_groups_loop self N s_res p_res _ Hsizes) in H.
  simpl in H. exact H.
Qed.

(** Only configurations of non-zero size are collected. *)
Lemma collect_groups_configs verbose N G s_res p_res groups :
  ModelParallelismILP.collect_groups
    (ModelParallelismILP.init verbose) N G s_res p_res = Ok groups ->
  Forall (fun cfg => In cfg pipeline_configs) (fst groups).
Proof.
  unfold ModelParallelismILP.collect_groups.
  apply (for_loop_invariant
           (fun acc : list ParallelConfig * list (list Z) =>
              Forall (fun cfg => In cfg pipeline_configs) (fst acc)));
    [|constructor].
  intros j acc acc' _ Hacc H.
  apply bind_ok in H as (config_id & _ & H).
  apply bind_ok in H as (size & Hsize & H).
  destruct (Z.eqb_spec size 0) as [->|Hnz]; cbn [negb] in H.
  { now injection H as <-. }
  apply bind_ok in H as (tmp & _ & H).
  apply bind_ok in H as (cfg & Hcfg & [= <-]).
  cbn [fst]. apply Forall_app. split; [exact Hacc|].
  constructor; [|constructor].
  apply index_ok in Hsize, Hcfg.
  destruct config_id as [|[|[|[|[|n]]]]]; simpl in Hsize, Hcfg;
    try (injection Hcfg as <-); try (injection Hsize as <-);
    try contradiction; simpl; auto.
  destruct n; discriminate.
Qed.

End Decode.

(** *** The formulated problem *)

Section Formulate.

Import Pulp.

Lemma in_pairs G K j k :
  In (j, k) (ModelParallelismILP.pairs G K)
  <-> In j (Py.range G) /\ In k (Py.range K).
Proof.
  unfold ModelParallelismILP.pairs. rewrite in_flat_map. split.
  - intros (j' & Hj & Hjk). apply in_map_iff in Hjk as (k' & [= -> ->] & Hk).
    auto.
  - intros [Hj Hk]. exists j. split; [exact Hj|].
    apply in_map_iff. exists k. auto.
Qed.

Lemma formulate_constraints verbose model_datas cluster_env prob :
  ModelParallelismILP.formulate
    (ModelParallelismILP.init verbose) model_datas cluster_env = Ok prob ->
  In (group_size_constraint (num_devices cluster_env)) (constraints prob) /\
  forall j, In j (Py.range (num_devices cluster_env)) ->
            In (one_config_constraint j) (constraints prob).
Proof.
  unfold ModelParallelismILP.formulate. intros H.
  apply bind_ok in H as ([[c f] d] & _ & H).
  unfold ModelParallelismILP.build_problem in H.
  apply bind_ok in H as (memory & _ & H).
  apply bind_ok in H as (cap & _ & H).
  apply bind_ok in H as (min_tol & _ & H).
  apply bind_ok in H as (tols & _ & H).
  apply bind_ok in H as (sizes & Hsizes & H).
  injection H as <-. cbn [constraints].
  change (Z.of_nat (List.length
            (ModelParallelismILP.group_configs (ModelParallelismILP.init verbose))))
    with 5 in *.
  change (ModelParallelismILP.group_sizes (ModelParallelismILP.init verbose))
    with hard_coded_sizes in *.
  rewrite (for_each_map _ size_term) in Hsizes.
  - injection Hsizes as <-. split.
    + rewrite !in_app_iff. right. right. right. left. reflexivity.
    + intros j Hj. rewrite !in_app_iff. right. right. right. right.
      apply in_app_iff. left.
      apply in_map_iff. exists j. split; [reflexivity|exact Hj].
  - intros [j k] Hjk. apply in_pairs in Hjk as [_ Hk].
    apply in_range in Hk. cbn [fst snd]. unfold size_term. cbn [fst snd].
    destruct k as [|[|[|[|[|k]]]]]; try reflexivity. lia.
Qed.

End Formulate.


(** *** The placement that is returned *)

Section Placement.

Import Pulp.

Variable solver : LpProblem -> LpSolution.

Lemma solve_placement_ok (self : ModelParallelismILP.t)
      model_datas cluster_env placement objective :
  ModelParallelismILP.solve_placement self solver model_datas cluster_env
  = Ok (placement, objective) ->
  exists prob s_res groups,
    ModelParallelismILP.formulate self model_datas cluster_env = Ok prob /\
    ModelParallelismILP.select_configs
      (solver prob) (num_devices cluster_env)
      (Z.of_nat (List.length (ModelParallelismILP.group_configs self)))
    = Ok s_res /\
    ModelParallelismILP.collect_groups
      self (Z.of_nat (List.length model_datas)) (num_devices cluster_env) s_res
      (ModelParallelismILP.placement_matrix
         (solver prob) (Z.of_nat (List.length model_datas))
         (num_devices cluster_env))
    = Ok groups /\
    group_configs placement = fst groups.
Proof.
  unfold ModelParallelismILP.solve_placement. intros H.
  apply bind_ok in H as (prob & Hprob & H).
  unfold ModelParallelismILP.decode in H.
  destruct (status (solver prob) =? LpStatusInfeasible); [discriminate|].
  apply bind_ok in H as (s_res & Hs & H).
  apply bind_ok in H as (groups & Hg & [= <- _]).
  exists prob, s_res, groups. auto.
Qed.

(** Claim C10.  Every group of a placement that the ILP planner returns
    has one of the hard-coded configurations [(1,1,1)], [(1,1,2)],
    [(1,1,4)], [(1,1,8)]: [dp] and [op] are 1, [pp] is 1, 2, 4 or 8, and
    the group has at most 8 devices. *)
Theorem ilp_group_configs_hard_coded
        (verbose : Z) (model_datas : list ModelData) (cluster_env : ClusterEnv)
        (placement : ModelPlacement) (objective : Q) :
  ModelParallelismILP.solve_placement
    (ModelParallelismILP.init verbose) solver model_datas cluster_env
  = Ok (placement, objective) ->
  forall cfg, In cfg (group_configs placement) ->
    In cfg pipeline_configs /\
    dp cfg = 1 /\ op cfg = 1 /\ In (pp cfg) [1; 2; 4; 8] /\
    group_size cfg <= 8.
Proof.
  intros H cfg Hcfg.
  apply solve_placement_ok in H as (prob & s_res & groups & _ & _ & Hg & Hpl).
  apply collect_groups_configs in Hg.
  rewrite Hpl in Hcfg.
  rewrite List.Forall_forall in Hg. specialize (Hg cfg Hcfg).
  split; [exact Hg|].
  simpl in Hg.
  destruct Hg as [<-|[<-|[<-|[<-|[]]]]];
    (repeat split; try (simpl; tauto); try discriminate).
Qed.

(** Claim C2.  When the solver returns a feasible point of the
    formulated problem, the group sizes of the placement that
    [solve_placement] returns add up to [num_devices]: exactly one
    configuration is selected per slot, constraint (d) makes the
    selected sizes add up to [num_devices], and the slots left idle
    (size 0) are dropped without changing the sum. *)
Theorem ilp_placement_uses_all_devices
        (verbose : Z) (model_datas : list ModelData) (cluster_env : ClusterEnv)
        (prob : LpProblem) (placement : ModelPlacement) (objective : Q) :
  ModelParallelismILP.formulate
    (ModelParallelismILP.init verbose) model_datas cluster_env = Ok prob ->
  feasible prob (solver prob) = true ->
  ModelParallelismILP.solve_placement
    (ModelParallelismILP.init verbose) solver model_datas cluster_env
  = Ok (placement, objective) ->
  devices_used placement = num_devices cluster_env.
Proof.
  intros Hform Hfeas H.
  apply solve_placement_ok in H as (prob' & s_res & groups & Hform' & Hs & Hg & Hpl).
  rewrite Hform in Hform'. injection Hform' as <-.
  set (sol := solver prob) in *.
  set (G := num_devices cluster_env) in *.
  change (Z.of_nat (List.length
            (ModelParallelismILP.group_configs (ModelParallelismILP.init verbose))))
    with 5 in Hs.
  destruct (formulate_constraints _ _ _ _ Hform) as [Hsize Hone].
  fold G in Hsize, Hone.
  unfold feasible in Hfeas. apply andb_true_iff in Hfeas as [Hbounds Hholds].
  rewrite forallb_forall in Hbounds, Hholds.
  (* every slot selects exactly one configuration *)
  assert (Hslot : forall j, In j (Py.range G) ->
            List.filter
              (fun k => ModelParallelismILP.value_truthy sol (s_var j k))
              (Py.range 5) = [chosen sol 5 j] /\
            (qsum (fun k => inject_Z (nth k hard_coded_sizes 0%Z)
                            * value_or_zero sol (s_var j k)) (Py.range 5)
             == inject_Z (nth (chosen sol 5 j) hard_coded_sizes 0%Z))%Q).
  { intros j Hj.
    destruct (slot_selects_one sol
                (fun k => inject_Z (nth k hard_coded_sizes 0)) 5 j)
      as (_ & Hf & Hq); [| |auto].
    - intros k Hk. apply Hbounds. unfold variables.
      apply in_app_iff. right. apply in_flat_map.
      exists (one_config_constraint j). split; [now apply Hone|].
      apply in_app_iff. left.
      unfold variables_of, one_config_constraint. cbn [lhs eq].
      rewrite terms_lpSum. apply in_map_iff. exists (s_var j k, 1%Q).
      split; [reflexivity|]. apply in_flat_map.
      exists (var (s_var j k)). split; [|now left].
      apply in_map_iff. exists k. auto.
    - specialize (Hholds _ (Hone j Hj)).
      unfold holds, one_config_constraint in Hholds. cbn [sense lhs rhs eq] in Hholds.
      apply Qeq_bool_eq in Hholds.
      rewrite eval_lpSum, eval_const, qsum_map in Hholds.
      rewrite <- Hholds. apply qsum_ext. intros k _. now rewrite eval_var. }
  (* the selected indices, and the devices of the groups *)
  assert (Hres : s_res = map (chosen sol 5) (Py.range G)).
  { apply (select_configs_chosen sol G 5 s_res Hs).
    intros j Hj. now apply Hslot. }
  apply collect_groups_devices in Hg; [|reflexivity].
  change (ModelParallelismILP.group_sizes (ModelParallelismILP.init verbose))
    with hard_coded_sizes in Hg.
  unfold devices_used. rewrite Hpl, Hg.
  (* constraint (d) *)
  specialize (Hholds _ Hsize).
  unfold holds, group_size_constraint in Hholds. cbn [sense lhs rhs eq] in Hholds.
  apply Qeq_bool_eq in Hholds.
  rewrite eval_lpSum, eval_const, qsum_map in Hholds.
  apply inject_Z_injective. rewrite <- Hholds.
  rewrite <- qsum_inject_Z.
  unfold ModelParallelismILP.pairs. rewrite qsum_flat_map.
  apply qsum_ext. intros j Hj.
  rewrite qsum_map.
  destruct (Hslot j Hj) as [_ Hq].
  unfold slot_size. rewrite Hres, (nth_error_map_range _ _ _ Hj).
  rewrite <- Hq. apply qsum_ext. intros k _.
  unfold size_term. cbn [fst snd]. now rewrite eval_times.
Qed.

End Placement.

(** *** Zero request rate *)


Lemma Forall2_nth_error_r {A B : Type} (R : A -> B -> Prop) l l' i y :
  Forall2 R l l' -> nth_error l' i = Some y ->
  exists x, nth_error l i = Some x /\ R x y.
Proof.
  intros H. revert i. induction H as [|a b l l' Hab _ IH]; intros i Hi.
  - destruct i; discriminate.
  - destruct i as [|i]; simpl in *; [|now apply IH].
    injection Hi as <-. eauto.
Qed.



Section ZeroRate.

Import Pulp ModelParallelismILP.

Variable solver : LpProblem -> LpSolution.
Variable self : ModelParallelismILP.t.
Variable model_datas : list ModelData.
Variable cluster_env : ClusterEnv.




End ZeroRate.


(** The one-device placement of the half-second model. *)
Example one_device_placement :
  ModelParallelismILP.solve_placement
    (ModelParallelismILP.init 0) one_device_solver
    [half_second_model] one_device_cluster
  = Ok ({| group_configs := [mkParallelConfig 1 1 1];
           group_models := [[0]] |}, (1980198 # 1000000)%Q).
Proof. vm_compute. reflexivity. Qed.

(** Claim C10 on the one-device placement. *)
Lemma ilp_group_configs_hard_coded_witness :
  ModelParallelismILP.solve_placement
    (ModelParallelismILP.init 0) one_device_solver
    [half_second_model] one_device_cluster
  = Ok ({| group_configs := [mkParallelConfig 1 1 1];
           group_models := [[0]] |}, (1980198 # 1000000)%Q) /\
  forall cfg, In cfg [mkParallelConfig 1 1 1] ->
    In cfg pipeline_configs /\
    dp cfg = 1 /\ op cfg = 1 /\ In (pp cfg) [1; 2; 4; 8] /\
    group_size cfg <= 8.
Proof.
  split; [vm_compute; reflexivity|].
  apply (ilp_group_configs_hard_coded
           one_device_solver 0 [half_second_model] one_device_cluster
           {| group_configs := [mkParallelConfig 1 1 1];
              group_models := [[0]] |} (1980198 # 1000000)%Q).
  vm_compute. reflexivity.
Defined.

(** Claim C2 on the one-device placement: the problem is formulated,
    the solution is a feasible point of it, and the placement uses the
    one device. *)
Lemma ilp_placement_uses_all_devices_witness :
  ModelParallelismILP.formulate
    (ModelParallelismILP.init 0) [half_second_model] one_device_cluster
  = Ok one_device_problem /\
  Pulp.feasible one_device_problem (one_device_solver one_device_problem)
  = true /\
  ModelParallelismILP.solve_placement
    (ModelParallelismILP.init 0) one_device_solver
    [half_second_model] one_device_cluster
  = Ok ({| group_configs := [mkParallelConfig 1 1 1];
           group_models := [[0]] |}, (1980198 # 1000000)%Q) /\
  devices_used {| group_configs := [mkParallelConfig 1 1 1];
                  group_models := [[0]] |}
  = num_devices one_device_cluster.
Proof.
  assert (H1 : ModelParallelismILP.formulate
                 (ModelParallelismILP.init 0) [half_second_model]
                 one_device_cluster = Ok one_device_problem)
    by (vm_compute; reflexivity).
  assert (H2 : Pulp.feasible one_device_problem
                 (one_device_solver one_device_problem) = true)
    by (vm_compute; reflexivity).
  assert (H3 : ModelParallelismILP.solve_placement
                 (ModelParallelismILP.init 0) one_device_solver
                 [half_second_model] one_device_cluster
               = Ok ({| group_configs := [mkParallelConfig 1 1 1];
                        group_models := [[0]] |}, (1980198 # 1000000)%Q))
    by (vm_compute; reflexivity).
  split; [exact H1|]. split; [exact H2|]. split; [exact H3|].
  exact (ilp_placement_uses_all_devices
           one_device_solver 0 [half_second_model] one_device_cluster
           one_device_problem _ _ H1 H2 H3).
Defined.


(** The zero-rate model is not skipped when its capability is not 0
    either: the problem is formulated, and its min-tolerance
    constraint has non-finite coefficients. *)
Example zero_rate_nonzero_capability :
  compute_capability idle_half_second_model cfg_1_1_1 1
  = Ok ((2 # 1) * (99 # 100) ^ 1)%Q /\
  exists prob,
    ModelParallelismILP.formulate
      (ModelParallelismILP.init 0) [idle_half_second_model] one_device_cluster
    = Ok prob /\
    existsb (fun c => Pulp.non_finite (Pulp.rhs c)) (Pulp.constraints prob)
    = true.
Proof.
  split; [reflexivity|]. eexists. split; vm_compute; reflexivity.
Qed.


(** ** The arrival-process column read back *)

Section ReadData.

(** *** Printing and parsing an int *)

Lemma plain_facts c :
  plain c = true ->
  PyStr.is_space c = false /\
  Ascii.eqb c "=" = false /\ Ascii.eqb c "," = false /\
  Ascii.eqb c ")" = false.
Proof.
  destruct c as [[] [] [] [] [] [] [] []]; vm_compute; intros H;
    try discriminate H; repeat split.
Qed.

Lemma chars_digits_plain d :
  Forall (fun c => plain c = true) (chars (NilEmpty.string_of_uint d)).
Proof.
  induction d; simpl; constructor; (reflexivity || assumption).
Qed.

Lemma chars_uint_plain d :
  Forall (fun c => plain c = true) (chars (NilZero.string_of_uint d)).
Proof.
  destruct d; try apply (chars_digits_plain (_ _)).
  simpl. constructor; [reflexivity|constructor].
Qed.

Lemma chars_str_int_plain n :
  Forall (fun c => plain c = true) (chars (PyStr.str_int n)).
Proof.
  unfold PyStr.str_int. destruct (Z.to_int n) as [d|d]; simpl.
  - apply chars_uint_plain.
  - constructor; [reflexivity|apply chars_uint_plain].
Qed.

Lemma parse_digits_acc d : forall p,
  PyStr.parse_digits (chars (NilEmpty.string_of_uint d)) (Z.pos p) true
  = Some (Z.pos (Pos.of_uint_acc d p)).
Proof.
  induction d; intros p; cbn [NilEmpty.string_of_uint chars list_ascii_of_string
                               Pos.of_uint_acc];
    [reflexivity| ..];
    unfold PyStr.parse_digits; fold PyStr.parse_digits;
    match goal with
    | |- context [PyStr.digit_of ?c] =>
        let v := eval vm_compute in (PyStr.digit_of c) in
        change (PyStr.digit_of c) with v;
        change (Ascii.eqb c "_") with false; cbv iota
    end;
    rewrite <- IHd; f_equal; lia.
Qed.

Lemma parse_digits_zero d :
  PyStr.parse_digits (chars (NilEmpty.string_of_uint d)) 0 true
  = Some (Z.of_N (Pos.of_uint d)).
Proof.
  induction d; cbn [NilEmpty.string_of_uint chars list_ascii_of_string
                      Pos.of_uint];
    [reflexivity| ..];
    unfold PyStr.parse_digits; fold PyStr.parse_digits;
    match goal with
    | |- context [PyStr.digit_of ?c] =>
        let v := eval vm_compute in (PyStr.digit_of c) in
        change (PyStr.digit_of c) with v;
        change (Ascii.eqb c "_") with false; cbv iota
    end;
    [exact IHd | ..]; cbn [Z.of_N]; rewrite <- parse_digits_acc; f_equal.
Qed.

Lemma parse_uint d :
  d <> Nil ->
  let cs := chars (NilEmpty.string_of_uint d) in
  PyStr.parse_digits cs 0 false = Some (Z.of_N (Pos.of_uint d)) /\
  match cs with
  | c :: _ => Ascii.eqb c "-" = false /\ Ascii.eqb c "+" = false
  | [] => False
  end.
Proof.
  destruct d; intros Hd; [contradiction| ..];
    cbn [NilEmpty.string_of_uint chars list_ascii_of_string Pos.of_uint];
    (split; [|split; reflexivity]);
    unfold PyStr.parse_digits; fold PyStr.parse_digits;
    match goal with
    | |- context [PyStr.digit_of ?c] =>
        let v := eval vm_compute in (PyStr.digit_of c) in
        change (PyStr.digit_of c) with v;
        change (Ascii.eqb c "_") with false; cbv iota
    end;
    [apply parse_digits_zero | ..];
    cbn [Z.of_N]; rewrite <- parse_digits_acc; f_equal.
Qed.

Lemma lstrip_id s :
  Forall (fun c => PyStr.is_space c = false) s -> PyStr.lstrip s = s.
Proof. intros H. destruct H as [|c s Hc _]; simpl; [reflexivity|now rewrite Hc]. Qed.

Lemma strip_plain s :
  Forall (fun c => plain c = true) s -> PyStr.strip s = s.
Proof.
  intros H.
  assert (Hs : Forall (fun c => PyStr.is_space c = false) s).
  { eapply List.Forall_impl; [|exact H]. intros c Hc. now apply plain_facts. }
  unfold PyStr.strip. rewrite (lstrip_id s Hs).
  rewrite lstrip_id; [apply rev_involutive|].
  apply List.Forall_rev, Hs.
Qed.

(** Parsing what [str] printed gives the int back. *)
Lemma int_str_int n : PyStr.int (PyStr.str_int n) = Ok n.
Proof.
  unfold PyStr.int.
  change (list_ascii_of_string (PyStr.str_int n))
    with (chars (PyStr.str_int n)).
  rewrite (strip_plain _ (chars_str_int_plain n)).
  unfold PyStr.str_int.
  destruct n as [|p|p]; [reflexivity| |];
    cbn [Z.to_int NilZero.string_of_int];
    pose proof (DecimalPos.Unsigned.of_to p) as Hp;
    assert (Hnil : Pos.to_uint p <> Nil)
      by (intros E; rewrite E in Hp; discriminate Hp);
    destruct (parse_uint _ Hnil) as [Hparse Hhd];
    replace (NilZero.string_of_uint (Pos.to_uint p))
      with (NilEmpty.string_of_uint (Pos.to_uint p))
      by (destruct (Pos.to_uint p); [contradiction|reflexivity..]);
    fold (chars (NilEmpty.string_of_uint (Pos.to_uint p))) in *.
  - destruct (chars (NilEmpty.string_of_uint (Pos.to_uint p))) as [|c cs];
      [contradiction|].
    destruct Hhd as [-> ->]. rewrite Hparse, Hp. reflexivity.
  - change (chars (String "-" (NilEmpty.string_of_uint (Pos.to_uint p))))
      with ("-"%char :: chars (NilEmpty.string_of_uint (Pos.to_uint p))).
    cbv iota. change (Ascii.eqb "-" "-") with true. cbv iota.
    rewrite Hparse, Hp. reflexivity.
Qed.

(** *** Splitting the column *)

Lemma string_app_assoc (a b c : string) :
  ((a ++ b) ++ c = a ++ (b ++ c))%string.
Proof.
  induction a as [|x a IH]; [reflexivity|].
  change (String x ((a ++ b) ++ c) = String x (a ++ (b ++ c)))%string.
  now rewrite IH.
Qed.

Lemma no_char_app c a b :
  no_char c (a ++ b)%string = no_char c a && no_char c b.
Proof.
  unfold no_char, chars.
  induction a as [|x a IH]; [reflexivity|].
  change (String x a ++ b)%string with (String x (a ++ b))%string.
  simpl. now rewrite IH, andb_assoc.
Qed.

Lemma split_fields_nosep sep a :
  no_char sep a = true -> PyStr.split_fields sep a = (a, []).
Proof.
  unfold no_char, chars.
  induction a as [|x a IH]; simpl; [reflexivity|].
  intros H. apply andb_true_iff in H as [Hx Ha].
  rewrite (IH Ha). apply negb_true_iff in Hx. now rewrite Hx.
Qed.

Lemma split_fields_app sep a b :
  no_char sep a = true ->
  PyStr.split_fields sep (a ++ String sep b)
  = (a, fst (PyStr.split_fields sep b) :: snd (PyStr.split_fields sep b)).
Proof.
  unfold no_char, chars.
  induction a as [|x a IH].
  - intros _. change ("" ++ String sep b)%string with (String sep b).
    simpl. rewrite Ascii.eqb_refl.
    now destruct (PyStr.split_fields sep b).
  - change (String x a ++ String sep b)%string
      with (String x (a ++ String sep b))%string.
    simpl. intros H. apply andb_true_iff in H as [Hx Ha].
    rewrite (IH Ha). apply negb_true_iff in Hx. now rewrite Hx.
Qed.

Lemma no_char_plain c s :
  (forall x, plain x = true -> Ascii.eqb x c = false) ->
  Forall (fun x => plain x = true) (chars s) -> no_char c s = true.
Proof.
  intros Hc H. unfold no_char. apply forallb_forall.
  rewrite List.Forall_forall in H.
  intros x Hx. apply negb_true_iff, Hc, H, Hx.
Qed.

Lemma str_int_no_eq n : no_char "=" (PyStr.str_int n) = true.
Proof.
  apply no_char_plain; [|apply chars_str_int_plain].
  intros x Hx. now apply plain_facts.
Qed.

Lemma str_int_no_comma n : no_char "," (PyStr.str_int n) = true.
Proof.
  apply no_char_plain; [|apply chars_str_int_plain].
  intros x Hx. now apply plain_facts.
Qed.

Lemma str_int_no_paren n : no_char ")" (PyStr.str_int n) = true.
Proof.
  apply no_char_plain; [|apply chars_str_int_plain].
  intros x Hx. now apply plain_facts.
Qed.

(** The fields of the column of two ints. *)
Lemma split_gamma_process r cv :
  PyStr.split "=" (gamma_process_str (PyInt r) (PyInt cv))
  = [ "GammaProcess(rate"%string;
      (PyStr.str_int r ++ ",cv")%string;
      (PyStr.str_int cv ++ ")")%string ].
Proof.
  unfold gamma_process_str, str_number.
  replace ("GammaProcess(rate=" ++ PyStr.str_int r ++ ",cv="
           ++ PyStr.str_int cv ++ ")")%string
    with ("GammaProcess(rate"
          ++ String "=" ((PyStr.str_int r ++ ",cv")
                         ++ String "=" (PyStr.str_int cv ++ ")")))%string
    by (rewrite string_app_assoc; reflexivity).
  unfold PyStr.split.
  rewrite split_fields_app by reflexivity.
  rewrite split_fields_app
    by (rewrite no_char_app, str_int_no_eq; reflexivity).
  rewrite split_fields_nosep
    by (rewrite no_char_app, str_int_no_eq; reflexivity).
  reflexivity.
Qed.

Lemma split_rate_field r :
  PyStr.split "," (PyStr.str_int r ++ ",cv")
  = [PyStr.str_int r; "cv"%string].
Proof.
  unfold PyStr.split.
  change (PyStr.str_int r ++ ",cv")%string
    with (PyStr.str_int r ++ String "," "cv")%string.
  now rewrite split_fields_app by apply str_int_no_comma.
Qed.

Lemma split_cv_field cv :
  PyStr.split ")" (PyStr.str_int cv ++ ")")
  = [PyStr.str_int cv; ""%string].
Proof.
  unfold PyStr.split.
  change (PyStr.str_int cv ++ ")")%string
    with (PyStr.str_int cv ++ String ")" "")%string.
  now rewrite split_fields_app by apply str_int_no_paren.
Qed.

(** *** The loop over the rows *)

Lemma startswith_gamma_process r cv :
  PyStr.startswith (gamma_process_str r cv) "GammaProcess" = true.
Proof. reflexivity. Qed.

(** A row whose column was printed from [(r, cv)] sets the pair when
    none is known and keeps it when it is the known one. *)
Lemma read_row_gamma (line : Row) (r cv : Z) data rate cv0 :
  arrival_process line = gamma_process_str (PyInt r) (PyInt cv) ->
  (rate, cv0) = (None, None) \/ (rate, cv0) = (Some r, Some cv) ->
  exists data',
    read_row line (data, rate, cv0) = Ok (data', Some r, Some cv).
Proof.
  intros Harr Hst. unfold read_row. rewrite Harr.
  rewrite startswith_gamma_process, split_gamma_process.
  change (Py.getitem ["GammaProcess(rate"%string;
                      (PyStr.str_int r ++ ",cv")%string;
                      (PyStr.str_int cv ++ ")")%string] 1)
    with (Ok (PyStr.str_int r ++ ",cv")%string).
  cbn [bind]. rewrite split_rate_field.
  change (Py.getitem [PyStr.str_int r; "cv"%string] 0)
    with (Ok (PyStr.str_int r)).
  cbn [bind].
  change (Py.getitem ["GammaProcess(rate"%string;
                      (PyStr.str_int r ++ ",cv")%string;
                      (PyStr.str_int cv ++ ")")%string] 2)
    with (Ok (PyStr.str_int cv ++ ")")%string).
  cbn [bind]. rewrite split_cv_field.
  change (Py.getitem [PyStr.str_int cv; ""%string] 0)
    with (Ok (PyStr.str_int cv)).
  cbn [bind]. rewrite !int_str_int.
  destruct Hst as [[= -> ->]|[= -> ->]]; cbn [bind option_Z_eqb].
  - eexists. reflexivity.
  - rewrite !Z.eqb_refl. cbn [bind Py.assert fst snd]. eexists. reflexivity.
Qed.

Lemma read_rows_gamma (r cv : Z) rows : forall data rate cv0,
  (forall row, In row rows ->
               arrival_process row = gamma_process_str (PyInt r) (PyInt cv)) ->
  (rate, cv0) = (None, None) /\ rows <> [] \/ (rate, cv0) = (Some r, Some cv) ->
  exists data',
    for_loop read_row rows (data, rate, cv0) = Ok (data', Some r, Some cv).
Proof.
  induction rows as [|row rows IH]; intros data rate cv0 Hrows Hst.
  - destruct Hst as [[_ Hne]|[= -> ->]]; [contradiction|].
    simpl. eexists. reflexivity.
  - destruct (read_row_gamma row r cv data rate cv0) as [data1 H1].
    + apply Hrows. now left.
    + destruct Hst as [[? _]|?]; auto.
    + cbn [for_loop]. rewrite H1. cbn [bind].
      apply IH; [|now right]. intros; apply Hrows; now right.
Qed.

(** Claim C9, as the code has it.  For every pair of ints [(r, cv)],
    [read_data] on rows (at least one) whose arrival-process column is
    [GammaProcess(rate=<r>,cv=<cv>)] returns [r] and [cv] as
    [per_model_rate] and [per_model_cv]. *)
Theorem read_data_round_trip (r cv : Z) (rows : list Row) :
  rows <> [] ->
  (forall row, In row rows ->
               arrival_process row = gamma_process_str (PyInt r) (PyInt cv)) ->
  exists data,
    read_data rows
    = Ok (data, {| per_model_rate := Some r; per_model_cv := Some cv |}).
Proof.
  intros Hne Hrows. unfold read_data.
  destruct (read_rows_gamma r cv rows ∅ None None Hrows) as [data H];
    [left; auto|].
  rewrite H. cbn [bind]. eexists. reflexivity.
Qed.

End ReadData.

(** Claim C9 fails on a rate or a coefficient of variation that is not
    written as an int: the column of [(0.5, 4)] is
    [GammaProcess(rate=0.5,cv=4)] and [read_data] raises [ValueError] on
    it, as it does on the column of [(2, 4.0)]. *)
Lemma read_data_float_counterexample :
  gamma_process_str (PyFloat 0 (D5 Nil)) (PyInt 4)
  = "GammaProcess(rate=0.5,cv=4)"%string /\
  read_data [sample_row (gamma_process_str (PyFloat 0 (D5 Nil)) (PyInt 4))]
  = Raise ValueError /\
  read_data [sample_row (gamma_process_str (PyInt 2) (PyFloat 4 (D0 Nil)))]
  = Raise ValueError.
Proof. repeat split; vm_compute; reflexivity. Qed.

(** Claim C9 (amended) on one row of rate 2 and cv 4. *)
Lemma read_data_round_trip_witness :
  [sample_row (gamma_process_str (PyInt 2) (PyInt 4))] <> [] /\
  exists data,
    read_data [sample_row (gamma_process_str (PyInt 2) (PyInt 4))]
    = Ok (data, {| per_model_rate := Some 2; per_model_cv := Some 4 |}).
Proof.
  split; [discriminate|].
  apply (read_data_round_trip
           2 4 [sample_row (gamma_process_str (PyInt 2) (PyInt 4))]).
  - discriminate.
  - intros row [<-|[]]. reflexivity.
Defined.

(** ** The greedy construction *)

Section Argsort.

Import ModelParallelismSearch.

Variable scores : list Q.

Let score (i : nat) : Q := nth i scores 0%Q.
Let by_score (i j : nat) : Prop := (score i <= score j)%Q.

Lemma insert_index_perm i l : Permutation (insert_index scores i l) (i :: l).
Proof.
  induction l as [|j l IH]; simpl; [reflexivity|].
  destruct (Qle_bool _ _); [reflexivity|].
  rewrite IH. apply perm_swap.
Qed.

Lemma insert_index_sorted i l :
  StronglySorted by_score l -> StronglySorted by_score (insert_index scores i l).
Proof.
  induction 1 as [|j l Hl IH Hj]; simpl.
  - constructor; constructor.
  - destruct (Qle_bool (nth i scores 0%Q) (nth j scores 0%Q)) eqn:E.
    + apply Qle_bool_iff in E.
      constructor; [constructor; assumption|].
      constructor; [exact E|].
      eapply List.Forall_impl; [|exact Hj].
      intros k Hk. unfold by_score, score in *. eapply Qle_trans; eassumption.
    + constructor; [exact IH|].
      assert (Hji : by_score j i).
      { unfold by_score, score.
        destruct (Qlt_le_dec (nth j scores 0%Q) (nth i scores 0%Q)) as [H|H].
        - now apply Qlt_le_weak.
        - apply Qle_bool_iff in H. congruence. }
      rewrite List.Forall_forall in Hj |- *.
      intros k Hk.
      apply (Permutation_in _ (insert_index_perm i l)) in Hk.
      destruct Hk as [<-|Hk]; [exact Hji|now apply Hj].
Qed.

Lemma argsort_perm : Permutation (argsort scores) (seq 0 (List.length scores)).
Proof.
  unfold argsort.
  induction (seq 0 (List.length scores)) as [|i l IH]; simpl; [reflexivity|].
  rewrite insert_index_perm. now constructor.
Qed.

Lemma argsort_sorted : StronglySorted by_score (argsort scores).
Proof.
  unfold argsort.
  induction (seq 0 (List.length scores)) as [|i l IH]; simpl; [constructor|].
  now apply insert_index_sorted.
Qed.

Lemma sorted_app_rel (l1 l2 : list nat) :
  StronglySorted by_score (l1 ++ l2) ->
  forall x y, In x l1 -> In y l2 -> by_score x y.
Proof.
  induction l1 as [|z l1 IH]; simpl; intros H x y Hx Hy; [destruct Hx|].
  inversion H as [|? ? Hs Hall]; subst.
  destruct Hx as [<-|Hx]; [|now apply IH].
  rewrite List.Forall_forall in Hall. apply Hall, in_or_app. now right.
Qed.

(** The selected positions: the last [k] of the sorted indices, best
    first. *)
Lemma firstn_rev_argsort (k : nat) :
  let idxs := firstn k (rev (argsort scores)) in
  List.NoDup idxs /\
  (forall i, In i idxs -> (i < List.length scores)%nat) /\
  List.length idxs = Nat.min k (List.length scores) /\
  forall i i', In i idxs -> (i' < List.length scores)%nat -> ~ In i' idxs ->
               (nth i' scores 0 <= nth i scores 0)%Q.
Proof.
  intros idxs.
  pose proof argsort_perm as Hperm.
  assert (Hsplit : rev (argsort scores)
                   = idxs ++ skipn k (rev (argsort scores)))
    by (symmetry; apply firstn_skipn).
  assert (Hnd : List.NoDup (rev (argsort scores))).
  { apply (Permutation_NoDup (l := seq 0 (List.length scores))).
    - rewrite <- Hperm. apply Permutation_rev.
    - apply seq_NoDup. }
  assert (Hin : forall i, In i (rev (argsort scores))
                          <-> (i < List.length scores)%nat).
  { intros i. rewrite <- in_rev. split; intros H.
    - apply (Permutation_in _ Hperm) in H. apply in_seq in H. lia.
    - apply (Permutation_in _ (Permutation_sym Hperm)). apply in_seq. lia. }
  split; [|split; [|split]].
  - rewrite Hsplit in Hnd. now apply NoDup_app_remove_r in Hnd.
  - intros i Hi. apply Hin. rewrite Hsplit. apply in_or_app. now left.
  - unfold idxs. rewrite length_firstn, length_rev.
    now rewrite (Permutation_length Hperm), length_seq.
  - intros i i' Hi Hi' Hnot.
    assert (Hskip : In i' (skipn k (rev (argsort scores)))).
    { apply Hin in Hi'. rewrite Hsplit in Hi'.
      apply in_app_or in Hi' as [?|?]; [contradiction|assumption]. }
    assert (Hsorted := argsort_sorted).
    rewrite <- (rev_involutive (argsort scores)), Hsplit, rev_app_distr in Hsorted.
    apply (sorted_app_rel _ _ Hsorted i' i); now apply -> in_rev.
Qed.

End Argsort.

Lemma for_loop_collect {A B : Type} (body : A -> list B -> result (list B))
      (P : A -> B -> Prop) (l : list A) :
  (forall x, In x l -> forall acc acc',
        body x acc = Ok acc' ->
        exists ys, acc' = acc ++ ys /\ forall y, In y ys <-> P x y) ->
  forall acc acc',
    for_loop body l acc = Ok acc' ->
    exists ys, acc' = acc ++ ys /\
               forall y, In y ys <-> exists x, In x l /\ P x y.
Proof.
  induction l as [|x l IH]; intros Hbody acc acc'; simpl.
  - intros [= <-]. exists []. split; [now rewrite app_nil_r|].
    intros y. split; [intros []|intros (x & [] & _)].
  - intros H. apply bind_ok in H as (acc1 & H1 & H).
    destruct (Hbody x (or_introl eq_refl) _ _ H1) as (ys1 & -> & Hys1).
    destruct (IH (fun z Hz => Hbody z (or_intror Hz)) _ _ H)
      as (ys2 & -> & Hys2).
    exists (ys1 ++ ys2). split; [now rewrite app_assoc|].
    intros y. rewrite in_app_iff, Hys1, Hys2. split.
    + intros [Hy|(z & Hz & Hy)]; [exists x|exists z]; auto.
    + intros (z & [<-|Hz] & Hy); [now left|right; exists z; auto].
Qed.

Lemma getitem_in {A : Type} (l : list A) i x :
  Py.getitem l i = Ok x -> In x l.
Proof.
  unfold Py.getitem. destruct (_ || _); [discriminate|].
  destruct (nth_error l _) eqn:E; [|discriminate].
  intros [= <-]. eapply nth_error_In, E.
Qed.

Lemma range_from_cons lo hi :
  lo < hi -> Py.range_from lo hi = lo :: Py.range_from (lo + 1) hi.
Proof.
  intros H. unfold Py.range_from.
  replace (Z.to_nat (hi - lo)) with (S (Z.to_nat (hi - (lo + 1)))) by lia.
  cbn [seq map]. f_equal; [lia|].
  rewrite <- seq_shift, map_map. apply map_ext. intros i. lia.
Qed.

Lemma range_from_nil lo hi : hi <= lo -> Py.range_from lo hi = [].
Proof.
  intros H. unfold Py.range_from.
  now replace (Z.to_nat (hi - lo)) with 0%nat by lia.
Qed.

Section GreedyProps.

Import ModelParallelismSearch.

Variables Workload Evaluator : Type.
Variable fill :
  ModelPlacement -> list ModelData -> ClusterEnv -> Workload -> Evaluator ->
  Z -> ModelPlacement.
Variable get_scores : Evaluator -> list ModelPlacement -> list Q.
Variable self : ModelParallelismSearch.t.
Variable model_datas : list ModelData.
Variable cluster_env : ClusterEnv.
Variable train_workload : Workload.
Variable evaluator : Evaluator.

(** The candidates at [cur_num] are the extensions of the beam
    parents. *)
Lemma candidates_spec beam_sols cur_num next_sols :
  candidates Workload Evaluator fill self model_datas cluster_env
             train_workload evaluator beam_sols cur_num = Ok next_sols ->
  forall sol,
    In sol next_sols <->
    extends_parent fill self model_datas cluster_env train_workload evaluator
                   beam_sols cur_num sol.
Proof.
  unfold candidates. intros H.
  apply bind_ok in H as (r & Hr & H).
  unfold Py.int_mod in Hr.
  destruct (num_devices_per_node cluster_env =? 0); [discriminate|].
  injection Hr as <-.
  apply (for_loop_collect _
           (fun lgs y =>
              exists (op pp : Z) parents parent,
                0 < pp /\ 0 < op /\ lgs = op * pp /\
                pp <= max_pp self /\ op <= max_op self /\
                Py.getitem beam_sols (cur_num - lgs) = Ok parents /\
                In parent parents /\
                y = fill (append_group parent (mkParallelConfig 1 op pp))
                         model_datas cluster_env train_workload evaluator
                         (verbose self))) in H.
  - destruct H as (ys & -> & Hys). simpl. intros sol. rewrite Hys.
    unfold extends_parent. split.
    + intros (lgs & Hlgs & op & pp & parents & parent & H).
      apply in_range_from in Hlgs.
      exists lgs, op, pp, parents, parent. split; [lia|exact H].
    + intros (lgs & op & pp & parents & parent & Hlgs & H).
      exists lgs. split; [apply in_range_from; lia|].
      exists op, pp, parents, parent. exact H.
  - intros lgs Hlgs acc acc' Hmid. apply in_range_from in Hlgs.
    apply (for_loop_collect _
             (fun pp y =>
                (pp <= max_pp self /\ lgs / pp <= max_op self) /\
                exists parents parent,
                  Py.getitem beam_sols (cur_num - lgs) = Ok parents /\
                  In parent parents /\
                  y = fill (append_group parent
                              (mkParallelConfig 1 (lgs / pp) pp))
                           model_datas cluster_env train_workload evaluator
                           (verbose self))) in Hmid.
    + destruct Hmid as (ys & -> & Hys). exists ys. split; [reflexivity|].
      intros y. rewrite Hys. split.
      * intros (pp & Hpp & [Hmp Hmo] & parents & parent & Hg & Hin & ->).
        apply in_get_factors_divide in Hpp as [Hpos [q Hq]]; [|lia].
        assert (Hdiv : lgs / pp = q) by (subst lgs; apply Z.div_mul; lia).
        exists (lgs / pp), pp, parents, parent.
        repeat split; try assumption; try lia.
      * intros (op & pp & parents & parent
                & Hpp & Hop & Heq & Hmp & Hmo & Hg & Hin & ->).
        assert (Hdiv : lgs / pp = op) by (subst lgs; apply Z.div_mul; lia).
        exists pp. split.
        { apply in_get_factors_divide; [lia|]. split; [exact Hpp|].
          exists op. exact Heq. }
        rewrite Hdiv. split; [split; assumption|].
        exists parents, parent. auto.
    + intros pp Hpp acc1 acc1' Hin.
      apply in_get_factors in Hpp as [Hpp _].
      unfold Py.int_floordiv in Hin.
      destruct (Z.eqb_spec pp 0) as [?|_]; [lia|]. cbn [bind] in Hin.
      destruct (Z.gtb_spec pp (max_pp self)) as [Hp|Hp];
        destruct (Z.gtb_spec (lgs / pp) (max_op self)) as [Ho|Ho];
        cbn [orb] in Hin;
        try (injection Hin as <-; exists []; split; [now rewrite app_nil_r|];
             intros y; split; [intros []|intros [[? ?] _]; lia]).
      apply bind_ok in Hin as (sols & Hsols & Hin).
      apply (for_loop_collect _
               (fun sol y =>
                  y = fill (append_group sol (mkParallelConfig 1 (lgs / pp) pp))
                           model_datas cluster_env train_workload evaluator
                           (verbose self))) in Hin.
      * destruct Hin as (ys & -> & Hys). exists ys. split; [reflexivity|].
        intros y. rewrite Hys. split.
        -- intros (sol & Hsol & ->). split; [lia|]. exists sols, sol. auto.
        -- intros (_ & parents & parent & Hg & Hpar & ->).
           rewrite Hsols in Hg. injection Hg as <-. exists parent. auto.
      * intros sol _ acc2 acc2' [= <-]. eexists. split; [reflexivity|].
        intros y. simpl. split; [intros [<-|[]]; reflexivity|intros ->; now left].
Qed.

(** The beam is the top [beam_size] of the candidates by score. *)
Lemma select_beam_spec next_sols beam_size beam :
  select_beam Evaluator get_scores evaluator next_sols beam_size = Ok beam ->
  top_k (get_scores evaluator next_sols) next_sols beam_size beam.
Proof.
  unfold select_beam. intros H. apply for_each_ok in H.
  exists (firstn (Z.to_nat beam_size)
                 (rev (argsort (get_scores evaluator next_sols)))).
  destruct (firstn_rev_argsort (get_scores evaluator next_sols)
                               (Z.to_nat beam_size)) as (Hnd & Hlt & Hlen & Hdom).
  split; [|auto].
  eapply Forall2_impl; [exact H|].
  intros i sol Hi. now apply index_ok.
Qed.

Lemma select_beam_length next_sols beam_size beam :
  select_beam Evaluator get_scores evaluator next_sols beam_size = Ok beam ->
  0 <= beam_size -> Z.of_nat (List.length beam) <= beam_size.
Proof.
  intros H Hk. apply select_beam_spec in H as (idxs & Hall & _ & _ & Hlen & _).
  apply Forall2_length in Hall. lia.
Qed.

(** The table after the loop: every entry after the first is the beam
    computed from the entries before it. *)
Lemma greedy_beams_loop beam_size (n : nat) : forall lo tbl tbl',
  Z.of_nat (List.length tbl) = lo ->
  for_loop
    (fun cur_num beam_sols =>
       beam <- beam_step Workload Evaluator fill get_scores self model_datas
                         cluster_env train_workload evaluator beam_size
                         beam_sols cur_num ;
       Ok (beam_sols ++ [beam]))
    (Py.range_from lo (lo + Z.of_nat n)) tbl = Ok tbl' ->
  firstn (List.length tbl) tbl' = tbl /\
  forall cur_num, lo <= cur_num < lo + Z.of_nat n ->
    exists beam,
      nth_error tbl' (Z.to_nat cur_num) = Some beam /\
      beam_step Workload Evaluator fill get_scores self model_datas
                cluster_env train_workload evaluator beam_size
                (firstn (Z.to_nat cur_num) tbl') cur_num = Ok beam.
Proof.
  induction n as [|n IH]; intros lo tbl tbl' Hlen H.
  - rewrite range_from_nil in H by lia. injection H as <-.
    split; [apply firstn_all|]. intros cur_num Hc. lia.
  - rewrite range_from_cons in H by lia. cbn [for_loop] in H.
    apply bind_ok in H as (tbl1 & H1 & H).
    apply bind_ok in H1 as (beam & Hbeam & [= <-]).
    replace (lo + Z.of_nat (S n)) with ((lo + 1) + Z.of_nat n) in H by lia.
    apply IH in H as [Hpre Hall]; [|rewrite length_app; simpl; lia].
    rewrite length_app in Hpre. simpl in Hpre.
    assert (Htbl : firstn (List.length tbl) tbl' = tbl).
    { transitivity (firstn (List.length tbl)
                            (firstn (List.length tbl + 1) tbl')).
      - rewrite firstn_firstn. f_equal. lia.
      - rewrite Hpre, firstn_app, Nat.sub_diag, firstn_all. simpl.
        apply app_nil_r. }
    split; [exact Htbl|].
    intros cur_num Hc.
    destruct (Z.eq_dec cur_num lo) as [->|Hne].
    + exists beam. replace (Z.to_nat lo) with (List.length tbl) by lia.
      rewrite Htbl. split; [|exact Hbeam].
      rewrite <- (firstn_skipn (List.length tbl + 1) tbl'), Hpre.
      rewrite nth_error_app1 by (rewrite length_app; simpl; lia).
      rewrite nth_error_app2 by lia.
      now rewrite Nat.sub_diag.
    + apply Hall. lia.
Qed.

(** Claim C7, as the code has it (the primitive that fills the extended
    skeleton is [replica_placement_fast_greedy], here [fill]).  When
    [greedy_group_configs] returns, the result has at most [beam_size]
    placements; it is the entry [num_devices] of the table [beam_sols],
    and for every [cur_num] in [1 .. num_devices] the entry [cur_num]
    is the top [beam_size], by evaluator score, of the candidates
    [next_sols], which are exactly the placements obtained by appending
    a permitted last group to a parent of an earlier beam and filling
    the result with [fill]. *)
Theorem greedy_group_configs_beam (beam_size : Z) (result : list ModelPlacement) :
  greedy_group_configs Workload Evaluator fill get_scores self model_datas
                       cluster_env train_workload evaluator beam_size
  = Ok result ->
  Z.of_nat (List.length result) <= beam_size /\
  exists beam_sols,
    greedy_beams Workload Evaluator fill get_scores self model_datas
                 cluster_env train_workload evaluator beam_size
    = Ok beam_sols /\
    Py.getitem beam_sols (num_devices cluster_env) = Ok result /\
    forall cur_num, 1 <= cur_num <= num_devices cluster_env ->
      exists beam next_sols,
        nth_error beam_sols (Z.to_nat cur_num) = Some beam /\
        (forall sol,
            In sol next_sols <->
            extends_parent fill self model_datas cluster_env train_workload
                           evaluator (firstn (Z.to_nat cur_num) beam_sols)
                           cur_num sol) /\
        top_k (get_scores evaluator next_sols) next_sols beam_size beam.
Proof.
  unfold greedy_group_configs. intros H.
  apply bind_ok in H as (u & Hassert & H).
  apply bind_ok in H as (beam_sols & Hbeams & Hres).
  assert (Hk : 1 <= beam_size).
  { unfold Py.assert in Hassert.
    destruct (Z.geb_spec beam_size 1); [lia|discriminate]. }
  split.
  - (* every beam of the table has at most [beam_size] placements *)
    assert (Hall : Forall (fun b => Z.of_nat (List.length b) <= beam_size)
                          beam_sols).
    { unfold greedy_beams in Hbeams. revert Hbeams.
      apply for_loop_invariant.
      - intros cur_num tbl tbl' _ Htbl Hstep.
        apply bind_ok in Hstep as (beam & Hbeam & [= <-]).
        apply Forall_app. split; [exact Htbl|].
        constructor; [|constructor].
        unfold beam_step in Hbeam.
        apply bind_ok in Hbeam as (next_sols & _ & Hsel).
        apply (select_beam_length _ _ _ Hsel). lia.
      - constructor; [simpl; lia|constructor]. }
    rewrite List.Forall_forall in Hall.
    apply Hall. eapply getitem_in, Hres.
  - exists beam_sols. split; [exact Hbeams|]. split; [exact Hres|].
    intros cur_num Hc.
    unfold greedy_beams in Hbeams.
    replace (num_devices cluster_env + 1)
      with (1 + Z.of_nat (Z.to_nat (num_devices cluster_env))) in Hbeams by lia.
    apply greedy_beams_loop in Hbeams as [_ Hall]; [|reflexivity].
    destruct (Hall cur_num) as (beam & Hnth & Hstep); [lia|].
    unfold beam_step in Hstep.
    apply bind_ok in Hstep as (next_sols & Hcand & Hsel).
    exists beam, next_sols. split; [exact Hnth|]. split.
    + now apply candidates_spec.
    + now apply select_beam_spec.
Qed.

End GreedyProps.

(** Claim C7 fails on one device with sample collaborators: the code
    retains the placement that the fast-greedy primitive made of the
    extended skeleton, the construction in the spec's words retains
    another one, and the [on_last_group] primitive does not make the
    retained placement out of the extended skeleton. *)
Lemma greedy_group_configs_fill_counterexample :
  ModelParallelismSearch.greedy_group_configs
    unit unit sample_fast_greedy sample_get_scores
    ModelParallelismSearch.default [] one_device_cluster tt tt 3
  = Ok [ {| group_configs := [mkParallelConfig 1 1 1];
            group_models := [[0; 1]] |} ] /\
  greedy_group_configs_spec
    unit unit sample_on_last_group sample_get_scores
    ModelParallelismSearch.default [] one_device_cluster tt tt 3
  = Ok [ {| group_configs := [mkParallelConfig 1 1 1];
            group_models := [[0]] |} ] /\
  sample_on_last_group
    (ModelParallelismSearch.append_group
       (mkModelPlacement [] []) (mkParallelConfig 1 1 1))
    [] one_device_cluster tt tt 0
  <> {| group_configs := [mkParallelConfig 1 1 1];
        group_models := [[0; 1]] |}.
Proof.
  split; [vm_compute; reflexivity|].
  split; [vm_compute; reflexivity|].
  vm_compute. discriminate.
Qed.

(** Claim C7 (amended) on two devices with beam size 1. *)
Lemma greedy_group_configs_beam_witness :
  ModelParallelismSearch.greedy_group_configs
    unit unit sample_fast_greedy sample_get_scores
    ModelParallelismSearch.default [] two_device_cluster tt tt 1
  = Ok [ {| group_configs := [mkParallelConfig 1 1 1; mkParallelConfig 1 1 1];
            group_models := [[0; 1]; [0; 1]] |} ] /\
  (Z.of_nat
     (List.length
        [ {| group_configs := [mkParallelConfig 1 1 1; mkParallelConfig 1 1 1];
             group_models := [[0; 1]; [0; 1]] |} ]) <= 1).
Proof.
  assert (H : ModelParallelismSearch.greedy_group_configs
                unit unit sample_fast_greedy sample_get_scores
                ModelParallelismSearch.default [] two_device_cluster tt tt 1
              = Ok [ {| group_configs :=
                          [mkParallelConfig 1 1 1; mkParallelConfig 1 1 1];
                        group_models := [[0; 1]; [0; 1]] |} ])
    by (vm_compute; reflexivity).
  split; [exact H|].
  exact (proj1 (greedy_group_configs_beam
                  unit unit sample_fast_greedy sample_get_scores
                  ModelParallelismSearch.default [] two_device_cluster tt tt
                  1 _ H)).
Defined.


(** ** More on the capability model *)

Section CapabilityMore.

#[local] Open Scope Q_scope.

Lemma capability_loop_ge slo max_bs items : forall acc M,
  capability_loop slo max_bs items acc = Ok M -> acc <= M.
Proof.
  induction items as [|[b ls] rest IH]; intros acc M; simpl.
  - intros [= <-]. apply Qle_refl.
  - destruct (max_bs <? b)%Z; [apply IH|].
    intros H. apply bind_ok in H as (c & _ & H). apply IH in H.
    eapply Qle_trans; [apply Q.le_max_l | exact H].
Qed.

(** X1.  Whenever [compute_capability] returns, the capability is not
    negative: the running maximum starts from 0 and is scaled by a
    positive factor. *)
Theorem compute_capability_nonneg
        (model_data : ModelData) (cfg : ParallelConfig) (max_bs : Z) (f : Q) :
  compute_capability model_data cfg max_bs = Ok f -> 0 <= f.
Proof.
  unfold compute_capability.
  destruct (para_dict (profiling_result model_data) !! cfg) as [lm|].
  - intros H. apply bind_ok in H as (M & HM & [= <-]).
    apply capability_loop_ge in HM.
    apply Qmult_le_0_compat; [exact HM|].
    apply Qpower_0_le. discriminate.
  - intros [= <-]. apply Qle_refl.
Qed.

Lemma stage_undefined_raises slo ls :
  stage_defined ls = false -> exists e, stage_capability slo ls = Raise e.
Proof.
  unfold stage_defined, stage_capability.
  destruct (Py.max ls) as [m|e]; cbn [bind]; [|eauto].
  intros H. apply negb_false_iff in H.
  unfold Py.floordiv. rewrite H. cbn [bind]. eauto.
Qed.

Lemma profile_undefined_item max_bs items :
  profile_defined max_bs items = false ->
  exists b ls, In (b, ls) items /\ (b <= max_bs)%Z /\ stage_defined ls = false.
Proof.
  unfold profile_defined.
  induction items as [|[b ls] rest IH]; simpl; [discriminate|].
  intros H. apply andb_false_iff in H as [H|H].
  - apply orb_false_iff in H as [Hb Hs].
    exists b, ls. split; [now left|]. split; [|exact Hs].
    apply Z.ltb_ge in Hb. exact Hb.
  - destruct (IH H) as (b' & ls' & Hin & Hb & Hs).
    exists b', ls'. auto.
Qed.

(** X2.  For a configuration that the model's profile has,
    [compute_capability] returns exactly when every batch size up to
    [max_bs] has a non-empty latency list whose largest stage latency is
    not zero; otherwise it raises. *)
Theorem compute_capability_returns_iff
        (model_data : ModelData) (cfg : ParallelConfig) (max_bs : Z)
        (lm : LatencyMem) :
  para_dict (profiling_result model_data) !! cfg = Some lm ->
  (exists f, compute_capability model_data cfg max_bs = Ok f) <->
  profile_defined max_bs (latency lm) = true.
Proof.
  intros Hlm. unfold compute_capability. rewrite Hlm. split.
  - intros [f Hf].
    destruct (profile_defined max_bs (latency lm)) eqn:E; [reflexivity|].
    apply profile_undefined_item in E as (b & ls & Hin & Hb & Hs).
    destruct (stage_undefined_raises (slo model_data) ls Hs) as [e0 He0].
    destruct (capability_loop_raise (slo model_data) max_bs (latency lm)
                b ls e0 Hin Hb He0 0) as (e & He & _).
    rewrite He in Hf. discriminate.
  - intros Hd.
    destruct (capability_loop_spec (slo model_data) max_bs (latency lm) Hd 0)
      as (M & HM & _).
    rewrite HM. cbn [bind]. eauto.
Qed.

Lemma capability_loop_max_bs slo mb1 mb2 items :
  (mb1 <= mb2)%Z ->
  forall acc1 acc2 M2,
    acc1 <= acc2 ->
    capability_loop slo mb2 items acc2 = Ok M2 ->
    exists M1, capability_loop slo mb1 items acc1 = Ok M1 /\ M1 <= M2.
Proof.
  intros Hmb.
  induction items as [|[b ls] rest IH]; intros acc1 acc2 M2 Hacc; simpl.
  - intros [= <-]. eauto.
  - destruct (Z.ltb_spec mb2 b) as [H2|H2].
    + destruct (Z.ltb_spec mb1 b) as [_|?]; [|lia]. now apply IH.
    + intros H. apply bind_ok in H as (c & Hc & H).
      destruct (Z.ltb_spec mb1 b) as [H1|H1].
      * apply (IH acc1) in H; [exact H|].
        eapply Qle_trans; [exact Hacc | apply Q.le_max_l].
      * rewrite Hc. cbn [bind].
        apply (IH (Py.max2 acc1 c)) in H; [exact H|].
        apply Q.max_le_compat_r, Hacc.
Qed.

(** X3.  Lowering [max_bs] never raises the capability and never
    introduces an exception: if the call with [max_bs2] returns [f2] and
    [max_bs1 <= max_bs2], the call with [max_bs1] returns some
    [f1 <= f2]. *)
Theorem compute_capability_monotone_max_bs
        (model_data : ModelData) (cfg : ParallelConfig)
        (max_bs1 max_bs2 : Z) (f2 : Q) :
  (max_bs1 <= max_bs2)%Z ->
  compute_capability model_data cfg max_bs2 = Ok f2 ->
  exists f1, compute_capability model_data cfg max_bs1 = Ok f1 /\ f1 <= f2.
Proof.
  intros Hmb. unfold compute_capability.
  destruct (para_dict (profiling_result model_data) !! cfg) as [lm|].
  - intros H. apply bind_ok in H as (M2 & HM2 & [= <-]).
    destruct (capability_loop_max_bs (slo model_data) max_bs1 max_bs2
                (latency lm) Hmb 0 0 M2 (Qle_refl 0) HM2) as (M1 & HM1 & Hle).
    rewrite HM1. cbn [bind]. eexists. split; [reflexivity|].
    apply Qmult_le_compat_r; [exact Hle|].
    apply Qpower_0_le. discriminate.
  - intros [= <-]. eexists. split; [reflexivity|apply Qle_refl].
Qed.

(** X4.  [compute_max_stage_mem] by cases: for a configuration that
    the profile lacks it returns [2 * mem_budget], which exceeds a
    positive budget; for one that the profile has it returns the
    largest entry of [weight_mem], and raises [ValueError] when
    [weight_mem] is empty. *)
Theorem compute_max_stage_mem_cases
        (self : ModelParallelismILP.t) (model_data : ModelData)
        (cfg : ParallelConfig) (mem_budget : Q) :
  match para_dict (profiling_result model_data) !! cfg with
  | None =>
      ModelParallelismILP.compute_max_stage_mem self model_data cfg mem_budget
      = Ok (mem_budget * 2) /\
      (mem_budget * 2 == 2 * mem_budget) /\
      (0 < mem_budget -> mem_budget < mem_budget * 2)
  | Some lm =>
      match weight_mem lm with
      | [] =>
          ModelParallelismILP.compute_max_stage_mem
            self model_data cfg mem_budget = Raise ValueError
      | _ :: _ =>
          exists d,
            ModelParallelismILP.compute_max_stage_mem
              self model_data cfg mem_budget = Ok d /\
            is_maximum (weight_mem lm) d
      end
  end.
Proof.
  unfold ModelParallelismILP.compute_max_stage_mem.
  destruct (para_dict (profiling_result model_data) !! cfg) as [lm|].
  - destruct (weight_mem lm) as [|w ws] eqn:E; [reflexivity|].
    eexists. split; [reflexivity|]. now apply max_is_maximum.
  - split; [reflexivity|]. split; [ring|]. intros H. lra.
Qed.

End CapabilityMore.

(** X1 on the half-second model. *)
Lemma compute_capability_nonneg_witness :
  compute_capability half_second_model cfg_1_1_1 1
  = Ok ((2 # 1) * (99 # 100) ^ 1)%Q /\
  (0 <= (2 # 1) * (99 # 100) ^ 1)%Q.
Proof.
  split; [reflexivity|].
  apply (compute_capability_nonneg half_second_model cfg_1_1_1 1).
  reflexivity.
Defined.

(** X2 on the half-second model. *)
Lemma compute_capability_returns_iff_witness :
  para_dict (profiling_result half_second_model) !! cfg_1_1_1
  = Some half_second_entry /\
  ((exists f, compute_capability half_second_model cfg_1_1_1 1 = Ok f) <->
   profile_defined 1 (latency half_second_entry) = true).
Proof.
  split; [reflexivity|].
  apply (compute_capability_returns_iff
           half_second_model cfg_1_1_1 1 half_second_entry).
  reflexivity.
Defined.

(** X3 on the half-second model with [max_bs] 0 and 1. *)
Lemma compute_capability_monotone_max_bs_witness :
  0 <= 1 /\
  compute_capability half_second_model cfg_1_1_1 1
  = Ok ((2 # 1) * (99 # 100) ^ 1)%Q /\
  exists f1, compute_capability half_second_model cfg_1_1_1 0 = Ok f1 /\
             (f1 <= (2 # 1) * (99 # 100) ^ 1)%Q.
Proof.
  split; [lia|]. split; [reflexivity|].
  apply (compute_capability_monotone_max_bs half_second_model cfg_1_1_1 0 1);
    [lia|reflexivity].
Defined.


(** ** More on the enumeration of skeletons *)

Lemma zsum_repeat {A} (f : A -> Z) (x : A) (n : nat) :
  zsum f (repeat x n) = Z.of_nat n * f x.
Proof. induction n as [|n IH]; simpl zsum; [lia|]. rewrite IH. lia. Qed.

Lemma zsum_app {A} (f : A -> Z) (l1 l2 : list A) :
  zsum f (l1 ++ l2) = zsum f l1 + zsum f l2.
Proof. induction l1 as [|x l1 IH]; simpl; [reflexivity|]. rewrite IH. lia. Qed.

Lemma get_factors_one n : 0 < n -> exists l, get_factors n = 1 :: l.
Proof.
  intros H. unfold get_factors. rewrite range_from_cons by lia.
  cbn [List.filter]. rewrite Z.mod_1_r. cbn. eauto.
Qed.

Section EnumerateMore.

Import ModelParallelismSearch.

Variable self : ModelParallelismSearch.t.
Variable cluster_env : ClusterEnv.

Lemma enumerate_group_configs_zero_per_node :
  0 < num_devices cluster_env -> num_devices_per_node cluster_env = 0 ->
  enumerate_group_configs self cluster_env = Raise ZeroDivisionError.
Proof.
  intros Hnd Hpn. unfold enumerate_group_configs.
  destruct (get_factors_one _ Hnd) as [l ->]. rewrite Hpn. reflexivity.
Qed.

Lemma is_skeleton_devices sk :
  0 < num_devices cluster_env ->
  is_skeleton self cluster_env sk ->
  devices_used sk = num_devices cluster_env /\
  List.length (group_models sk) = List.length (group_configs sk) /\
  Forall (fun models => models = []) (group_models sk).
Proof.
  intros Hnd (gs & op & pp & Hgs & [q Hq] & _ & Hpp & Hop & Heq & _ & _ & ->).
  unfold devices_used. cbn [group_configs group_models].
  rewrite zsum_repeat, !repeat_length. split; [|split; [reflexivity|]].
  - change (group_size (mkParallelConfig 1 op pp)) with (1 * op * pp).
    revert Hnd. rewrite Hq, Z.div_mul by lia. intros Hnd.
    assert (0 <= q) by nia. nia.
  - apply List.Forall_forall. intros models Hin.
    now apply repeat_spec in Hin.
Qed.

(** X5.  On a cluster with at least one device, every skeleton that
    [enumerate_group_configs] returns uses exactly [num_devices]
    devices and has one model list per group, each of them empty. *)
Theorem enumerate_group_configs_devices
        (sols : list ModelPlacement) (sk : ModelPlacement) :
  0 < num_devices cluster_env ->
  enumerate_group_configs self cluster_env = Ok sols ->
  In sk sols ->
  devices_used sk = num_devices cluster_env /\
  List.length (group_models sk) = List.length (group_configs sk) /\
  Forall (fun models => models = []) (group_models sk).
Proof.
  intros Hnd H Hin.
  destruct (Z.eq_dec (num_devices_per_node cluster_env) 0) as [Hpn|Hpn].
  - rewrite enumerate_group_configs_zero_per_node in H by assumption.
    discriminate.
  - rewrite (enumerate_group_configs_eq self cluster_env Hpn) in H.
    injection H as <-.
    apply (is_skeleton_devices sk Hnd).
    now apply (in_skeletons self cluster_env sk Hnd).
Qed.

(** X6.  On a cluster with at least one device,
    [enumerate_group_configs] raises [ZeroDivisionError] when
    [num_devices_per_node] is 0 and returns a list in every other
    case. *)
Theorem enumerate_group_configs_returns :
  0 < num_devices cluster_env ->
  if num_devices_per_node cluster_env =? 0
  then enumerate_group_configs self cluster_env = Raise ZeroDivisionError
  else exists sols, enumerate_group_configs self cluster_env = Ok sols.
Proof.
  intros Hnd.
  destruct (Z.eqb_spec (num_devices_per_node cluster_env) 0) as [Hpn|Hpn].
  - now apply enumerate_group_configs_zero_per_node.
  - eexists. now apply enumerate_group_configs_eq.
Qed.

End EnumerateMore.

(** X5 on sixteen devices, eight per node, default limits. *)
Lemma enumerate_group_configs_devices_witness :
  0 < num_devices two_node_cluster /\
  exists sols,
    ModelParallelismSearch.enumerate_group_configs
      ModelParallelismSearch.default two_node_cluster = Ok sols /\
    In (ModelParallelismSearch.skeleton 1 1 16) sols /\
    devices_used (ModelParallelismSearch.skeleton 1 1 16) = 16 /\
    List.length (group_models (ModelParallelismSearch.skeleton 1 1 16))
    = List.length (group_configs (ModelParallelismSearch.skeleton 1 1 16)) /\
    Forall (fun models => models = [])
           (group_models (ModelParallelismSearch.skeleton 1 1 16)).
Proof.
  split; [reflexivity|].
  eexists. split; [vm_compute; reflexivity|].
  split; [left; reflexivity|].
  eapply (enumerate_group_configs_devices
            ModelParallelismSearch.default two_node_cluster);
    [reflexivity | vm_compute; reflexivity | left; reflexivity].
Defined.

(** X6 on sixteen devices, eight per node, default limits. *)
Lemma enumerate_group_configs_returns_witness :
  0 < num_devices two_node_cluster /\
  exists sols,
    ModelParallelismSearch.enumerate_group_configs
      ModelParallelismSearch.default two_node_cluster = Ok sols.
Proof.
  split; [reflexivity|].
  apply (enumerate_group_configs_returns
           ModelParallelismSearch.default two_node_cluster).
  reflexivity.
Defined.

(** ** More on the greedy construction *)

Lemma for_loop_total {A S : Type} (body : A -> S -> result S) (l : list A) :
  (forall x s, In x l -> exists s', body x s = Ok s') ->
  forall s, exists s', for_loop body l s = Ok s'.
Proof.
  induction l as [|x l IH]; intros Hbody s; simpl; [eauto|].
  destruct (Hbody x s (or_introl eq_refl)) as [s1 ->]. cbn [bind].
  apply IH. intros y s2 Hy. apply Hbody. now right.
Qed.

Lemma for_each_total {A B : Type} (f : A -> result B) (l : list A) :
  (forall x, In x l -> exists y, f x = Ok y) ->
  exists ys, for_each f l = Ok ys.
Proof.
  induction l as [|x l IH]; intros Hf; simpl; [eauto|].
  destruct (Hf x (or_introl eq_refl)) as [y ->]. cbn [bind].
  destruct IH as [ys ->]; [intros; apply Hf; now right|].
  cbn [bind]. eauto.
Qed.

Lemma getitem_nonneg {A : Type} (l : list A) (i : Z) (x : A) :
  0 <= i -> Py.getitem l i = Ok x -> nth_error l (Z.to_nat i) = Some x.
Proof.
  intros Hi. unfold Py.getitem.
  destruct (Z.ltb_spec i 0) as [?|_]; [lia|].
  destruct (_ || _); [discriminate|].
  destruct (nth_error l (Z.to_nat i)); [|discriminate].
  now intros [= <-].
Qed.

Lemma getitem_total {A : Type} (l : list A) (i : Z) :
  0 <= i < Z.of_nat (List.length l) -> exists x, Py.getitem l i = Ok x.
Proof.
  intros Hi. unfold Py.getitem.
  destruct (Z.ltb_spec i 0) as [?|_]; [lia|].
  destruct (Z.ltb_spec i 0) as [?|_]; [lia|].
  destruct (Z.leb_spec (Z.of_nat (List.length l)) i) as [?|_]; [lia|].
  cbn [orb].
  destruct (nth_error l (Z.to_nat i)) eqn:E; [eauto|].
  apply nth_error_None in E. lia.
Qed.

(** The last group size never exceeds [cur_num]. *)
Lemma last_group_size_bound (cur_num pn lgs : Z) :
  1 <= cur_num -> 1 <= lgs <= (cur_num - 1) mod pn + 1 ->
  lgs <= cur_num /\ (0 < pn -> lgs <= pn).
Proof.
  intros Hc Hl.
  destruct (Z.eq_dec pn 0) as [->|Hpn].
  - rewrite Z.mod_0_r in Hl. lia.
  - destruct (Z_lt_le_dec 0 pn) as [Hpos|Hneg].
    + pose proof (Z.mod_pos_bound (cur_num - 1) pn Hpos).
      pose proof (Z.mod_le (cur_num - 1) pn ltac:(lia) Hpos). lia.
    + pose proof (Z.mod_neg_bound (cur_num - 1) pn ltac:(lia)). lia.
Qed.

Section GreedyMore.

Import ModelParallelismSearch.

Variables Workload Evaluator : Type.
Variable fill :
  ModelPlacement -> list ModelData -> ClusterEnv -> Workload -> Evaluator ->
  Z -> ModelPlacement.
Variable get_scores : Evaluator -> list ModelPlacement -> list Q.
Variable self : ModelParallelismSearch.t.
Variable model_datas : list ModelData.
Variable cluster_env : ClusterEnv.
Variable train_workload : Workload.
Variable evaluator : Evaluator.


(** An induction principle for the beam table: what holds of the first
    entry and is carried from the earlier entries to the next beam by a
    step of the loop holds of every entry up to [num_devices]. *)
Lemma greedy_beams_entries (P : Z -> list ModelPlacement -> Prop)
      beam_size beam_sols :
  P 0 [mkModelPlacement [] []] ->
  (forall cur_num tbl beam,
      1 <= cur_num <= num_devices cluster_env ->
      (forall k, 0 <= k < cur_num ->
                 exists parents,
                   nth_error tbl (Z.to_nat k) = Some parents /\ P k parents) ->
      beam_step Workload Evaluator fill get_scores self model_datas
                cluster_env train_workload evaluator beam_size tbl cur_num
      = Ok beam ->
      P cur_num beam) ->
  greedy_beams Workload Evaluator fill get_scores self model_datas
               cluster_env train_workload evaluator beam_size = Ok beam_sols ->
  forall (n : nat) beam,
    Z.of_nat n <= num_devices cluster_env ->
    nth_error beam_sols n = Some beam -> P (Z.of_nat n) beam.
Proof.
  intros H0 Hstep H. unfold greedy_beams in H.
  replace (Py.range_from 1 (num_devices cluster_env + 1))
    with (Py.range_from 1 (1 + Z.of_nat (Z.to_nat (num_devices cluster_env))))
    in H by (unfold Py.range_from; do 2 f_equal; lia).
  apply greedy_beams_loop in H as [Hhd Hall]; [|reflexivity].
  assert (Hex : forall n : nat,
             Z.of_nat n <= num_devices cluster_env ->
             exists beam, nth_error beam_sols n = Some beam /\
                          P (Z.of_nat n) beam).
  { intros n. induction n as [n IHn] using (well_founded_induction lt_wf).
    intros Hn. destruct n as [|n].
    - exists [mkModelPlacement [] []]. split; [|exact H0].
      cbn [List.length] in Hhd.
      destruct beam_sols as [|b bs]; [discriminate|].
      simpl in Hhd. destruct bs; injection Hhd as ->; reflexivity.
    - destruct (Hall (Z.of_nat (S n))) as (beam & Hnth & Hbeam); [lia|].
      rewrite Nat2Z.id in Hnth, Hbeam.
      exists beam. split; [exact Hnth|].
      refine (Hstep _ _ _ _ _ Hbeam); [lia|].
      intros k Hk.
      destruct (IHn (Z.to_nat k) ltac:(lia) ltac:(lia)) as (parents & Hp & HP).
      exists parents. rewrite nth_error_firstn.
      destruct (Nat.ltb_spec (Z.to_nat k) (S n)) as [_|?]; [|lia].
      split; [exact Hp|]. now replace k with (Z.of_nat (Z.to_nat k)) by lia. }
  intros n beam Hn Hnth.
  destruct (Hex n Hn) as (beam' & Hnth' & HP).
  rewrite Hnth in Hnth'. now injection Hnth' as <-.
Qed.
(** What the loop lets into a placement: groups [(1, op, pp)] within the
    limits that fit a node. *)
Let permitted (c : ParallelConfig) : Prop :=
  dp c = 1 /\ 1 <= pp c <= max_pp self /\ 1 <= op c <= max_op self /\
  (0 < num_devices_per_node cluster_env ->
   group_size c <= num_devices_per_node cluster_env).

Let good (n : Z) (sol : ModelPlacement) : Prop :=
  devices_used sol = n /\ Forall permitted (group_configs sol).

Hypothesis fill_keeps_configs :
  forall sol mds env w ev v,
    group_configs (fill sol mds env w ev v) = group_configs sol.

Lemma extends_parent_good tbl cur_num sol :
  1 <= cur_num ->
  (forall k parents parent,
      0 <= k < cur_num -> nth_error tbl (Z.to_nat k) = Some parents ->
      In parent parents -> good k parent) ->
  extends_parent fill self model_datas cluster_env train_workload evaluator
                 tbl cur_num sol ->
  good cur_num sol.
Proof.
  intros Hc IH
         (lgs & o & p & parents & parent & Hl & Hp & Ho & Heq & Hmp & Hmo
          & Hget & Hin & ->).
  destruct (last_group_size_bound _ _ _ Hc Hl) as [Hle Hpn].
  apply getitem_nonneg in Hget; [|lia].
  destruct (IH (cur_num - lgs) parents parent ltac:(lia) Hget Hin)
    as [Hdev Hall].
  unfold good, devices_used. rewrite fill_keeps_configs.
  cbn [append_group group_configs]. split.
  - rewrite zsum_app. fold (devices_used parent). rewrite Hdev.
    simpl. unfold group_size. simpl. lia.
  - apply Forall_app. split; [exact Hall|].
    constructor; [|constructor].
    unfold permitted, group_size. simpl. repeat split; lia.
Qed.

Lemma beam_step_good beam_size tbl cur_num beam :
  1 <= cur_num ->
  (forall k parents parent,
      0 <= k < cur_num -> nth_error tbl (Z.to_nat k) = Some parents ->
      In parent parents -> good k parent) ->
  beam_step Workload Evaluator fill get_scores self model_datas cluster_env
            train_workload evaluator beam_size tbl cur_num = Ok beam ->
  forall sol, In sol beam -> good cur_num sol.
Proof.
  intros Hc IH Hstep sol Hin. unfold beam_step in Hstep.
  apply bind_ok in Hstep as (next_sols & Hcand & Hsel).
  apply select_beam_spec in Hsel as (idxs & Hall & _).
  assert (Hnext : In sol next_sols).
  { clear - Hall Hin. induction Hall as [|i s idxs beam Hi _ IHall];
      [destruct Hin|].
    destruct Hin as [<-|Hin]; [eapply nth_error_In, Hi | now apply IHall]. }
  eapply candidates_spec in Hnext; [|exact Hcand].
  now apply (extends_parent_good tbl cur_num sol Hc IH).
Qed.


(** Every placement of the beam table uses as many devices as its
    position says. *)
Lemma greedy_beams_good beam_size beam_sols :
  greedy_beams Workload Evaluator fill get_scores self model_datas
               cluster_env train_workload evaluator beam_size = Ok beam_sols ->
  forall (n : nat) beam,
    Z.of_nat n <= num_devices cluster_env ->
    nth_error beam_sols n = Some beam ->
    forall sol, In sol beam -> good (Z.of_nat n) sol.
Proof.
  apply (greedy_beams_entries
           (fun k beam => forall sol, In sol beam -> good k sol)).
  - intros sol [<-|[]]. split; [reflexivity|constructor].
  - intros cur_num tbl beam Hc IH Hbeam.
    apply (beam_step_good beam_size tbl cur_num beam); [lia| |exact Hbeam].
    intros k parents parent Hk Hnth Hin.
    destruct (IH k Hk) as (parents' & Hnth' & HP).
    rewrite Hnth in Hnth'. injection Hnth' as <-. now apply HP.
Qed.

(** X7.  If the primitive that fills a placement leaves its group
    configurations as they are, every placement that
    [greedy_group_configs] returns on [num_devices >= 0] uses exactly
    [num_devices] devices, and each of its groups is [(1, op, pp)] with
    [1 <= pp <= max_pp], [1 <= op <= max_op] and a size of at most one
    node. *)
Theorem greedy_group_configs_devices
        (beam_size : Z) (result : list ModelPlacement) (sol : ModelPlacement) :
  0 <= num_devices cluster_env ->
  greedy_group_configs Workload Evaluator fill get_scores self model_datas
                       cluster_env train_workload evaluator beam_size
  = Ok result ->
  In sol result ->
  devices_used sol = num_devices cluster_env /\
  Forall (fun c =>
            dp c = 1 /\ 1 <= pp c <= max_pp self /\ 1 <= op c <= max_op self /\
            (0 < num_devices_per_node cluster_env ->
             group_size c <= num_devices_per_node cluster_env))
         (group_configs sol).
Proof.
  intros Hnd H Hin. unfold greedy_group_configs in H.
  apply bind_ok in H as (u & _ & H).
  apply bind_ok in H as (beam_sols & Hbeams & Hres).
  apply getitem_nonneg in Hres; [|exact Hnd].
  destruct (greedy_beams_good beam_size beam_sols Hbeams
              (Z.to_nat (num_devices cluster_env)) result
              ltac:(lia) Hres sol Hin) as [Hdev Hall].
  split; [lia|exact Hall].
Qed.


Lemma candidates_total tbl cur_num :
  1 <= cur_num -> Z.of_nat (List.length tbl) = cur_num ->
  num_devices_per_node cluster_env <> 0 ->
  exists next_sols,
    candidates Workload Evaluator fill self model_datas cluster_env
               train_workload evaluator tbl cur_num = Ok next_sols.
Proof.
  intros Hc Hlen Hpn. unfold candidates, Py.int_mod.
  destruct (Z.eqb_spec (num_devices_per_node cluster_env) 0) as [?|_];
    [contradiction|].
  cbn [bind]. apply for_loop_total.
  intros lgs acc Hlgs. apply in_range_from in Hlgs.
  destruct (last_group_size_bound cur_num (num_devices_per_node cluster_env)
              lgs Hc ltac:(lia)) as [Hle _].
  apply for_loop_total.
  intros pp acc1 Hpp. apply in_get_factors in Hpp as [Hpp _].
  unfold Py.int_floordiv.
  destruct (Z.eqb_spec pp 0) as [?|_]; [lia|]. cbn [bind].
  destruct (_ || _); [eauto|].
  destruct (getitem_total tbl (cur_num - lgs) ltac:(lia)) as [sols ->].
  cbn [bind]. apply for_loop_total. intros; eauto.
Qed.

Lemma candidates_raise tbl cur_num :
  num_devices_per_node cluster_env = 0 ->
  candidates Workload Evaluator fill self model_datas cluster_env
             train_workload evaluator tbl cur_num = Raise ZeroDivisionError.
Proof. intros Hpn. unfold candidates, Py.int_mod. now rewrite Hpn. Qed.

Hypothesis get_scores_length :
  forall sols, List.length (get_scores evaluator sols) = List.length sols.

Lemma select_beam_total next_sols beam_size :
  exists beam,
    select_beam Evaluator get_scores evaluator next_sols beam_size = Ok beam.
Proof.
  unfold select_beam. apply for_each_total. intros i Hi.
  destruct (firstn_rev_argsort (get_scores evaluator next_sols)
                               (Z.to_nat beam_size)) as (_ & Hlt & _).
  apply Hlt in Hi. rewrite get_scores_length in Hi.
  unfold Py.index. destruct (nth_error next_sols i) eqn:E; [eauto|].
  apply nth_error_None in E. lia.
Qed.

Lemma greedy_beams_total beam_size (n : nat) : forall lo tbl,
  1 <= lo -> Z.of_nat (List.length tbl) = lo ->
  num_devices_per_node cluster_env <> 0 ->
  exists tbl',
    for_loop
      (fun cur_num beam_sols =>
         beam <- beam_step Workload Evaluator fill get_scores self model_datas
                           cluster_env train_workload evaluator beam_size
                           beam_sols cur_num ;
         Ok (beam_sols ++ [beam]))
      (Py.range_from lo (lo + Z.of_nat n)) tbl = Ok tbl' /\
    Z.of_nat (List.length tbl') = lo + Z.of_nat n.
Proof.
  induction n as [|n IH]; intros lo tbl Hlo Hlen Hpn.
  - rewrite range_from_nil by lia. exists tbl. split; [reflexivity|lia].
  - rewrite range_from_cons by lia. cbn [for_loop].
    unfold beam_step at 1.
    destruct (candidates_total tbl lo Hlo Hlen Hpn) as [next_sols ->].
    cbn [bind].
    destruct (select_beam_total next_sols beam_size) as [beam ->].
    cbn [bind].
    replace (lo + Z.of_nat (S n)) with ((lo + 1) + Z.of_nat n) by lia.
    apply IH; [lia| |exact Hpn].
    rewrite length_app. simpl. lia.
Qed.

(** X8.  The outcome of [greedy_group_configs] on [num_devices >= 0]
    when [get_scores] gives one score per placement: [AssertionError]
    for a beam size below 1; [ZeroDivisionError] when there is a device
    and [num_devices_per_node] is 0; a result in every other case. *)
Theorem greedy_group_configs_outcome (beam_size : Z) :
  0 <= num_devices cluster_env ->
  if beam_size <? 1 then
    greedy_group_configs Workload Evaluator fill get_scores self model_datas
                         cluster_env train_workload evaluator beam_size
    = Raise AssertionError
  else if (1 <=? num_devices cluster_env)
          && (num_devices_per_node cluster_env =? 0) then
    greedy_group_configs Workload Evaluator fill get_scores self model_datas
                         cluster_env train_workload evaluator beam_size
    = Raise ZeroDivisionError
  else
    exists result,
      greedy_group_configs Workload Evaluator fill get_scores self model_datas
                           cluster_env train_workload evaluator beam_size
      = Ok result.
Proof.
  intros Hnd. unfold greedy_group_configs, Py.assert.
  destruct (Z.ltb_spec beam_size 1) as [Hb|Hb].
  - destruct (Z.geb_spec beam_size 1); [lia|reflexivity].
  - destruct (Z.geb_spec beam_size 1); [|lia]. cbn [bind].
    unfold greedy_beams.
    destruct (Z.leb_spec 1 (num_devices cluster_env)) as [H1|H1]; cbn [andb].
    + destruct (Z.eqb_spec (num_devices_per_node cluster_env) 0) as [Hpn|Hpn].
      * rewrite range_from_cons by lia. cbn [for_loop].
        unfold beam_step at 1. rewrite candidates_raise by exact Hpn.
        reflexivity.
      * replace (num_devices cluster_env + 1)
          with (1 + Z.of_nat (Z.to_nat (num_devices cluster_env))) by lia.
        destruct (greedy_beams_total beam_size
                    (Z.to_nat (num_devices cluster_env)) 1
                    [[mkModelPlacement [] []]] ltac:(lia) eq_refl Hpn)
          as (tbl' & -> & Hlen).
        cbn [bind]. apply getitem_total. lia.
    + rewrite range_from_nil by lia. cbn [for_loop bind].
      apply getitem_total. simpl. lia.
Qed.

Lemma getitem_of_nth_error {A : Type} (l : list A) (i : Z) (x : A) :
  0 <= i -> nth_error l (Z.to_nat i) = Some x -> Py.getitem l i = Ok x.
Proof.
  intros Hi E. unfold Py.getitem.
  assert (Hlt : (Z.to_nat i < List.length l)%nat)
    by (apply nth_error_Some; congruence).
  destruct (Z.ltb_spec i 0) as [?|_]; [lia|].
  destruct (Z.ltb_spec i 0) as [?|_]; [lia|].
  destruct (Z.leb_spec (Z.of_nat (List.length l)) i) as [?|_]; [lia|].
  cbn [orb]. now rewrite E.
Qed.

Lemma beam_step_nonempty beam_size tbl cur_num beam :
  1 <= beam_size -> 1 <= cur_num ->
  0 < num_devices_per_node cluster_env ->
  1 <= max_pp self -> 1 <= max_op self ->
  (exists parents, nth_error tbl (Z.to_nat (cur_num - 1)) = Some parents /\
                   parents <> []) ->
  beam_step Workload Evaluator fill get_scores self model_datas cluster_env
            train_workload evaluator beam_size tbl cur_num = Ok beam ->
  beam <> [].
Proof.
  intros Hb Hc Hpn Hmp Hmo (parents & Hnth & Hne) Hstep.
  unfold beam_step in Hstep.
  apply bind_ok in Hstep as (next_sols & Hcand & Hsel).
  assert (Hnext : next_sols <> []).
  { destruct parents as [|parent ps]; [contradiction|].
    pose proof (candidates_spec _ _ _ _ _ _ _ _ _ _ _ Hcand) as Hspec.
    intros ->.
    apply (proj2 (Hspec (fill (append_group parent (mkParallelConfig 1 1 1))
                              model_datas cluster_env train_workload evaluator
                              (verbose self)))).
    exists 1, 1, 1, (parent :: ps), parent.
    pose proof (Z.mod_pos_bound (cur_num - 1)
                                (num_devices_per_node cluster_env) Hpn).
    repeat split; try lia.
    - apply getitem_of_nth_error; [lia|exact Hnth].
    - now left. }
  apply select_beam_spec in Hsel as (idxs & Hall & _ & _ & Hlen & _).
  apply Forall2_length in Hall.
  rewrite get_scores_length in Hlen.
  destruct next_sols; [contradiction|].
  destruct beam; [|discriminate]. simpl in *. lia.
Qed.

(** X9.  With one score per placement, [num_devices >= 0], a positive
    [num_devices_per_node] and limits [max_pp >= 1], [max_op >= 1], the
    list that [greedy_group_configs] returns is not empty. *)
Theorem greedy_group_configs_nonempty
        (beam_size : Z) (result : list ModelPlacement) :
  0 <= num_devices cluster_env ->
  0 < num_devices_per_node cluster_env ->
  1 <= max_pp self -> 1 <= max_op self ->
  greedy_group_configs Workload Evaluator fill get_scores self model_datas
                       cluster_env train_workload evaluator beam_size
  = Ok result ->
  result <> [].
Proof.
  intros Hnd Hpn Hmp Hmo H. unfold greedy_group_configs in H.
  apply bind_ok in H as (u & Hassert & H).
  assert (Hb : 1 <= beam_size).
  { unfold Py.assert in Hassert.
    destruct (Z.geb_spec beam_size 1); [lia|discriminate]. }
  apply bind_ok in H as (beam_sols & Hbeams & Hres).
  apply getitem_nonneg in Hres; [|exact Hnd].
  refine (greedy_beams_entries (fun _ beam => beam <> []) beam_size beam_sols
            _ _ Hbeams (Z.to_nat (num_devices cluster_env)) result _ Hres);
    [discriminate| |lia].
  intros cur_num tbl beam Hc IH Hstep.
  apply (beam_step_nonempty beam_size tbl cur_num beam); try assumption;
    try lia.
  apply IH. lia.
Qed.

End GreedyMore.

(** X7 on two devices with the sample collaborators. *)
Lemma greedy_group_configs_devices_witness :
  0 <= num_devices two_device_cluster /\
  ModelParallelismSearch.greedy_group_configs
    unit unit sample_fast_greedy sample_get_scores
    ModelParallelismSearch.default [] two_device_cluster tt tt 1
  = Ok [ {| group_configs := [mkParallelConfig 1 1 1; mkParallelConfig 1 1 1];
            group_models := [[0; 1]; [0; 1]] |} ] /\
  devices_used
    {| group_configs := [mkParallelConfig 1 1 1; mkParallelConfig 1 1 1];
       group_models := [[0; 1]; [0; 1]] |}
  = num_devices two_device_cluster.
Proof.
  split; [discriminate|].
  split; [vm_compute; reflexivity|].
  refine (proj1 (greedy_group_configs_devices
                   unit unit sample_fast_greedy sample_get_scores
                   ModelParallelismSearch.default [] two_device_cluster tt tt
                   _ 1 _ _ _ _ _)).
  - intros; reflexivity.
  - discriminate.
  - vm_compute; reflexivity.
  - left; reflexivity.
Defined.

(** X8 on two devices with the sample collaborators. *)
Lemma greedy_group_configs_outcome_witness :
  (forall sols, List.length (sample_get_scores tt sols) = List.length sols) /\
  0 <= num_devices two_device_cluster /\
  exists result,
    ModelParallelismSearch.greedy_group_configs
      unit unit sample_fast_greedy sample_get_scores
      ModelParallelismSearch.default [] two_device_cluster tt tt 1
    = Ok result.
Proof.
  split; [intros sols; apply length_map|].
  split; [discriminate|].
  apply (greedy_group_configs_outcome
           unit unit sample_fast_greedy sample_get_scores
           ModelParallelismSearch.default [] two_device_cluster tt tt
           (fun sols => length_map _ sols) 1).
  discriminate.
Defined.

(** X9 on two devices with the sample collaborators. *)
Lemma greedy_group_configs_nonempty_witness :
  ModelParallelismSearch.greedy_group_configs
    unit unit sample_fast_greedy sample_get_scores
    ModelParallelismSearch.default [] two_device_cluster tt tt 1
  = Ok [ {| group_configs := [mkParallelConfig 1 1 1; mkParallelConfig 1 1 1];
            group_models := [[0; 1]; [0; 1]] |} ] /\
  [ {| group_configs := [mkParallelConfig 1 1 1; mkParallelConfig 1 1 1];
       group_models := [[0; 1]; [0; 1]] |} ] <> [].
Proof.
  split; [vm_compute; reflexivity|].
  refine (greedy_group_configs_nonempty
            unit unit sample_fast_greedy sample_get_scores
            ModelParallelismSearch.default [] two_device_cluster tt tt
            _ 1 _ _ _ _ _ _).
  - intros sols; apply length_map.
  - discriminate.
  - reflexivity.
  - discriminate.
  - discriminate.
  - vm_compute; reflexivity.
Defined.


(** ** The search of [ModelParallelismSearch.solve_placement] *)

Section Argmax.

Import ModelParallelismSearch.

#[local] Open Scope Q_scope.

Lemma argmax_from_spec scores' : forall pre best best_idx,
  (best_idx < List.length pre)%nat ->
  nth best_idx pre 0 = best ->
  (forall j, (j < List.length pre)%nat -> nth j pre 0 <= best) ->
  (forall j, (j < best_idx)%nat -> nth j pre 0 < best) ->
  let k := argmax_from scores' (List.length pre) best best_idx in
  let l := (pre ++ scores')%list in
  (k < List.length l)%nat /\
  (forall j, (j < List.length l)%nat -> nth j l 0 <= nth k l 0) /\
  (forall j, (j < k)%nat -> nth j l 0 < nth k l 0).
Proof.
  induction scores' as [|x scores' IH]; intros pre best best_idx Hidx Hbest Hle Hlt;
    cbn zeta.
  - cbn [argmax_from]. rewrite app_nil_r, Hbest. auto.
  - cbn [argmax_from].
    replace (pre ++ x :: scores')%list with ((pre ++ [x]) ++ scores')%list
      by (now rewrite <- app_assoc).
    replace (S (List.length pre)) with (List.length (pre ++ [x]))
      by (rewrite length_app; simpl; lia).
    assert (Hpre : forall j, (j < List.length pre)%nat ->
                             nth j (pre ++ [x]) 0 = nth j pre 0)
      by (intros j Hj; now apply app_nth1).
    assert (Hlast : nth (List.length pre) (pre ++ [x]) 0 = x)
      by (rewrite app_nth2, Nat.sub_diag by lia; reflexivity).
    destruct (Qle_bool x best) eqn:E.
    + apply Qle_bool_iff in E. apply IH.
      * rewrite length_app. simpl. lia.
      * rewrite Hpre by exact Hidx. exact Hbest.
      * intros j Hj. rewrite length_app in Hj. simpl in Hj.
        destruct (Nat.eq_dec j (List.length pre)) as [->|Hne].
        -- now rewrite Hlast.
        -- rewrite Hpre by lia. apply Hle. lia.
      * intros j Hj. rewrite Hpre by lia. now apply Hlt.
    + assert (Hx : best < x).
      { apply Qnot_le_lt. intros Hc. apply Qle_bool_iff in Hc. congruence. }
      apply IH.
      * rewrite length_app. simpl. lia.
      * exact Hlast.
      * intros j Hj. rewrite length_app in Hj. simpl in Hj.
        destruct (Nat.eq_dec j (List.length pre)) as [->|Hne].
        -- rewrite Hlast. apply Qle_refl.
        -- rewrite Hpre by lia. apply Qlt_le_weak.
           eapply Qle_lt_trans; [apply Hle; lia|exact Hx].
      * intros j Hj. rewrite Hpre by lia.
        eapply Qle_lt_trans; [apply Hle; lia|exact Hx].
Qed.

(** [np.argmax] gives the first position of a largest score. *)
Lemma argmax_spec scores k :
  argmax scores = Ok k ->
  (k < List.length scores)%nat /\
  (forall j, (j < List.length scores)%nat -> nth j scores 0 <= nth k scores 0) /\
  (forall j, (j < k)%nat -> nth j scores 0 < nth k scores 0).
Proof.
  destruct scores as [|x scores']; [discriminate|].
  intros [= <-].
  apply (argmax_from_spec scores' [x] x 0%nat).
  - simpl. lia.
  - reflexivity.
  - intros j Hj. simpl in Hj. replace j with 0%nat by lia. apply Qle_refl.
  - intros j Hj. lia.
Qed.

Lemma argmax_total scores :
  scores <> [] -> exists k, argmax scores = Ok k.
Proof. destruct scores; [contradiction|]. simpl. eauto. Qed.

End Argmax.

Section SearchSolve.

Import ModelParallelismSearch.

#[local] Open Scope Q_scope.

Variables Workload Evaluator : Type.
Variable gen_train_workload : list ModelData -> Workload.
Variable PlacementEvaluator :
  list ModelData -> ClusterEnv -> Workload -> string -> bool -> Evaluator.
Variable fill :
  ModelPlacement -> list ModelData -> ClusterEnv -> Workload ->
  option Evaluator -> Z -> ModelPlacement.
Variable get_scores : Evaluator -> list ModelPlacement -> list Q.
Variable evolutionary_search :
  list (option ModelPlacement) -> list ModelData -> ClusterEnv -> Evaluator ->
  Z -> Z -> ModelPlacement.

Variable evaluator : Evaluator.
Variable cur_sols : list ModelPlacement.

Let scores := get_scores evaluator cur_sols.
Let round := search_round Evaluator get_scores evaluator cur_sols.

Lemma search_round_spec state state' :
  round state = Ok state' ->
  exists k,
    argmax scores = Ok k /\
    ((fst state < nth k scores 0 /\
      exists sol, nth_error cur_sols k = Some sol /\
                  state' = (nth k scores 0, Some sol)) \/
     (nth k scores 0 <= fst state /\ state' = state)).
Proof.
  unfold round, search_round. fold scores. intros H.
  apply bind_ok in H as (k & Hk & H). exists k. split; [exact Hk|].
  apply bind_ok in H as (score & Hscore & H).
  apply index_ok in Hscore.
  apply (nth_error_nth _ _ 0) in Hscore. rewrite Hscore.
  destruct (Qle_bool score (fst state)) eqn:E; cbn [negb] in H.
  - right. apply Qle_bool_iff in E. split; [exact E|].
    injection H as <-. now destruct state.
  - left. split.
    + apply Qnot_le_lt. intros Hc. apply Qle_bool_iff in Hc. congruence.
    + apply bind_ok in H as (sol & Hsol & [= <-]).
      apply index_ok in Hsol. eauto.
Qed.

(** A second round changes nothing. *)
Lemma search_round_stable state state' :
  round state = Ok state' -> round state' = Ok state'.
Proof.
  intros H. destruct (search_round_spec _ _ H) as (k & Hk & [Hup|[_ ->]]);
    [|exact H].
  destruct Hup as (_ & sol & Hsol & ->).
  unfold round, search_round. fold scores. rewrite Hk. cbn [bind].
  destruct (argmax_spec _ _ Hk) as (Hlt & _).
  unfold Py.index at 1.
  destruct (nth_error scores k) eqn:E; [|apply nth_error_None in E; lia].
  apply (nth_error_nth _ _ 0) in E. rewrite E. cbn [bind fst snd].
  assert (Hq : Qle_bool q q = true) by (apply Qle_bool_iff, Qle_refl).
  rewrite Hq. reflexivity.
Qed.

Lemma search_rounds {A : Type} (x : A) (l : list A) state :
  for_loop (fun _ state => round state) (x :: l) state = round state.
Proof.
  cbn [for_loop]. destruct (round state) as [state'|e] eqn:E; [|reflexivity].
  cbn [bind]. apply search_round_stable in E.
  induction l as [|y l IH]; [reflexivity|].
  cbn [for_loop]. rewrite E. exact IH.
Qed.

Lemma search_round_empty state :
  scores = [] -> round state = Raise ValueError.
Proof.
  intros H. unfold round, search_round. fold scores. now rewrite H.
Qed.

Lemma search_round_total state :
  List.length scores = List.length cur_sols -> cur_sols <> [] ->
  exists state', round state = Ok state'.
Proof.
  intros Hlen Hne. unfold round, search_round. fold scores.
  destruct (argmax_total scores) as [k Hk].
  { intros E. rewrite E in Hlen. destruct cur_sols; [contradiction|discriminate]. }
  rewrite Hk. cbn [bind].
  destruct (argmax_spec _ _ Hk) as (Hlt & _).
  unfold Py.index at 1.
  destruct (nth_error scores k) eqn:E; [|apply nth_error_None in E; lia].
  cbn [bind]. destruct (negb _); [|eauto].
  unfold Py.index.
  destruct (nth_error cur_sols k) eqn:E'; [|apply nth_error_None in E'; lia].
  cbn [bind]. eauto.
Qed.

End SearchSolve.

Section SearchPlacement.

Import ModelParallelismSearch.

Variables Workload Evaluator : Type.
Variable gen_train_workload : list ModelData -> Workload.
Variable PlacementEvaluator :
  list ModelData -> ClusterEnv -> Workload -> string -> bool -> Evaluator.
Variable fill :
  ModelPlacement -> list ModelData -> ClusterEnv -> Workload ->
  option Evaluator -> Z -> ModelPlacement.
Variable get_scores : Evaluator -> list ModelPlacement -> list Q.
Variable evolutionary_search :
  list (option ModelPlacement) -> list ModelData -> ClusterEnv -> Evaluator ->
  Z -> Z -> ModelPlacement.

Variable self : ModelParallelismSearch.t.
Variable model_datas : list ModelData.
Variable cluster_env : ClusterEnv.
Variable train_workload : option Workload.

(** The workload and the evaluator that [solve_placement] makes. *)
Let workload : Workload :=
  match train_workload with
  | None => gen_train_workload model_datas
  | Some w => w
  end.

Let evaluator : Evaluator :=
  PlacementEvaluator model_datas cluster_env workload
                     (evaluator_method self) (parallel_evaluator self).

(** The filled skeletons and their scores. *)
Let filled (skeletons : list ModelPlacement) : list ModelPlacement :=
  initial_placements Workload Evaluator fill self model_datas cluster_env
                     workload evaluator skeletons.

Let solve : result (option ModelPlacement * unit) :=
  solve_placement Workload Evaluator gen_train_workload PlacementEvaluator
                  fill get_scores evolutionary_search
                  self model_datas cluster_env train_workload.

Lemma filled_length skeletons :
  List.length (filled skeletons) = List.length skeletons.
Proof.
  unfold filled, initial_placements.
  destruct (parallel_initial_placement self); apply length_map.
Qed.

Lemma range_cons n : 1 <= n -> exists l, Py.range n = 0%nat :: l.
Proof.
  intros H. unfold Py.range.
  destruct (Z.to_nat n) as [|k] eqn:E; [lia|]. simpl. eauto.
Qed.

(** X10.  Without the evolutionary search and with at least one
    round, what [solve_placement] returns is read off the scores of the
    filled skeletons: a placement it returns is a filled skeleton whose
    score exceeds -1 and is the largest of all; it returns [None] only
    when no score exceeds -1. *)
Theorem search_solve_placement_best (best : option ModelPlacement) :
  add_evo_search self = false ->
  1 <= n_iter self ->
  solve = Ok (best, tt) ->
  exists skeletons,
    enumerate_group_configs self cluster_env = Ok skeletons /\
    let scores := get_scores evaluator (filled skeletons) in
    match best with
    | Some sol =>
        exists k,
          nth_error (filled skeletons) k = Some sol /\
          (-1 < nth k scores 0)%Q /\
          forall j, (j < List.length scores)%nat ->
                    (nth j scores 0 <= nth k scores 0)%Q
    | None =>
        forall j, (j < List.length scores)%nat -> (nth j scores 0 <= -1)%Q
    end.
Proof.
  intros Hevo Hn H. unfold solve, solve_placement in H.
  fold workload in H. fold evaluator in H.
  apply bind_ok in H as (skeletons & Henum & H).
  fold (filled skeletons) in H.
  apply bind_ok in H as (state & Hloop & H).
  rewrite Hevo in H. injection H as <-.
  exists skeletons. split; [exact Henum|]. cbn zeta.
  destruct (range_cons _ Hn) as [l Hl]. rewrite Hl in Hloop.
  rewrite search_rounds in Hloop.
  apply search_round_spec in Hloop as (k & Hk & Hcase).
  destruct (argmax_spec _ _ Hk) as (_ & Hmax & _).
  destruct Hcase as [(Hgt & sol & Hsol & ->)|(Hle & ->)]; cbn [fst snd] in *.
  - exists k. auto.
  - intros j Hj. eapply Qle_trans; [apply Hmax, Hj|exact Hle].
Qed.

Hypothesis get_scores_length :
  forall sols, List.length (get_scores evaluator sols) = List.length sols.

Lemma solve_no_skeleton :
  1 <= n_iter self ->
  enumerate_group_configs self cluster_env = Ok [] ->
  solve = Raise ValueError.
Proof.
  intros Hn Henum. unfold solve, solve_placement.
  fold workload. fold evaluator. rewrite Henum. cbn [bind].
  fold (filled []).
  destruct (range_cons _ Hn) as [l ->]. rewrite search_rounds.
  rewrite search_round_empty; [reflexivity|].
  apply length_zero_iff_nil. now rewrite get_scores_length, filled_length.
Qed.

Lemma solve_some_skeleton sk skeletons :
  enumerate_group_configs self cluster_env = Ok (sk :: skeletons) ->
  exists best, solve = Ok (best, tt).
Proof.
  intros Henum. unfold solve, solve_placement.
  fold workload. fold evaluator. rewrite Henum. cbn [bind].
  fold (filled (sk :: skeletons)).
  assert (Hne : filled (sk :: skeletons) <> []).
  { intros E. apply (f_equal (@List.length _)) in E.
    rewrite filled_length in E. discriminate. }
  destruct (Py.range (n_iter self)) as [|x l].
  - cbn [for_loop bind]. eauto.
  - rewrite search_rounds.
    destruct (search_round_total Evaluator get_scores evaluator
                (filled (sk :: skeletons)) (-1, None)%Q
                (get_scores_length _) Hne) as [state ->].
    cbn [bind]. eauto.
Qed.

(** X11.  The outcome of [solve_placement] on a cluster with at least
    one device, with at least one round and one score per placement:
    [ZeroDivisionError] when [num_devices_per_node] is 0; otherwise a
    result when a skeleton is enumerated and [ValueError] (the
    [argmax] of no scores) when none is. *)
Theorem search_solve_placement_outcome :
  1 <= n_iter self ->
  1 <= num_devices cluster_env ->
  if num_devices_per_node cluster_env =? 0 then
    solve = Raise ZeroDivisionError
  else
    match enumerate_group_configs self cluster_env with
    | Ok (_ :: _) => exists best, solve = Ok (best, tt)
    | _ => solve = Raise ValueError
    end.
Proof.
  intros Hn Hnd.
  destruct (Z.eqb_spec (num_devices_per_node cluster_env) 0) as [Hpn|Hpn].
  - unfold solve, solve_placement.
    now rewrite enumerate_group_configs_zero_per_node by lia.
  - destruct (enumerate_group_configs self cluster_env)
      as [[|sk skeletons]|e] eqn:Henum.
    + now apply solve_no_skeleton.
    + now apply (solve_some_skeleton sk skeletons).
    + rewrite enumerate_group_configs_eq in Henum by exact Hpn.
      discriminate.
Qed.

(** X12.  With one score per placement, [solve_placement] returns on
    every cluster with [num_devices >= 1], [num_devices_per_node >= 1]
    and limits [max_pp >= 1], [max_op >= 1], whatever [n_iter] is. *)
Theorem search_solve_placement_returns :
  1 <= num_devices cluster_env ->
  1 <= num_devices_per_node cluster_env ->
  1 <= max_pp self -> 1 <= max_op self ->
  exists best, solve = Ok (best, tt).
Proof.
  intros Hnd Hpn Hmp Hmo.
  assert (Hin : is_skeleton self cluster_env
                  (mkModelPlacement
                     (repeat (mkParallelConfig 1 1 1)
                             (Z.to_nat (num_devices cluster_env / 1)))
                     (repeat [] (Z.to_nat (num_devices cluster_env / 1))))).
  { exists 1, 1, 1. repeat split; try lia.
    - apply Z.divide_1_l. }
  apply in_skeletons in Hin; [|lia].
  pose proof (enumerate_group_configs_eq self cluster_env ltac:(lia)) as Henum.
  destruct (flat_map _ _) as [|sk skeletons]; [destruct Hin|].
  now apply (solve_some_skeleton sk skeletons).
Qed.

End SearchPlacement.

(** X10 on two devices with the sample collaborators: the two
    one-device groups score highest. *)
Lemma search_solve_placement_best_witness :
  sample_search_solve ModelParallelismSearch.default two_device_cluster
  = Ok (Some two_single_groups, tt) /\
  exists skeletons,
    ModelParallelismSearch.enumerate_group_configs
      ModelParallelismSearch.default two_device_cluster = Ok skeletons /\
    exists k,
      nth_error
        (ModelParallelismSearch.initial_placements
           unit unit sample_fill ModelParallelismSearch.default []
           two_device_cluster tt tt skeletons) k
      = Some two_single_groups /\
      (-1 < nth k (sample_get_scores tt
                     (ModelParallelismSearch.initial_placements
                        unit unit sample_fill ModelParallelismSearch.default []
                        two_device_cluster tt tt skeletons)) 0)%Q /\
      forall j,
        (j < List.length
               (sample_get_scores tt
                  (ModelParallelismSearch.initial_placements
                     unit unit sample_fill ModelParallelismSearch.default []
                     two_device_cluster tt tt skeletons)))%nat ->
        (nth j (sample_get_scores tt
                  (ModelParallelismSearch.initial_placements
                     unit unit sample_fill ModelParallelismSearch.default []
                     two_device_cluster tt tt skeletons)) 0
         <= nth k (sample_get_scores tt
                     (ModelParallelismSearch.initial_placements
                        unit unit sample_fill ModelParallelismSearch.default []
                        two_device_cluster tt tt skeletons)) 0)%Q.
Proof.
  split; [vm_compute; reflexivity|].
  apply (search_solve_placement_best
           unit unit sample_gen_train_workload sample_evaluator sample_fill
           sample_get_scores sample_evolutionary_search
           ModelParallelismSearch.default [] two_device_cluster None
           (Some two_single_groups)).
  - reflexivity.
  - discriminate.
  - vm_compute; reflexivity.
Defined.

(** X11 on two devices and a planner whose limit [max_op] is 0: no
    skeleton is enumerated. *)
Lemma search_solve_placement_outcome_witness :
  (forall sols, List.length (sample_get_scores tt sols) = List.length sols) /\
  1 <= ModelParallelismSearch.n_iter (ModelParallelismSearch.init 1 8 0 false 0) /\
  1 <= num_devices two_device_cluster /\
  ModelParallelismSearch.enumerate_group_configs
    (ModelParallelismSearch.init 1 8 0 false 0) two_device_cluster = Ok [] /\
  sample_search_solve (ModelParallelismSearch.init 1 8 0 false 0)
                      two_device_cluster
  = Raise ValueError.
Proof.
  split; [intros sols; apply length_map|].
  split; [discriminate|]. split; [discriminate|].
  split; [vm_compute; reflexivity|].
  exact (search_solve_placement_outcome
           unit unit sample_gen_train_workload sample_evaluator sample_fill
           sample_get_scores sample_evolutionary_search
           (ModelParallelismSearch.init 1 8 0 false 0) []
           two_device_cluster
           None (fun sols => length_map _ sols)
           ltac:(discriminate) ltac:(discriminate)).
Defined.

(** X12 on two devices with the sample collaborators. *)
Lemma search_solve_placement_returns_witness :
  (forall sols, List.length (sample_get_scores tt sols) = List.length sols) /\
  1 <= num_devices two_device_cluster /\
  1 <= num_devices_per_node two_device_cluster /\
  1 <= ModelParallelismSearch.max_pp ModelParallelismSearch.default /\
  1 <= ModelParallelismSearch.max_op ModelParallelismSearch.default /\
  exists best,
    sample_search_solve ModelParallelismSearch.default two_device_cluster
    = Ok (best, tt).
Proof.
  split; [intros sols; apply length_map|].
  repeat (split; [discriminate|]).
  apply (search_solve_placement_returns
           unit unit sample_gen_train_workload sample_evaluator sample_fill
           sample_get_scores sample_evolutionary_search
           ModelParallelismSearch.default [] two_device_cluster None
           (fun sols => length_map _ sols)); discriminate.
Defined.

(** ** [ModelParallelismGreedy.solve_placement] *)

Section GreedyPlacement.

Variables Workload Evaluator : Type.
Variable gen_train_workload : list ModelData -> Workload.
Variable PlacementEvaluator :
  list ModelData -> ClusterEnv -> Workload -> string -> bool -> Evaluator.
Variable fill :
  ModelPlacement -> list ModelData -> ClusterEnv -> Workload ->
  option Evaluator -> Z -> ModelPlacement.
Variable evolutionary_search :
  list (option ModelPlacement) -> list ModelData -> ClusterEnv -> Evaluator ->
  Z -> Z -> ModelPlacement.

Variable self : ModelParallelismGreedy.t.
Variable model_datas : list ModelData.
Variable cluster_env : ClusterEnv.
Variable train_workload : option Workload.

Let workload : Workload :=
  match train_workload with
  | None => gen_train_workload model_datas
  | Some w => w
  end.

Let evaluator : Evaluator :=
  PlacementEvaluator model_datas cluster_env workload "fast_simulator" false.

Let solve : result (ModelPlacement * unit) :=
  ModelParallelismGreedy.solve_placement
    Workload Evaluator gen_train_workload PlacementEvaluator fill
    evolutionary_search self model_datas cluster_env train_workload.

(** X13.  The outcome of [ModelParallelismGreedy.solve_placement]:
    [ZeroDivisionError] for a group size of 0, [AssertionError] for a
    group size that does not divide [num_devices], a result in every
    other case. *)
Theorem greedy_solve_placement_outcome :
  if ModelParallelismGreedy.group_size self =? 0 then
    solve = Raise ZeroDivisionError
  else if negb (num_devices cluster_env
                mod ModelParallelismGreedy.group_size self =? 0) then
    solve = Raise AssertionError
  else exists sol, solve = Ok (sol, tt).
Proof.
  unfold solve, ModelParallelismGreedy.solve_placement,
    Py.int_mod, Py.int_floordiv.
  destruct (ModelParallelismGreedy.group_size self =? 0); [reflexivity|].
  cbn [bind]. unfold Py.assert.
  destruct (_ mod _ =? 0); cbn [negb bind]; [eauto|reflexivity].
Qed.

(** X14.  For a positive group size that divides [num_devices > 0],
    and without the evolutionary search, the greedy planner returns the
    fast-greedy filling of the skeleton of [num_devices / group_size]
    groups [(1, 1, group_size)]; that skeleton uses all the devices, and
    it is one of the skeletons that the search planner enumerates when
    its limits admit the group size and the group does not cross a node
    boundary unevenly. *)
Theorem greedy_solve_placement_skeleton :
  ModelParallelismGreedy.add_evo_search self = false ->
  0 < ModelParallelismGreedy.group_size self ->
  0 < num_devices cluster_env ->
  (ModelParallelismGreedy.group_size self | num_devices cluster_env) ->
  let sk :=
    ModelParallelismSearch.skeleton
      1 (ModelParallelismGreedy.group_size self)
      (num_devices cluster_env / ModelParallelismGreedy.group_size self) in
  solve = Ok (fill sk model_datas cluster_env workload (Some evaluator)
                   (ModelParallelismGreedy.verbose self), tt) /\
  devices_used sk = num_devices cluster_env /\
  forall search : ModelParallelismSearch.t,
    ModelParallelismGreedy.group_size self
    <= ModelParallelismSearch.max_pp search ->
    1 <= ModelParallelismSearch.max_op search ->
    num_devices_per_node cluster_env <> 0 ->
    ~ (ModelParallelismGreedy.group_size self
       > num_devices_per_node cluster_env /\
       ModelParallelismGreedy.group_size self
       mod num_devices_per_node cluster_env <> 0) ->
    exists sols,
      ModelParallelismSearch.enumerate_group_configs search cluster_env
      = Ok sols /\
      In sk sols.
Proof.
  intros Hevo Hgs Hnd Hdiv sk. split; [|split].
  - unfold solve, ModelParallelismGreedy.solve_placement,
      Py.int_mod, Py.int_floordiv.
    destruct (Z.eqb_spec (ModelParallelismGreedy.group_size self) 0) as [?|_];
      [lia|].
    cbn [bind]. apply Z.mod_divide in Hdiv; [|lia]. rewrite Hdiv.
    cbn [Z.eqb Py.assert bind]. rewrite Hevo. reflexivity.
  - unfold sk, devices_used, ModelParallelismSearch.skeleton.
    cbn [group_configs]. rewrite zsum_repeat.
    change (group_size (mkParallelConfig 1 1 ?g)) with (1 * 1 * g).
    destruct Hdiv as [q Hq]. revert Hnd. rewrite Hq, Z.div_mul by lia.
    intros Hnd. assert (0 <= q) by nia. lia.
  - intros search Hmp Hmo Hpn Hnode.
    eexists. split; [now apply enumerate_group_configs_eq|].
    apply in_skeletons; [exact Hnd|].
    exists (ModelParallelismGreedy.group_size self), 1,
           (ModelParallelismGreedy.group_size self).
    repeat split; try assumption; try lia.
    unfold sk, ModelParallelismSearch.skeleton.
    now rewrite map_range_repeat.
Qed.

End GreedyPlacement.

(** X14 on two devices in one group of two. *)
Lemma greedy_solve_placement_skeleton_witness :
  sample_greedy_solve ModelParallelismGreedy.default two_device_cluster
  = Ok (one_pipeline_group, tt) /\
  devices_used (ModelParallelismSearch.skeleton 1 2 1) = 2 /\
  exists sols,
    ModelParallelismSearch.enumerate_group_configs
      ModelParallelismSearch.default two_device_cluster = Ok sols /\
    In (ModelParallelismSearch.skeleton 1 2 1) sols.
Proof.
  destruct (greedy_solve_placement_skeleton
              unit unit sample_gen_train_workload sample_evaluator sample_fill
              sample_evolutionary_search
              ModelParallelismGreedy.default [] two_device_cluster None)
    as (Hsolve & Hdev & Hin).
  - reflexivity.
  - reflexivity.
  - reflexivity.
  - exists 1. reflexivity.
  - split; [exact Hsolve|]. split; [exact Hdev|].
    apply (Hin ModelParallelismSearch.default).
    + discriminate.
    + discriminate.
    + discriminate.
    + intros [H _]. discriminate H.
Defined.


(** ** More on the ILP planner *)

Section DecodeMore.

Import Pulp.

Variable self : ModelParallelismILP.t.
Variable sol : LpSolution.
Variables N G : Z.

Lemma placement_matrix_entry i j :
  In i (Py.range N) -> In j (Py.range G) ->
  (row <- Py.index (ModelParallelismILP.placement_matrix sol N G) i ;
   Py.index row j)
  = Ok (if ModelParallelismILP.value_truthy sol (p_var i j) then 1 else 0).
Proof.
  intros Hi Hj. unfold ModelParallelismILP.placement_matrix, Py.index.
  rewrite (nth_error_map_range _ _ _ Hi). cbn [bind].
  now rewrite (nth_error_map_range _ _ _ Hj).
Qed.

(** The inner loop of the decoding collects the models placed on the
    slot. *)
Lemma collect_models_loop j is_ : forall tmp,
  In j (Py.range G) -> (forall i, In i is_ -> In i (Py.range N)) ->
  for_loop
    (fun i tmp =>
       row <- Py.index (ModelParallelismILP.placement_matrix sol N G) i ;
       pij <- Py.index row j ;
       if negb (pij =? 0) then Ok (tmp ++ [Z.of_nat i]) else Ok tmp)
    is_ tmp
  = Ok (tmp ++ map Z.of_nat
                   (List.filter
                      (fun i => ModelParallelismILP.value_truthy sol (p_var i j))
                      is_)).
Proof.
  induction is_ as [|i is_ IH]; intros tmp Hj His; cbn [for_loop].
  - now rewrite app_nil_r.
  - pose proof (placement_matrix_entry i j (His i (or_introl eq_refl)) Hj) as E.
    destruct (Py.index (ModelParallelismILP.placement_matrix sol N G) i)
      as [row|e]; [|discriminate].
    cbn [bind] in E |- *. rewrite E. cbn [bind List.filter].
    destruct (ModelParallelismILP.value_truthy sol (p_var i j));
      cbn [Z.eqb negb bind].
    + rewrite IH; [|exact Hj|intros; apply His; now right].
      cbn [map]. now rewrite <- app_assoc.
    + apply IH; [exact Hj|intros; apply His; now right].
Qed.

Lemma collect_groups_spec_loop s_res js : forall acc acc',
  (forall j, In j js -> In j (Py.range G)) ->
  for_loop
    (fun j acc =>
       config_id <- Py.index s_res j ;
       size <- Py.index (ModelParallelismILP.group_sizes self) config_id ;
       if negb (size =? 0) then
         tmp <- for_loop
                  (fun i tmp =>
                     row <- Py.index
                              (ModelParallelismILP.placement_matrix sol N G) i ;
                     pij <- Py.index row j ;
                     if negb (pij =? 0) then Ok (tmp ++ [Z.of_nat i])
                     else Ok tmp)
                  (Py.range N) [] ;
         cfg <- Py.index (ModelParallelismILP.group_configs self) config_id ;
         Ok (fst acc ++ [cfg], snd acc ++ [tmp])
       else Ok acc)
    js acc = Ok acc' ->
  fst acc' = fst acc ++ map fst (flat_map (slot_group self sol N s_res) js) /\
  snd acc' = snd acc ++ map snd (flat_map (slot_group self sol N s_res) js).
Proof.
  induction js as [|j js IH]; intros acc acc' Hjs; cbn [for_loop flat_map].
  - intros [= <-]. now rewrite !app_nil_r.
  - intros H. apply bind_ok in H as (acc1 & H1 & H).
    apply IH in H as [Hf Hs]; [|intros; apply Hjs; now right].
    rewrite Hf, Hs. clear IH Hf Hs.
    apply bind_ok in H1 as (config_id & Hid & H1).
    apply bind_ok in H1 as (size & Hsize & H1).
    apply index_ok in Hid, Hsize.
    assert (Hsg : slot_group self sol N s_res j
                  = if size =? 0 then []
                    else [(nth config_id (ModelParallelismILP.group_configs self)
                               (mkParallelConfig 0 0 0),
                           placed sol N j)]).
    { unfold slot_group. now rewrite Hid, (nth_error_nth _ _ 0 Hsize). }
    rewrite Hsg. clear Hsg.
    destruct (Z.eqb_spec size 0) as [->|Hnz]; cbn [negb] in H1.
    + injection H1 as <-. split; reflexivity.
    + rewrite collect_models_loop in H1;
        [|apply Hjs; now left|auto].
      cbn [bind app] in H1.
      apply bind_ok in H1 as (cfg & Hcfg & [= <-]).
      apply index_ok in Hcfg.
      rewrite (nth_error_nth _ _ (mkParallelConfig 0 0 0) Hcfg).
      cbn [fst snd app map].
      rewrite <- !app_assoc. split; reflexivity.
Qed.

(** The groups of the decoding, slot by slot. *)
Lemma collect_groups_spec s_res groups :
  ModelParallelismILP.collect_groups
    self N G s_res (ModelParallelismILP.placement_matrix sol N G) = Ok groups ->
  fst groups = map fst (flat_map (slot_group self sol N s_res) (Py.range G)) /\
  snd groups = map snd (flat_map (slot_group self sol N s_res) (Py.range G)).
Proof.
  unfold ModelParallelismILP.collect_groups. intros H.
  apply collect_groups_spec_loop in H; [exact H|auto].
Qed.

End DecodeMore.

Lemma flat_map_length_le {A B : Type} (F : A -> list B) (l : list A) :
  (forall x, In x l -> (List.length (F x) <= 1)%nat) ->
  (List.length (flat_map F l) <= List.length l)%nat.
Proof.
  induction l as [|x l IH]; intros H; simpl; [lia|].
  rewrite length_app.
  pose proof (H x (or_introl eq_refl)).
  assert (List.length (flat_map F l) <= List.length l)%nat
    by (apply IH; intros; apply H; now right).
  lia.
Qed.

Lemma seq_sorted (a n : nat) : StronglySorted lt (seq a n).
Proof.
  revert a. induction n as [|n IH]; intros a; simpl; constructor.
  - apply IH.
  - apply List.Forall_forall. intros x Hx. apply in_seq in Hx. lia.
Qed.

Lemma filter_map_sorted (f : nat -> bool) (l : list nat) :
  StronglySorted lt l ->
  StronglySorted Z.lt (map Z.of_nat (List.filter f l)).
Proof.
  induction 1 as [|a l Hs IH Ha]; simpl; [constructor|].
  destruct (f a); [|exact IH]. simpl. constructor; [exact IH|].
  apply List.Forall_forall. intros z Hz.
  apply in_map_iff in Hz as (x & <- & Hx).
  apply List.filter_In in Hx as [Hx _].
  rewrite List.Forall_forall in Ha. specialize (Ha x Hx). lia.
Qed.

Lemma placed_sorted sol N j :
  StronglySorted Z.lt (placed sol N j) /\
  Forall (fun i => 0 <= i < N) (placed sol N j).
Proof.
  unfold placed. split.
  - apply filter_map_sorted, seq_sorted.
  - apply List.Forall_forall. intros z Hz.
    apply in_map_iff in Hz as (x & <- & Hx).
    apply List.filter_In in Hx as [Hx _]. apply in_range in Hx. lia.
Qed.

Lemma slot_group_length self sol N s_res j :
  (List.length (slot_group self sol N s_res j) <= 1)%nat.
Proof.
  unfold slot_group. destruct (nth_error s_res j); [|simpl; lia].
  destruct (_ =? 0); simpl; lia.
Qed.

Lemma in_slot_group self sol N s_res j cfg models :
  In (cfg, models) (slot_group self sol N s_res j) ->
  models = placed sol N j /\
  exists k, nth_error s_res j = Some k /\
            nth k (ModelParallelismILP.group_sizes self) 0 <> 0 /\
            cfg = nth k (ModelParallelismILP.group_configs self)
                      (mkParallelConfig 0 0 0).
Proof.
  unfold slot_group. destruct (nth_error s_res j) as [k|]; [|intros []].
  destruct (Z.eqb_spec (nth k (ModelParallelismILP.group_sizes self) 0) 0)
    as [?|Hnz]; [intros []|].
  intros [[= <- <-]|[]]. split; [reflexivity|]. exists k. auto.
Qed.

Section PlacementMore.

Import Pulp.

Variable solver : LpProblem -> LpSolution.
Variable self : ModelParallelismILP.t.
Variable model_datas : list ModelData.
Variable cluster_env : ClusterEnv.

Let N := Z.of_nat (List.length model_datas).
Let G := num_devices cluster_env.
Let K := Z.of_nat (List.length (ModelParallelismILP.group_configs self)).

(** What a returned placement was decoded from. *)
Lemma solve_placement_decoded placement objective :
  ModelParallelismILP.solve_placement self solver model_datas cluster_env
  = Ok (placement, objective) ->
  exists prob s_res,
    ModelParallelismILP.formulate self model_datas cluster_env = Ok prob /\
    status (solver prob) <> LpStatusInfeasible /\
    ModelParallelismILP.select_configs (solver prob) G K = Ok s_res /\
    group_configs placement
    = map fst (flat_map (slot_group self (solver prob) N s_res) (Py.range G)) /\
    group_models placement
    = map snd (flat_map (slot_group self (solver prob) N s_res) (Py.range G)) /\
    objective = match objective_value (solver prob) with
                | Some o => o
                | None => (-1)%Q
                end.
Proof.
  unfold ModelParallelismILP.solve_placement. intros H.
  apply bind_ok in H as (prob & Hprob & H).
  unfold ModelParallelismILP.decode in H.
  fold N in H. fold G in H. fold K in H.
  destruct (Z.eqb_spec (status (solver prob)) LpStatusInfeasible) as [?|Hst];
    [discriminate|].
  apply bind_ok in H as (s_res & Hs & H).
  apply bind_ok in H as (groups & Hg & [= <- <-]).
  apply collect_groups_spec in Hg as [Hf Hsnd].
  exists prob, s_res. cbn [group_configs group_models]. auto 10.
Qed.

(** X15.  A placement that the ILP planner returns is well formed: it
    has one model list per group, at most [num_devices] groups, and
    every model list is strictly increasing with entries in
    [0 .. N - 1]. *)
Theorem ilp_placement_well_formed
        (placement : ModelPlacement) (objective : Q) :
  ModelParallelismILP.solve_placement self solver model_datas cluster_env
  = Ok (placement, objective) ->
  List.length (group_models placement)
  = List.length (group_configs placement) /\
  (List.length (group_configs placement)
   <= Z.to_nat (num_devices cluster_env))%nat /\
  Forall (fun models =>
            StronglySorted Z.lt models /\
            Forall (fun i => 0 <= i < Z.of_nat (List.length model_datas))
                   models)
         (group_models placement).
Proof.
  intros H.
  apply solve_placement_decoded
    in H as (prob & s_res & _ & _ & _ & Hc & Hm & _).
  rewrite Hc, Hm, !length_map. split; [reflexivity|]. split.
  - etransitivity; [apply flat_map_length_le|].
    + intros j _. apply slot_group_length.
    + unfold Py.range. now rewrite length_seq.
  - apply List.Forall_forall. intros models Hin.
    apply in_map_iff in Hin as ([cfg models'] & <- & Hin).
    apply in_flat_map in Hin as (j & _ & Hin).
    apply in_slot_group in Hin as [-> _]. apply placed_sorted.
Qed.

(** X16.  When the problem is formulated and the solver reports
    [LpStatusInfeasible], [solve_placement] raises [RuntimeError]. *)
Theorem ilp_infeasible_raises (prob : LpProblem) :
  ModelParallelismILP.formulate self model_datas cluster_env = Ok prob ->
  status (solver prob) = LpStatusInfeasible ->
  ModelParallelismILP.solve_placement self solver model_datas cluster_env
  = Raise RuntimeError.
Proof.
  intros Hprob Hst. unfold ModelParallelismILP.solve_placement.
  rewrite Hprob. cbn [bind]. unfold ModelParallelismILP.decode.
  now rewrite Hst.
Qed.

(** X17.  When the solver stops with another status and without a
    value for [s[0][0]] (no solution was found in the time limit),
    [solve_placement] does not return either: on a cluster with a
    device, adding up the values of slot 0 raises [TypeError]. *)
Theorem ilp_unsolved_raises (prob : LpProblem) :
  ModelParallelismILP.formulate self model_datas cluster_env = Ok prob ->
  status (solver prob) <> LpStatusInfeasible ->
  1 <= num_devices cluster_env ->
  ModelParallelismILP.group_configs self <> [] ->
  value (solver prob) (s_var 0 0) = None ->
  ModelParallelismILP.solve_placement self solver model_datas cluster_env
  = Raise TypeError.
Proof.
  intros Hprob Hst HG HK Hval. unfold ModelParallelismILP.solve_placement.
  rewrite Hprob. cbn [bind]. unfold ModelParallelismILP.decode.
  destruct (Z.eqb_spec (status (solver prob)) LpStatusInfeasible) as [?|_];
    [contradiction|].
  unfold ModelParallelismILP.select_configs.
  destruct (range_cons (num_devices cluster_env) HG) as [js ->].
  destruct (range_cons
              (Z.of_nat (List.length (ModelParallelismILP.group_configs self))))
    as [ks ->].
  { destruct (ModelParallelismILP.group_configs self); [contradiction|].
    simpl. lia. }
  cbn [for_loop map ModelParallelismILP.sum_values bind].
  rewrite Hval. reflexivity.
Qed.

End PlacementMore.

(** *** The constraints of the formulated problem *)

Lemma Forall2_in_l {A B : Type} (R : A -> B -> Prop) l l' x :
  Forall2 R l l' -> In x l -> exists y, In y l' /\ R x y.
Proof.
  induction 1 as [|a b l l' Hab _ IH]; intros Hin; [destruct Hin|].
  destruct Hin as [<-|Hin].
  - exists b. split; [now left|exact Hab].
  - destruct (IH Hin) as (y & Hy & HR). exists y. split; [now right|exact HR].
Qed.

Lemma qsum_Forall2 {A B : Type} (h : B -> Q) (g : A -> Q) l es :
  Forall2 (fun x e => (h e == g x)%Q) l es -> (qsum h es == qsum g l)%Q.
Proof.
  induction 1 as [|x e l es Hxe _ IH]; simpl; [reflexivity|].
  now rewrite Hxe, IH.
Qed.

Lemma qsum_filter_binary {A : Type} (val coef : A -> Q) (tr : A -> bool) l :
  (forall x, In x l ->
             (val x == 0 /\ tr x = false)%Q \/ (val x == 1 /\ tr x = true)%Q) ->
  (qsum (fun x => coef x * val x) l == qsum coef (List.filter tr l))%Q.
Proof.
  induction l as [|x l IH]; intros H; simpl; [reflexivity|].
  rewrite IH by (intros; apply H; now right).
  destruct (H x (or_introl eq_refl)) as [[Hv ->]|[Hv ->]]; rewrite Hv; simpl; ring.
Qed.

Lemma qsum_scale {A : Type} (c : Q) (f : A -> Q) l :
  (qsum (fun x => c * f x) l == c * qsum f l)%Q.
Proof. induction l as [|x l IH]; simpl; [ring|]. rewrite IH. ring. Qed.

Lemma qsum_pos {A : Type} (f : A -> Q) l :
  (forall x, In x l -> (0 < f x)%Q) -> l <> [] -> (0 < qsum f l)%Q.
Proof.
  induction l as [|x l IH]; intros H Hne; [contradiction|]. simpl.
  pose proof (H x (or_introl eq_refl)) as Hx.
  destruct l as [|y l]; [simpl; lra|].
  assert (0 < qsum f (y :: l))%Q
    by (apply IH; [intros; apply H; now right|discriminate]).
  lra.
Qed.

Lemma in_triples N G K i j k :
  In (i, j, k) (ModelParallelismILP.triples N G K)
  <-> In i (Py.range N) /\ In j (Py.range G) /\ In k (Py.range K).
Proof.
  unfold ModelParallelismILP.triples. rewrite in_flat_map. split.
  - intros (i' & Hi & Hijk).
    apply in_map_iff in Hijk as ([j' k'] & [= -> -> ->] & Hjk).
    apply in_pairs in Hjk. tauto.
  - intros (Hi & Hj & Hk). exists i. split; [exact Hi|].
    apply in_map_iff. exists (j, k). split; [reflexivity|].
    apply in_pairs. auto.
Qed.

Section FormulateMore.

Import Pulp.

Variable self : ModelParallelismILP.t.
Variable model_datas : list ModelData.
Variable cluster_env : ClusterEnv.

Let N := Z.of_nat (List.length model_datas).
Let G := num_devices cluster_env.
Let K := Z.of_nat (List.length (ModelParallelismILP.group_configs self)).
Let C := mem_budget cluster_env.

(** Constraint (a) of slot [j], with the weights of the models and the
    sizes of the configurations written out. *)
Let memory_constraint (used avail : list LpAffineExpression) (j : nat) : Prop :=
  Forall2 (fun i e =>
             exists w, Py.truediv (model_weight model_datas (Z.of_nat i)) C
                       = Ok w /\
                       e = times (p_var i j) w)
          (Py.range N) used /\
  Forall2 (fun k e =>
             exists gk, nth_error (ModelParallelismILP.group_sizes self) k
                        = Some gk /\
                        e = times (s_var j k) (inject_Z gk))
          (Py.range K) avail.

Lemma load_constants_weights c f d i ci :
  ModelParallelismILP.load_constants self model_datas cluster_env
  = Ok (c, f, d) ->
  nth_error c i = Some ci -> model_weight model_datas (Z.of_nat i) = ci.
Proof.
  unfold ModelParallelismILP.load_constants. intros H Hci.
  apply bind_ok in H as (c' & Hc & H).
  apply bind_ok in H as (fd & _ & [= <- _ _]).
  apply for_each_ok in Hc.
  destruct (Forall2_nth_error_r _ _ _ _ _ Hc Hci) as (m & Hm & Hmc).
  apply bind_ok in Hmc as (lm & Hlm & Hw).
  unfold model_weight. rewrite Nat2Z.id, Hm.
  unfold Py.dict_getitem in Hlm.
  destruct (para_dict (profiling_result m) !! mkParallelConfig 1 1 1);
    [|discriminate].
  injection Hlm as ->. apply index_ok in Hw.
  now apply nth_error_nth.
Qed.

Lemma formulate_parts prob :
  ModelParallelismILP.formulate self model_datas cluster_env = Ok prob ->
  (forall j, In j (Py.range G) ->
             exists used avail,
               In (le (lpSum used) (lpSum avail)) (constraints prob) /\
               memory_constraint used avail j) /\
  (forall j, In j (Py.range G) ->
             In (eq (lpSum (map (fun k => var (s_var j k)) (Py.range K)))
                    (const 1))
                (constraints prob)) /\
  (forall i j k,
      In i (Py.range N) -> In j (Py.range G) -> In k (Py.range K) ->
      In (le (var (pxs_var i j k)) (var (p_var i j))) (constraints prob) /\
      In (le (var (pxs_var i j k)) (var (s_var j k))) (constraints prob) /\
      In (ge (var (pxs_var i j k))
             (minus (plus (var (p_var i j)) (var (s_var j k))) (const 1)))
         (constraints prob)).
Proof.
  unfold ModelParallelismILP.formulate. intros H.
  apply bind_ok in H as ([[c f] d] & Hload & H).
  unfold ModelParallelismILP.build_problem in H.
  fold N in H. fold G in H. fold K in H. fold C in H.
  apply bind_ok in H as (memory & Hmem & H).
  apply bind_ok in H as (cap & _ & H).
  apply bind_ok in H as (min_tol & _ & H).
  apply bind_ok in H as (tols & _ & H).
  apply bind_ok in H as (sizes & _ & H).
  injection H as <-. cbn [constraints].
  apply for_each_ok in Hmem.
  split; [|split].
  - intros j Hj.
    destruct (Forall2_in_l _ _ _ _ Hmem Hj) as (cstr & Hin & Hc).
    apply bind_ok in Hc as (used & Hused & Hc).
    apply bind_ok in Hc as (avail & Havail & [= <-]).
    exists used, avail. split; [apply in_app_iff; now left|].
    apply for_each_ok in Hused, Havail. split.
    + eapply Forall2_impl; [exact Hused|]. cbn beta.
      intros i e He.
      apply bind_ok in He as (ci & Hci & He).
      apply bind_ok in He as (w & Hw & [= <-]).
      apply index_ok in Hci.
      rewrite (load_constants_weights _ _ _ _ _ Hload Hci). eauto.
    + eapply Forall2_impl; [exact Havail|]. cbn beta.
      intros k e He.
      apply bind_ok in He as (gk & Hgk & [= <-]).
      apply index_ok in Hgk. eauto.
  - intros j Hj. rewrite !in_app_iff. right. right.
    right. right. apply in_app_iff. left.
    apply in_map_iff. exists j. split; [reflexivity|exact Hj].
  - intros i j k Hi Hj Hk.
    assert (Ht : In (i, j, k) (ModelParallelismILP.triples N G K))
      by (apply in_triples; auto).
    repeat split;
      rewrite !in_app_iff; right; right; right; right;
      apply in_app_iff; right;
      apply in_flat_map; exists (i, j, k);
      (split; [exact Ht|simpl; auto]).
Qed.

End FormulateMore.

Section FeasibleMore.

Import Pulp.

Variable sol : LpSolution.

Lemma eval_minus e1 e2 :
  (eval sol (minus e1 e2) == eval sol e1 - eval sol e2)%Q.
Proof.
  unfold eval, minus. cbn [terms constant].
  rewrite !eval_terms, qsum_app, qsum_map. cbn [fst snd].
  assert (E : (qsum (fun x => - snd x * value_or_zero sol (fst x)) (terms e2)
               == - qsum (fun t => snd t * value_or_zero sol (fst t))
                         (terms e2))%Q).
  { induction (terms e2) as [|t ts IH]; simpl; [reflexivity|].
    rewrite IH. ring. }
  rewrite E. ring.
Qed.

Variable prob : LpProblem.
Hypothesis sol_feasible : feasible prob sol = true.

Lemma feasible_holds cstr :
  In cstr (constraints prob) -> holds sol cstr = true.
Proof.
  intros Hin. unfold feasible in sol_feasible.
  apply andb_true_iff in sol_feasible as [_ Hholds].
  rewrite forallb_forall in Hholds. now apply Hholds.
Qed.

Lemma feasible_bounds cstr v :
  In cstr (constraints prob) ->
  In v (variables_of (lhs cstr) ++ variables_of (rhs cstr)) ->
  in_bounds sol v = true.
Proof.
  intros Hin Hv. unfold feasible in sol_feasible.
  apply andb_true_iff in sol_feasible as [Hbounds _].
  rewrite forallb_forall in Hbounds. apply Hbounds.
  unfold variables. apply in_app_iff. right.
  apply in_flat_map. exists cstr. auto.
Qed.

Lemma feasible_binary cstr v :
  In cstr (constraints prob) ->
  In v (variables_of (lhs cstr) ++ variables_of (rhs cstr)) ->
  is_binary v = true ->
  (value_or_zero sol v == 0 /\ ModelParallelismILP.value_truthy sol v = false)%Q
  \/ (value_or_zero sol v == 1 /\ ModelParallelismILP.value_truthy sol v = true)%Q.
Proof.
  intros Hin Hv Hb. apply in_bounds_binary; [exact Hb|].
  now apply (feasible_bounds cstr).
Qed.

Variable self : ModelParallelismILP.t.
Variable model_datas : list ModelData.
Variable cluster_env : ClusterEnv.

Hypothesis formulated :
  ModelParallelismILP.formulate self model_datas cluster_env = Ok prob.

(** X18.  The linearization (f) is exact: at every feasible point of
    the formulated problem, [pxs[i][j][k]] is the product of [p[i][j]]
    and [s[j][k]]. *)
Theorem ilp_linearization_exact (i j k : nat) :
  Z.of_nat i < Z.of_nat (List.length model_datas) ->
  Z.of_nat j < num_devices cluster_env ->
  Z.of_nat k
  < Z.of_nat (List.length (ModelParallelismILP.group_configs self)) ->
  (value_or_zero sol (pxs_var i j k)
   == value_or_zero sol (p_var i j) * value_or_zero sol (s_var j k))%Q.
Proof.
  intros Hi Hj Hk. apply in_range in Hi, Hj, Hk.
  destruct (formulate_parts _ _ _ _ formulated) as (_ & _ & Hlin).
  destruct (Hlin i j k Hi Hj Hk) as (H1 & H2 & H3).
  destruct (feasible_binary _ (pxs_var i j k) H1) as [[Hx _]|[Hx _]];
    [simpl; auto|reflexivity| |];
    (destruct (feasible_binary _ (p_var i j) H1) as [[Hp _]|[Hp _]];
     [simpl; auto|reflexivity| |]);
    (destruct (feasible_binary _ (s_var j k) H2) as [[Hs _]|[Hs _]];
     [simpl; auto|reflexivity| |]);
    apply feasible_holds in H1, H2, H3;
    unfold holds in H1, H2, H3; cbn [sense lhs rhs le ge] in H1, H2, H3;
    apply Qle_bool_iff in H1, H2, H3;
    rewrite eval_minus, eval_plus, eval_const, !eval_var in H3;
    rewrite !eval_var in H1, H2;
    rewrite Hx, Hp, Hs in *; lra.
Qed.

End FeasibleMore.

Lemma bind_raises_l {A B : Type} (r : result A) (k : A -> result B) :
  (exists e, r = Raise e) -> exists e, Py.bind r k = Raise e.
Proof. intros [e ->]. simpl. eauto. Qed.


Lemma Forall2_map_pairs {A B : Type} (P : A -> B -> Prop) (l : list (A * B)) :
  Forall (fun x => P (fst x) (snd x)) l -> Forall2 P (map fst l) (map snd l).
Proof. induction 1; simpl; constructor; auto. Qed.

Section FeasibleInit.

Import Pulp.

Variable solver : LpProblem -> LpSolution.
Variable verbose : Z.
Variable model_datas : list ModelData.
Variable cluster_env : ClusterEnv.
Variable prob : LpProblem.

Hypothesis formulated :
  ModelParallelismILP.formulate
    (ModelParallelismILP.init verbose) model_datas cluster_env = Ok prob.
Hypothesis sol_feasible : feasible prob (solver prob) = true.

Let sol := solver prob.
Let N := Z.of_nat (List.length model_datas).
Let G := num_devices cluster_env.
Let C := mem_budget cluster_env.

(** Every slot selects one of the five configurations. *)
Lemma slot_chosen j :
  In j (Py.range G) ->
  In (chosen sol 5 j) (Py.range 5) /\
  List.filter (fun k => ModelParallelismILP.value_truthy sol (s_var j k))
              (Py.range 5) = [chosen sol 5 j] /\
  (qsum (fun k => inject_Z (nth k hard_coded_sizes 0%Z)
                  * value_or_zero sol (s_var j k)) (Py.range 5)
   == inject_Z (nth (chosen sol 5 j) hard_coded_sizes 0%Z))%Q.
Proof.
  intros Hj.
  destruct (formulate_parts _ _ _ _ formulated) as (_ & Hone & _).
  specialize (Hone j Hj).
  change (Z.of_nat (List.length
            (ModelParallelismILP.group_configs (ModelParallelismILP.init verbose))))
    with 5 in Hone.
  apply slot_selects_one.
  - intros k Hk.
    apply (feasible_bounds sol prob sol_feasible _ _ Hone).
    apply in_app_iff. left.
    unfold variables_of. cbn [lhs eq].
    rewrite terms_lpSum. apply in_map_iff. exists (s_var j k, 1%Q).
    split; [reflexivity|]. apply in_flat_map.
    exists (var (s_var j k)). split; [|now left].
    apply in_map_iff. exists k. auto.
  - apply (feasible_holds sol prob sol_feasible) in Hone.
    unfold holds in Hone. cbn [sense lhs rhs eq] in Hone.
    apply Qeq_bool_eq in Hone.
    rewrite eval_lpSum, eval_const, qsum_map in Hone.
    rewrite <- Hone. apply qsum_ext. intros k _. now rewrite eval_var.
Qed.

(** Constraint (a) read on the decoded slot: the weights of the models
    placed on a slot fit the budget of the devices of its
    configuration. *)
Lemma memory_slot j :
  In j (Py.range G) -> (0 < C)%Q ->
  (memory_used model_datas (placed sol N j)
   <= C * inject_Z (nth (chosen sol 5 j) hard_coded_sizes 0%Z))%Q.
Proof.
  intros Hj HC.
  destruct (formulate_parts _ _ _ _ formulated) as (Hmem & _ & _).
  destruct (Hmem j Hj) as (used & avail & Hin & Hused & Havail).
  fold N in Hused. fold C in Hused.
  change (Z.of_nat (List.length
            (ModelParallelismILP.group_configs (ModelParallelismILP.init verbose))))
    with 5 in Havail.
  change (ModelParallelismILP.group_sizes (ModelParallelismILP.init verbose))
    with hard_coded_sizes in Havail.
  pose proof (feasible_holds sol prob sol_feasible _ Hin) as Hle.
  unfold holds in Hle. cbn [sense lhs rhs le] in Hle.
  apply Qle_bool_iff in Hle. rewrite !eval_lpSum in Hle.
  (* the right-hand side is the size of the selected configuration *)
  assert (Hr : (qsum (eval sol) avail
                == inject_Z (nth (chosen sol 5 j) hard_coded_sizes 0%Z))%Q).
  { destruct (slot_chosen j Hj) as (_ & _ & <-).
    apply qsum_Forall2. eapply Forall2_impl; [exact Havail|]. cbn beta.
    intros k e (gk & Hgk & ->). rewrite eval_times.
    now rewrite (nth_error_nth _ _ 0%Z Hgk). }
  (* the left-hand side is the weight of the placed models over [C] *)
  assert (Hl : (qsum (eval sol) used
                == / C * memory_used model_datas (placed sol N j))%Q).
  { unfold memory_used, placed. rewrite qsum_map, <- qsum_scale.
    rewrite <- (qsum_filter_binary
                  (fun i => value_or_zero sol (p_var i j))
                  (fun i => / C * model_weight model_datas (Z.of_nat i))%Q).
    - apply qsum_Forall2. eapply Forall2_impl; [exact Hused|]. cbn beta.
      intros i e (w & Hw & ->). rewrite eval_times.
      unfold Py.truediv in Hw. destruct (Qeq_bool C 0); [discriminate|].
      injection Hw as <-. unfold Qdiv. ring.
    - intros i Hi.
      destruct (Forall2_in_l _ _ _ _ Hused Hi) as (e & He & w & _ & ->).
      apply (feasible_binary sol prob sol_feasible _ _ Hin); [|reflexivity].
      apply in_app_iff. left. unfold variables_of. cbn [lhs le].
      rewrite terms_lpSum. apply in_map_iff. exists (p_var i j, w).
      split; [reflexivity|]. apply in_flat_map.
      exists (times (p_var i j) w). split; [exact He|now left]. }
  rewrite Hl, Hr in Hle.
  apply (Qmult_le_l _ _ (/ C)); [now apply Qinv_lt_0_compat|].
  rewrite Qmult_assoc, (Qmult_comm (/ C) C), Qmult_inv_r, Qmult_1_l
    by (intros E; rewrite E in HC; discriminate).
  exact Hle.
Qed.

Variable placement : ModelPlacement.
Variable objective : Q.

Hypothesis solved :
  ModelParallelismILP.solve_placement
    (ModelParallelismILP.init verbose) solver model_datas cluster_env
  = Ok (placement, objective).

Lemma solved_groups :
  let groups :=
    flat_map (slot_group (ModelParallelismILP.init verbose) sol N
                         (map (chosen sol 5) (Py.range G)))
             (Py.range G) in
  group_configs placement = map fst groups /\
  group_models placement = map snd groups.
Proof.
  destruct (solve_placement_decoded _ _ _ _ _ _ solved)
    as (prob' & s_res & Hform & _ & Hs & Hc & Hm & _).
  rewrite formulated in Hform. injection Hform as <-.
  change (Z.of_nat (List.length
            (ModelParallelismILP.group_configs (ModelParallelismILP.init verbose))))
    with 5 in Hs.
  apply select_configs_chosen in Hs as ->.
  - auto.
  - intros j Hj. now apply slot_chosen.
Qed.

Lemma hard_coded_size k :
  In k (Py.range 5) ->
  group_size (nth k (ModelParallelismILP.group_configs
                       (ModelParallelismILP.init verbose))
                  (mkParallelConfig 0 0 0))
  = nth k hard_coded_sizes 0.
Proof.
  intros Hk. apply in_range in Hk.
  destruct k as [|[|[|[|[|k]]]]]; try reflexivity. lia.
Qed.

(** X19.  The placement decoded from a feasible point respects the
    memory budget: in every group, the weights [c[i]] of its models add
    up to at most [mem_budget] times the number of devices of the
    group. *)
Theorem ilp_placement_within_budget :
  (0 < mem_budget cluster_env)%Q ->
  Forall2 (fun cfg models =>
             (memory_used model_datas models
              <= mem_budget cluster_env * inject_Z (group_size cfg))%Q)
          (group_configs placement) (group_models placement).
Proof.
  intros HC. destruct solved_groups as [-> ->].
  apply Forall2_map_pairs, List.Forall_forall.
  intros [cfg models] Hin. cbn [fst snd].
  apply in_flat_map in Hin as (j & Hj & Hin).
  apply in_slot_group in Hin as (-> & k & Hk & _ & ->).
  rewrite (nth_error_map_range _ _ _ Hj) in Hk. injection Hk as <-.
  destruct (slot_chosen j Hj) as (Hk & _).
  rewrite (hard_coded_size _ Hk). now apply memory_slot.
Qed.

Lemma idle_slots_empty js :
  (0 < C)%Q ->
  (forall i, 0 <= i < N -> (0 < model_weight model_datas i)%Q) ->
  (forall j, In j js -> In j (Py.range G)) ->
  concat (map snd
              (flat_map (slot_group (ModelParallelismILP.init verbose) sol N
                                    (map (chosen sol 5) (Py.range G)))
                        js))
  = flat_map (placed sol N) js.
Proof.
  intros HC Hw.
  induction js as [|j js IH]; intros Hjs; [reflexivity|].
  cbn [flat_map]. rewrite map_app, concat_app.
  rewrite IH by (intros; apply Hjs; now right). f_equal.
  pose proof (Hjs j (or_introl eq_refl)) as Hj.
  unfold slot_group. rewrite (nth_error_map_range _ _ _ Hj).
  change (ModelParallelismILP.group_sizes (ModelParallelismILP.init verbose))
    with hard_coded_sizes.
  destruct (Z.eqb_spec (nth (chosen sol 5 j) hard_coded_sizes 0) 0)
    as [Hz|_]; [|simpl; apply app_nil_r].
  pose proof (memory_slot j Hj HC) as Hm. rewrite Hz in Hm.
  destruct (placed sol N j) as [|i is_] eqn:E; [reflexivity|].
  assert (Hpos : (0 < memory_used model_datas (i :: is_))%Q).
  { apply qsum_pos; [|discriminate]. intros x Hx. apply Hw.
    destruct (placed_sorted sol N j) as [_ Hall]. rewrite E in Hall.
    rewrite List.Forall_forall in Hall. now apply Hall. }
  assert (Hzero : (C * inject_Z 0 == 0)%Q) by ring.
  rewrite Hzero in Hm. lra.
Qed.

(** X20.  With a positive budget and positive model weights, decoding
    a feasible point loses no replica: the model lists of the returned
    placement, one after the other, are the models that the solution
    places on the slots [0 .. G - 1]; the slots that are left out are
    empty. *)
Theorem ilp_placement_keeps_replicas :
  (0 < mem_budget cluster_env)%Q ->
  (forall i, 0 <= i < Z.of_nat (List.length model_datas) ->
             (0 < model_weight model_datas i)%Q) ->
  concat (group_models placement)
  = flat_map (placed (solver prob) (Z.of_nat (List.length model_datas)))
             (Py.range (num_devices cluster_env)).
Proof.
  intros HC Hw. destruct solved_groups as [_ ->].
  now apply idle_slots_empty.
Qed.

End FeasibleInit.

Section ZeroBudget.

Import Pulp.

Variable solver : LpProblem -> LpSolution.

(** X21.  With a memory budget of 0, at least one model and at least
    one device, [solve_placement] raises: constraint (a) divides the
    weight of every model by the budget. *)
Theorem ilp_zero_budget_raises
        (self : ModelParallelismILP.t) (model_datas : list ModelData)
        (cluster_env : ClusterEnv) :
  (mem_budget cluster_env == 0)%Q ->
  model_datas <> [] ->
  1 <= num_devices cluster_env ->
  exists e,
    ModelParallelismILP.solve_placement self solver model_datas cluster_env
    = Raise e.
Proof.
  intros HC Hne HG.
  assert (Hf : exists e,
             ModelParallelismILP.formulate self model_datas cluster_env
             = Raise e).
  { unfold ModelParallelismILP.formulate. apply bind_raises. intros [[c f] d].
    unfold ModelParallelismILP.build_problem.
    assert (Hmem : exists e,
               Py.for_each
                 (fun j =>
                    used <- Py.for_each
                              (fun i =>
                                 ci <- Py.index c i ;
                                 w <- Py.truediv ci (mem_budget cluster_env) ;
                                 Ok (times (p_var i j) w))
                              (Py.range (Z.of_nat (List.length model_datas))) ;
                    avail <- Py.for_each
                               (fun k =>
                                  gk <- Py.index
                                          (ModelParallelismILP.group_sizes self)
                                          k ;
                                  Ok (times (s_var j k) (inject_Z gk)))
                               (Py.range
                                  (Z.of_nat
                                     (List.length
                                        (ModelParallelismILP.group_configs
                                           self)))) ;
                    Ok (le (lpSum used) (lpSum avail)))
                 (Py.range (num_devices cluster_env)) = Raise e).
    { apply (for_each_raises _ _ 0%nat); [apply in_range; lia|].
      apply bind_raises_l.
      apply (for_each_raises _ _ 0%nat).
      - apply in_range. destruct model_datas; [contradiction|]. simpl. lia.
      - apply bind_raises. intros ci.
        unfold Py.truediv. apply Qeq_eq_bool in HC. rewrite HC.
        cbn [bind]. eauto. }
    destruct Hmem as [e ->]. cbn [bind]. eauto. }
  destruct Hf as [e He]. exists e.
  unfold ModelParallelismILP.solve_placement. now rewrite He.
Qed.

End ZeroBudget.


(** X15 on the one-device placement of the half-second model. *)
Lemma ilp_placement_well_formed_witness :
  ModelParallelismILP.solve_placement
    (ModelParallelismILP.init 0) one_device_solver
    [half_second_model] one_device_cluster
  = Ok ({| group_configs := [mkParallelConfig 1 1 1];
           group_models := [[0]] |}, (1980198 # 1000000)%Q) /\
  List.length [[0]] = List.length [mkParallelConfig 1 1 1] /\
  (List.length [mkParallelConfig 1 1 1]
   <= Z.to_nat (num_devices one_device_cluster))%nat /\
  Forall (fun models =>
            StronglySorted Z.lt models /\
            Forall (fun i => 0 <= i < Z.of_nat (List.length [half_second_model]))
                   models)
         [[0]].
Proof.
  split; [vm_compute; reflexivity|].
  apply (ilp_placement_well_formed
           one_device_solver (ModelParallelismILP.init 0)
           [half_second_model] one_device_cluster
           {| group_configs := [mkParallelConfig 1 1 1];
              group_models := [[0]] |} (1980198 # 1000000)%Q).
  vm_compute. reflexivity.
Defined.

(** X16 on a solver that reports infeasibility. *)
Lemma ilp_infeasible_raises_witness :
  ModelParallelismILP.formulate
    (ModelParallelismILP.init 0) [half_second_model] one_device_cluster
  = Ok one_device_problem /\
  Pulp.status infeasible_solution = Pulp.LpStatusInfeasible /\
  ModelParallelismILP.solve_placement
    (ModelParallelismILP.init 0) (fun _ => infeasible_solution)
    [half_second_model] one_device_cluster
  = Raise RuntimeError.
Proof.
  split; [vm_compute; reflexivity|]. split; [reflexivity|].
  apply (ilp_infeasible_raises
           (fun _ => infeasible_solution) (ModelParallelismILP.init 0)
           [half_second_model] one_device_cluster one_device_problem).
  - vm_compute. reflexivity.
  - reflexivity.
Defined.

(** X17 on a solver that stops without a solution. *)
Lemma ilp_unsolved_raises_witness :
  ModelParallelismILP.formulate
    (ModelParallelismILP.init 0) [half_second_model] one_device_cluster
  = Ok one_device_problem /\
  Pulp.status unsolved_solution <> Pulp.LpStatusInfeasible /\
  Pulp.value unsolved_solution (Pulp.s_var 0 0) = None /\
  ModelParallelismILP.solve_placement
    (ModelParallelismILP.init 0) (fun _ => unsolved_solution)
    [half_second_model] one_device_cluster
  = Raise TypeError.
Proof.
  split; [vm_compute; reflexivity|]. split; [discriminate|].
  split; [reflexivity|].
  apply (ilp_unsolved_raises
           (fun _ => unsolved_solution) (ModelParallelismILP.init 0)
           [half_second_model] one_device_cluster one_device_problem).
  - vm_compute. reflexivity.
  - discriminate.
  - discriminate.
  - discriminate.
  - reflexivity.
Defined.

(** X18 on the one-device problem and its optimum. *)
Lemma ilp_linearization_exact_witness :
  Pulp.feasible one_device_problem one_device_solution = true /\
  ModelParallelismILP.formulate
    (ModelParallelismILP.init 0) [half_second_model] one_device_cluster
  = Ok one_device_problem /\
  (Pulp.value_or_zero one_device_solution (Pulp.pxs_var 0 0 1)
   == Pulp.value_or_zero one_device_solution (Pulp.p_var 0 0)
      * Pulp.value_or_zero one_device_solution (Pulp.s_var 0 1))%Q.
Proof.
  assert (H1 : Pulp.feasible one_device_problem one_device_solution = true)
    by (vm_compute; reflexivity).
  assert (H2 : ModelParallelismILP.formulate
                 (ModelParallelismILP.init 0) [half_second_model]
                 one_device_cluster = Ok one_device_problem)
    by (vm_compute; reflexivity).
  split; [exact H1|]. split; [exact H2|].
  apply (ilp_linearization_exact
           one_device_solution one_device_problem H1
           (ModelParallelismILP.init 0) [half_second_model] one_device_cluster
           H2 0%nat 0%nat 1%nat); reflexivity.
Defined.

(** X19 on the one-device placement of the half-second model. *)
Lemma ilp_placement_within_budget_witness :
  ModelParallelismILP.formulate
    (ModelParallelismILP.init 0) [half_second_model] one_device_cluster
  = Ok one_device_problem /\
  Pulp.feasible one_device_problem (one_device_solver one_device_problem)
  = true /\
  ModelParallelismILP.solve_placement
    (ModelParallelismILP.init 0) one_device_solver
    [half_second_model] one_device_cluster
  = Ok ({| group_configs := [mkParallelConfig 1 1 1];
           group_models := [[0]] |}, (1980198 # 1000000)%Q) /\
  (0 < mem_budget one_device_cluster)%Q /\
  Forall2 (fun cfg models =>
             (memory_used [half_second_model] models
              <= mem_budget one_device_cluster * inject_Z (group_size cfg))%Q)
          [mkParallelConfig 1 1 1] [[0]].
Proof.
  assert (H1 : ModelParallelismILP.formulate
                 (ModelParallelismILP.init 0) [half_second_model]
                 one_device_cluster = Ok one_device_problem)
    by (vm_compute; reflexivity).
  assert (H2 : Pulp.feasible one_device_problem
                 (one_device_solver one_device_problem) = true)
    by (vm_compute; reflexivity).
  assert (H3 : ModelParallelismILP.solve_placement
                 (ModelParallelismILP.init 0) one_device_solver
                 [half_second_model] one_device_cluster
               = Ok ({| group_configs := [mkParallelConfig 1 1 1];
                        group_models := [[0]] |}, (1980198 # 1000000)%Q))
    by (vm_compute; reflexivity).
  split; [exact H1|]. split; [exact H2|]. split; [exact H3|].
  split; [reflexivity|].
  apply (ilp_placement_within_budget
           one_device_solver 0 [half_second_model] one_device_cluster
           one_device_problem H1 H2 _ _ H3).
  reflexivity.
Defined.

(** X20 on the one-device placement of the half-second model. *)
Lemma ilp_placement_keeps_replicas_witness :
  ModelParallelismILP.formulate
    (ModelParallelismILP.init 0) [half_second_model] one_device_cluster
  = Ok one_device_problem /\
  Pulp.feasible one_device_problem (one_device_solver one_device_problem)
  = true /\
  ModelParallelismILP.solve_placement
    (ModelParallelismILP.init 0) one_device_solver
    [half_second_model] one_device_cluster
  = Ok ({| group_configs := [mkParallelConfig 1 1 1];
           group_models := [[0]] |}, (1980198 # 1000000)%Q) /\
  (0 < mem_budget one_device_cluster)%Q /\
  (0 < model_weight [half_second_model] 0)%Q /\
  concat [[0]]
  = flat_map (placed (one_device_solver one_device_problem)
                     (Z.of_nat (List.length [half_second_model])))
             (Py.range (num_devices one_device_cluster)).
Proof.
  assert (H1 : ModelParallelismILP.formulate
                 (ModelParallelismILP.init 0) [half_second_model]
                 one_device_cluster = Ok one_device_problem)
    by (vm_compute; reflexivity).
  assert (H2 : Pulp.feasible one_device_problem
                 (one_device_solver one_device_problem) = true)
    by (vm_compute; reflexivity).
  assert (H3 : ModelParallelismILP.solve_placement
                 (ModelParallelismILP.init 0) one_device_solver
                 [half_second_model] one_device_cluster
               = Ok ({| group_configs := [mkParallelConfig 1 1 1];
                        group_models := [[0]] |}, (1980198 # 1000000)%Q))
    by (vm_compute; reflexivity).
  split; [exact H1|]. split; [exact H2|]. split; [exact H3|].
  split; [reflexivity|]. split; [vm_compute; reflexivity|].
  apply (ilp_placement_keeps_replicas
           one_device_solver 0 [half_second_model] one_device_cluster
           one_device_problem H1 H2 _ _ H3).
  - reflexivity.
  - intros i Hi. replace i with 0 by (simpl in Hi; lia).
    vm_compute. reflexivity.
Defined.

(** X21 on one device without memory. *)
Lemma ilp_zero_budget_raises_witness :
  (mem_budget {| num_devices := 1; mem_budget := 0;
                 num_devices_per_node := 1 |} == 0)%Q /\
  [half_second_model] <> [] /\
  1 <= num_devices {| num_devices := 1; mem_budget := 0;
                      num_devices_per_node := 1 |} /\
  exists e,
    ModelParallelismILP.solve_placement
      (ModelParallelismILP.init 0) one_device_solver [half_second_model]
      {| num_devices := 1; mem_budget := 0; num_devices_per_node := 1 |}
    = Raise e.
Proof.
  split; [reflexivity|]. split; [discriminate|]. split; [discriminate|].
  apply (ilp_zero_budget_raises
           one_device_solver (ModelParallelismILP.init 0) [half_second_model]
           {| num_devices := 1; mem_budget := 0; num_devices_per_node := 1 |});
    [reflexivity | discriminate | discriminate].
Defined.


(** ** More on [read_data] *)

Lemma for_loop_app {A S : Type} (body : A -> S -> result S) l1 l2 s :
  for_loop body (l1 ++ l2) s = (s' <- for_loop body l1 s ; for_loop body l2 s').
Proof.
  revert s. induction l1 as [|x l1 IH]; intros s; cbn [for_loop app bind];
    [reflexivity|].
  destruct (body x s) as [s1|e]; cbn [bind]; [apply IH|reflexivity].
Qed.

Lemma getitem_head {A : Type} (x : A) (l : list A) : Py.getitem (x :: l) 0 = Ok x.
Proof.
  unfold Py.getitem. cbn [Z.ltb Z.compare].
  cbn [List.length]. rewrite Nat2Z.inj_succ.
  destruct (Z.leb_spec (Z.succ (Z.of_nat (List.length l))) 0) as [?|_]; [lia|].
  reflexivity.
Qed.

Section ReadDataMore.

#[local] Open Scope string_scope.

(** A row that is not a [GammaProcess] row is stored and leaves the
    parameters as they are. *)
Lemma read_row_plain line data rate cv :
  is_gamma_row line = false ->
  read_row line (data, rate, cv) = Ok (store_row line data, rate, cv).
Proof.
  unfold is_gamma_row, read_row. intros ->. reflexivity.
Qed.

Lemma read_row_data line data rate cv data' rate' cv' :
  read_row line (data, rate, cv) = Ok (data', rate', cv') ->
  data' = store_row line data.
Proof.
  unfold read_row. intros H. apply bind_ok in H as (rc & _ & [= <- _ _]).
  reflexivity.
Qed.

Lemma for_loop_data rows : forall data rate cv data' rate' cv',
  for_loop read_row rows (data, rate, cv) = Ok (data', rate', cv') ->
  data' = fold_left (fun d row => store_row row d) rows data.
Proof.
  induction rows as [|row rows IH]; intros data rate cv data' rate' cv';
    cbn [for_loop fold_left].
  - now intros [= <- _ _].
  - intros H. apply bind_ok in H as ([[d1 r1] c1] & H1 & H).
    apply read_row_data in H1 as ->. now apply IH in H.
Qed.

(** What a row does to the parameters, and whether it raises, does not
    depend on the data read so far. *)
Lemma read_row_same_params line d1 d2 rate cv :
  match read_row line (d1, rate, cv), read_row line (d2, rate, cv) with
  | Ok (_, r1, c1), Ok (_, r2, c2) => r1 = r2 /\ c1 = c2
  | Raise e1, Raise e2 => e1 = e2
  | _, _ => False
  end.
Proof.
  unfold read_row.
  destruct (if PyStr.startswith (arrival_process line) "GammaProcess"
            then _ else _) as [rc|e]; cbn [bind]; auto.
Qed.

Lemma for_loop_gamma_rows rows : forall d1 d2 rate cv,
  match for_loop read_row rows (d1, rate, cv),
        for_loop read_row (List.filter is_gamma_row rows) (d2, rate, cv) with
  | Ok (_, r1, c1), Ok (_, r2, c2) => r1 = r2 /\ c1 = c2
  | Raise e1, Raise e2 => e1 = e2
  | _, _ => False
  end.
Proof.
  induction rows as [|row rows IH]; intros d1 d2 rate cv;
    cbn [for_loop List.filter]; [auto|].
  destruct (is_gamma_row row) eqn:E.
  - cbn [for_loop].
    pose proof (read_row_same_params row d1 d2 rate cv) as Hs.
    destruct (read_row row (d1, rate, cv)) as [[[d1' r1] c1]|e1],
             (read_row row (d2, rate, cv)) as [[[d2' r2] c2]|e2];
      cbn [bind]; try contradiction; [|exact Hs].
    destruct Hs as [<- <-]. apply IH.
  - rewrite (read_row_plain _ _ _ _ E). cbn [bind]. apply IH.
Qed.

(** X22.  The parameters that [read_data] returns, and whether it
    raises, are decided by the [GammaProcess] rows alone: the rows of
    other arrival processes can be left out without changing either.
    With no [GammaProcess] row at all both parameters are [None]. *)
Theorem read_data_params_gamma_rows (rows : list Row) :
  params_of (read_data rows)
  = params_of (read_data (List.filter is_gamma_row rows)).
Proof.
  unfold params_of, read_data.
  pose proof (for_loop_gamma_rows rows ∅ ∅ None None) as H.
  destruct (for_loop read_row rows (∅, None, None)) as [[[d1 r1] c1]|e1],
           (for_loop read_row (List.filter is_gamma_row rows) (∅, None, None))
             as [[[d2 r2] c2]|e2];
    cbn [bind snd]; try contradiction.
  - destruct H as [<- <-]. reflexivity.
  - now subst.
Qed.

(** *** The stored goodputs *)

Lemma dict_get_set k v s d :
  dict_get s (dict_set k v d) = if Qeq_bool k s then Some v else dict_get s d.
Proof.
  induction d as [|[k' v'] d IH]; cbn [dict_set dict_get].
  - reflexivity.
  - destruct (Qeq_bool k' k) eqn:E; cbn [dict_get].
    + apply Qeq_bool_iff in E.
      destruct (Qeq_bool k' s) eqn:E1, (Qeq_bool k s) eqn:E2; try reflexivity.
      * apply Qeq_bool_iff in E1.
        assert (Hks : (k == s)%Q) by (now rewrite <- E, E1).
        apply Qeq_bool_iff in Hks. congruence.
      * apply Qeq_bool_iff in E2.
        assert (Hks : (k' == s)%Q) by (now rewrite E, E2).
        apply Qeq_bool_iff in Hks. congruence.
    + destruct (Qeq_bool k' s) eqn:E1; [|exact IH].
      destruct (Qeq_bool k s) eqn:E2; [|reflexivity].
      apply Qeq_bool_iff in E1, E2.
      assert (Hk : (k' == k)%Q) by (now rewrite E1, E2).
      apply Qeq_bool_iff in Hk. congruence.
Qed.

Lemma lookup_store_row line data policy slo :
  lookup_goodput (store_row line data) policy slo
  = if String.eqb (policy_name line) policy && Qeq_bool (row_slo line) slo
    then Some (goodput line) else lookup_goodput data policy slo.
Proof.
  unfold lookup_goodput, store_row.
  destruct (String.eqb_spec (policy_name line) policy) as [<-|Hne];
    cbn [andb].
  - rewrite lookup_insert_eq, dict_get_set.
    destruct (Qeq_bool (row_slo line) slo); [reflexivity|].
    now destruct (data !! policy_name line).
  - now rewrite lookup_insert_ne.
Qed.

Lemma lookup_fold_store rows policy slo : forall data,
  lookup_goodput (fold_left (fun d row => store_row row d) rows data) policy slo
  = fold_left
      (fun acc row =>
         if String.eqb (policy_name row) policy && Qeq_bool (row_slo row) slo
         then Some (goodput row) else acc)
      rows (lookup_goodput data policy slo).
Proof.
  induction rows as [|row rows IH]; intros data; cbn [fold_left];
    [reflexivity|].
  now rewrite IH, lookup_store_row.
Qed.

(** X23.  The last row wins: when [read_data] returns, the goodput
    that [data] holds for a policy and an SLO is the goodput of the
    last row with that policy and that SLO, and there is none exactly
    when no row has them. *)
Theorem read_data_last_row_wins
        (rows : list Row) (data : gmap string (list (Q * Q))) (params : Params) :
  read_data rows = Ok (data, params) ->
  forall policy slo,
    lookup_goodput data policy slo = last_goodput rows policy slo.
Proof.
  unfold read_data. intros H policy slo.
  apply bind_ok in H as ([[d r] c] & Hloop & [= <- _]).
  apply for_loop_data in Hloop as ->.
  now rewrite lookup_fold_store.
Qed.

(** *** Rows that disagree *)

Lemma read_row_gamma_mismatch (line : Row) (r cv r0 cv0 : Z) data :
  arrival_process line = gamma_process_str (PyInt r) (PyInt cv) ->
  (r0, cv0) <> (r, cv) ->
  read_row line (data, Some r0, Some cv0) = Raise AssertionError.
Proof.
  intros Harr Hne. unfold read_row. rewrite Harr.
  rewrite startswith_gamma_process, split_gamma_process.
  change (Py.getitem ["GammaProcess(rate";
                      PyStr.str_int r ++ ",cv";
                      PyStr.str_int cv ++ ")"] 1)
    with (Ok (PyStr.str_int r ++ ",cv")).
  cbn [bind]. rewrite split_rate_field.
  change (Py.getitem [PyStr.str_int r; "cv"] 0) with (Ok (PyStr.str_int r)).
  cbn [bind].
  change (Py.getitem ["GammaProcess(rate";
                      PyStr.str_int r ++ ",cv";
                      PyStr.str_int cv ++ ")"] 2)
    with (Ok (PyStr.str_int cv ++ ")")).
  cbn [bind]. rewrite split_cv_field.
  change (Py.getitem [PyStr.str_int cv; ""] 0) with (Ok (PyStr.str_int cv)).
  cbn [bind]. rewrite !int_str_int. cbn [bind option_Z_eqb].
  destruct (Z.eqb_spec r0 r) as [->|Hr]; [|reflexivity].
  cbn [bind]. destruct (Z.eqb_spec cv0 cv) as [->|Hc]; [|reflexivity].
  contradiction.
Qed.

(** X24.  A [GammaProcess] row whose rate or cv differs from the ones
    of the rows read before it makes [read_data] raise
    [AssertionError]. *)
Theorem read_data_inconsistent_rows
        (r cv r' cv' : Z) (rows1 rows2 : list Row) (row : Row) :
  rows1 <> [] ->
  (forall row1, In row1 rows1 ->
                arrival_process row1 = gamma_process_str (PyInt r) (PyInt cv)) ->
  arrival_process row = gamma_process_str (PyInt r') (PyInt cv') ->
  (r', cv') <> (r, cv) ->
  read_data (rows1 ++ row :: rows2) = Raise AssertionError.
Proof.
  intros Hne Hrows Hrow Hdiff. unfold read_data. rewrite for_loop_app.
  destruct (read_rows_gamma r cv rows1 ∅ None None Hrows) as [data ->];
    [left; auto|].
  cbn [bind for_loop].
  rewrite (read_row_gamma_mismatch row r' cv' r cv data Hrow); [reflexivity|].
  congruence.
Qed.

(** *** Malformed arrival processes *)

Lemma split_fields_length sep s :
  List.length (snd (PyStr.split_fields sep s)) = count_char sep s.
Proof.
  unfold count_char, chars.
  induction s as [|c s IH]; cbn [PyStr.split_fields list_ascii_of_string
                                  List.filter]; [reflexivity|].
  destruct (PyStr.split_fields sep s) as [h t].
  destruct (Ascii.eqb c sep); cbn [snd List.length] in *; now rewrite IH.
Qed.

Lemma split_length sep s :
  List.length (PyStr.split sep s) = S (count_char sep s).
Proof.
  unfold PyStr.split. rewrite <- split_fields_length.
  now destruct (PyStr.split_fields sep s).
Qed.

Lemma read_row_malformed line st :
  is_gamma_row line = true ->
  (count_char "=" (arrival_process line) < 2)%nat ->
  read_row line st = Raise IndexError.
Proof.
  unfold is_gamma_row, read_row. intros Hg Hc.
  destruct st as [[data rate] cv]. rewrite Hg.
  pose proof (split_length "=" (arrival_process line)) as Hlen.
  destruct (PyStr.split "=" (arrival_process line)) as [|a [|b [|c strs]]];
    cbn [List.length] in Hlen; try lia.
  - reflexivity.
  - change (Py.getitem [a; b] 1) with (Ok b). cbn [bind].
    unfold PyStr.split at 1.
    destruct (PyStr.split_fields "," b) as [h t].
    rewrite getitem_head. reflexivity.
Qed.

(** X25.  The first [GammaProcess] row whose column has fewer than two
    [=] signs makes [read_data] raise [IndexError]. *)
Theorem read_data_malformed_arrival (rows1 rows2 : list Row) (row : Row) :
  (forall row1, In row1 rows1 -> is_gamma_row row1 = false) ->
  is_gamma_row row = true ->
  (count_char "=" (arrival_process row) < 2)%nat ->
  read_data (rows1 ++ row :: rows2) = Raise IndexError.
Proof.
  intros Hrows Hg Hc. unfold read_data. rewrite for_loop_app.
  assert (Hpre : forall data rate cv,
             exists data',
               for_loop read_row rows1 (data, rate, cv) = Ok (data', rate, cv)).
  { induction rows1 as [|row1 rows1 IH]; intros data rate cv;
      cbn [for_loop]; [eauto|].
    rewrite read_row_plain by (apply Hrows; now left). cbn [bind].
    apply IH. intros; apply Hrows; now right. }
  destruct (Hpre ∅ None None) as [data ->].
  cbn [bind for_loop]. now rewrite read_row_malformed.
Qed.

End ReadDataMore.

(** ** [show_name], [method2order] and [method2color] *)

Section ShowName.

#[local] Open Scope string_scope.

Lemma show_name_cases name :
  (In name method_order_list /\ show_name_dict !! name <> None /\
   show_name name <> name /\ ~ In (show_name name) method_order_list /\
   show_name (show_name name) = show_name name) \/
  (~ In name method_order_list /\ show_name_dict !! name = None).
Proof.
  destruct (String.eqb_spec name "sr-greedy") as [->|H1];
    [left; vm_compute; repeat split; try discriminate; intuition discriminate|].
  destruct (String.eqb_spec name "sr-ilp") as [->|H2];
    [left; vm_compute; repeat split; try discriminate; intuition discriminate|].
  destruct (String.eqb_spec name "mp-ilp") as [->|H3];
    [left; vm_compute; repeat split; try discriminate; intuition discriminate|].
  destruct (String.eqb_spec name "mp-search") as [->|H4];
    [left; vm_compute; repeat split; try discriminate; intuition discriminate|].
  destruct (String.eqb_spec name "mp-greedy-2") as [->|H5];
    [left; vm_compute; repeat split; try discriminate; intuition discriminate|].
  destruct (String.eqb_spec name "mp-greedy-4") as [->|H6];
    [left; vm_compute; repeat split; try discriminate; intuition discriminate|].
  destruct (String.eqb_spec name "mp-greedy-8") as [->|H7];
    [left; vm_compute; repeat split; try discriminate; intuition discriminate|].
  right. split.
  - simpl. intuition congruence.
  - unfold show_name_dict, list_to_map. cbn [foldr fst snd].
    rewrite !lookup_insert_ne by congruence. apply lookup_empty.
Qed.

(** X26.  [show_name] leaves a name outside [method_order_list] as it
    is, applying it twice is applying it once, and the methods of
    [method_order_list] get pairwise different display names. *)
Theorem show_name_legends :
  (forall name, ~ In name method_order_list -> show_name name = name) /\
  (forall name, show_name (show_name name) = show_name name) /\
  (forall name1 name2,
      In name1 method_order_list -> In name2 method_order_list ->
      show_name name1 = show_name name2 -> name1 = name2).
Proof.
  split; [|split].
  - intros name Hname.
    destruct (show_name_cases name) as [[Hin _]|[_ Hnone]]; [contradiction|].
    unfold show_name. now rewrite Hnone.
  - intros name.
    destruct (show_name_cases name) as [(_ & _ & _ & _ & H)|[_ Hnone]];
      [exact H|].
    unfold show_name. now rewrite Hnone, Hnone.
  - intros name1 name2 H1 H2.
    simpl in H1, H2.
    repeat (destruct H1 as [<-|H1]); try contradiction;
      repeat (destruct H2 as [<-|H2]); try contradiction;
      vm_compute; intros H; try reflexivity; discriminate H.
Qed.

End ShowName.

Section MethodOrder.

#[local] Open Scope string_scope.

Lemma list_index_ok l x i :
  list_index l x = Ok i ->
  0 <= i < Z.of_nat (List.length l) /\ nth_error l (Z.to_nat i) = Some x.
Proof.
  revert i. induction l as [|y l IH]; intros i; cbn [list_index];
    [discriminate|].
  destruct (String.eqb_spec y x) as [->|Hne].
  - intros [= <-]. split; [simpl; lia|reflexivity].
  - intros H. apply bind_ok in H as (i' & Hi' & [= <-]).
    apply IH in Hi' as [Hr Hn]. split; [simpl List.length; lia|].
    replace (Z.to_nat (i' + 1)) with (S (Z.to_nat i')) by lia. exact Hn.
Qed.

Lemma list_index_raises l x e :
  list_index l x = Raise e -> e = ValueError /\ ~ In x l.
Proof.
  induction l as [|y l IH]; cbn [list_index].
  - intros [= <-]. auto.
  - destruct (String.eqb_spec y x) as [->|Hne]; [discriminate|].
    destruct (list_index l x) as [i|e'] eqn:E; [discriminate|].
    cbn [bind]. intros [= <-]. destruct (IH eq_refl) as [-> Hnot].
    split; [reflexivity|]. intros [?|?]; contradiction.
Qed.

Lemma list_index_nth l x (i : nat) :
  List.NoDup l -> nth_error l i = Some x -> list_index l x = Ok (Z.of_nat i).
Proof.
  intros Hnd. revert i. induction Hnd as [|y l Hy _ IH]; intros i Hi.
  - destruct i; discriminate.
  - cbn [list_index]. destruct i as [|i]; simpl in Hi.
    + injection Hi as ->. now rewrite String.eqb_refl.
    + destruct (String.eqb_spec y x) as [->|_].
      * exfalso. apply Hy. eapply nth_error_In, Hi.
      * rewrite (IH i Hi). cbn [bind]. f_equal. lia.
Qed.

Lemma NoDup_method_order_list : List.NoDup method_order_list.
Proof.
  unfold method_order_list.
  repeat (constructor; [simpl; intuition discriminate|]). constructor.
Qed.

(** X27.  [method2order] returns the position of the method in
    [method_order_list], and raises [ValueError] for every other name;
    the methods that have a position are exactly the ones that have a
    display name in [show_name_dict]. *)
Theorem method2order_position (name : string) :
  match method2order name with
  | Ok i =>
      0 <= i < 7 /\ nth_error method_order_list (Z.to_nat i) = Some name /\
      show_name_dict !! name <> None
  | Raise e =>
      e = ValueError /\ ~ In name method_order_list /\
      show_name_dict !! name = None
  end.
Proof.
  unfold method2order.
  destruct (list_index method_order_list name) as [i|e] eqn:E.
  - apply list_index_ok in E as [Hr Hn]. split; [exact Hr|].
    split; [exact Hn|]. apply nth_error_In in Hn.
    destruct (show_name_cases name) as [(_ & H & _)|[Hnot _]];
      [exact H|contradiction].
  - apply list_index_raises in E as [-> Hnot]. split; [reflexivity|].
    split; [exact Hnot|].
    destruct (show_name_cases name) as [(Hin & _)|[_ H]];
      [contradiction|exact H].
Qed.

(** *** The order of the curves *)

(** The position of a method, 0 for a method that has none. *)
Let order (name : string) : Z :=
  match method2order name with
  | Ok i => i
  | Raise _ => 0
  end.

Lemma method2order_order name :
  In name method_order_list -> method2order name = Ok (order name).
Proof.
  intros Hin. unfold order.
  destruct (method2order name) as [i|e] eqn:E; [reflexivity|].
  apply list_index_raises in E as [_ Hnot]. contradiction.
Qed.

Lemma order_inj name1 name2 :
  In name1 method_order_list -> In name2 method_order_list ->
  order name1 = order name2 -> name1 = name2.
Proof.
  intros H1 H2 Heq.
  apply method2order_order, list_index_ok in H1 as [_ H1].
  apply method2order_order, list_index_ok in H2 as [_ H2].
  rewrite Heq in H1. congruence.
Qed.

Lemma insert_by_key_perm x l : Permutation (insert_by_key x l) (x :: l).
Proof.
  induction l as [|y l IH]; simpl; [reflexivity|].
  destruct (fst x <=? fst y)%Z; [reflexivity|].
  rewrite IH. apply perm_swap.
Qed.

Lemma insert_by_key_sorted x l :
  StronglySorted (fun a b => fst a <= fst b) l ->
  StronglySorted (fun a b => fst a <= fst b) (insert_by_key x l).
Proof.
  induction 1 as [|y l Hs IH Hy]; simpl; [repeat constructor|].
  destruct (Z.leb_spec (fst x) (fst y)) as [Hle|Hgt].
  - constructor; [now constructor|].
    constructor; [exact Hle|].
    eapply List.Forall_impl; [|exact Hy]. cbn beta. intros; lia.
  - constructor; [exact IH|].
    rewrite (insert_by_key_perm x l). constructor; [lia|exact Hy].
Qed.

Lemma sort_by_key_perm l : Permutation (fold_right insert_by_key [] l) l.
Proof.
  induction l as [|x l IH]; simpl; [reflexivity|].
  now rewrite insert_by_key_perm, IH.
Qed.

Lemma sort_by_key_sorted l :
  StronglySorted (fun a b => fst a <= fst b) (fold_right insert_by_key [] l).
Proof.
  induction l as [|x l IH]; simpl; [constructor|].
  now apply insert_by_key_sorted.
Qed.

(** Two lists with the same members that are strictly sorted by
    [order] are the same list. *)
Lemma sorted_unique (l1 : list string) : forall l2,
  StronglySorted (fun a b => order a < order b) l1 ->
  StronglySorted (fun a b => order a < order b) l2 ->
  (forall x, In x l1 <-> In x l2) ->
  l1 = l2.
Proof.
  induction l1 as [|a l1 IH]; intros l2 H1 H2 Hmem.
  - destruct l2 as [|b l2]; [reflexivity|].
    destruct (proj2 (Hmem b) (or_introl eq_refl)).
  - destruct l2 as [|b l2]; [destruct (proj1 (Hmem a) (or_introl eq_refl))|].
    inversion H1 as [|? ? Hs1 Ha]; subst.
    inversion H2 as [|? ? Hs2 Hb]; subst.
    rewrite List.Forall_forall in Ha, Hb.
    assert (Hab : a = b).
    { destruct (proj1 (Hmem a) (or_introl eq_refl)) as [->|Hin]; [reflexivity|].
      destruct (proj2 (Hmem b) (or_introl eq_refl)) as [->|Hin']; [reflexivity|].
      specialize (Ha _ Hin'). specialize (Hb _ Hin). lia. }
    subst b. f_equal. apply IH; [exact Hs1|exact Hs2|].
    intros x. split; intros Hx.
    + destruct (proj1 (Hmem x) (or_intror Hx)) as [->|?]; [|assumption].
      specialize (Ha _ Hx). lia.
    + destruct (proj2 (Hmem x) (or_intror Hx)) as [->|?]; [|assumption].
      specialize (Hb _ Hx). lia.
Qed.

Lemma sorted_strict (l : list string) :
  StronglySorted (fun a b => order a <= order b) l ->
  List.NoDup l -> (forall x, In x l -> In x method_order_list) ->
  StronglySorted (fun a b => order a < order b) l.
Proof.
  induction 1 as [|a l Hs IH Ha]; intros Hnd Hin; [constructor|].
  inversion Hnd as [|? ? Hnot Hnd']; subst.
  constructor; [apply IH; [exact Hnd'|intros; apply Hin; now right]|].
  rewrite List.Forall_forall in Ha |- *. intros x Hx.
  specialize (Ha x Hx).
  destruct (Z.eq_dec (order a) (order x)) as [Heq|?]; [|lia].
  apply order_inj in Heq; [|apply Hin; now left|apply Hin; now right].
  subst x. contradiction.
Qed.

Lemma method_order_list_sorted :
  StronglySorted (fun a b => order a < order b) method_order_list.
Proof.
  unfold method_order_list.
  repeat (constructor; [|repeat constructor; vm_compute; reflexivity]).
  constructor.
Qed.

Lemma filter_sorted {A : Type} (R : A -> A -> Prop) (p : A -> bool) l :
  StronglySorted R l -> StronglySorted R (List.filter p l).
Proof.
  induction 1 as [|a l Hs IH Ha]; simpl; [constructor|].
  destruct (p a); [|exact IH]. constructor; [exact IH|].
  rewrite List.Forall_forall in Ha |- *. intros x Hx.
  apply List.filter_In in Hx as [Hx _]. now apply Ha.
Qed.

Lemma sorted_map_snd (l : list (Z * string)) :
  (forall x, In x l -> fst x = order (snd x)) ->
  StronglySorted (fun a b => fst a <= fst b) l ->
  StronglySorted (fun a b => order a <= order b) (map snd l).
Proof.
  intros Hkey. induction 1 as [|a l Hs IH Ha]; simpl; [constructor|].
  constructor; [apply IH; intros; apply Hkey; now right|].
  rewrite List.Forall_forall in Ha |- *. intros x Hx.
  apply in_map_iff in Hx as (y & <- & Hy).
  rewrite <- (Hkey a (or_introl eq_refl)), <- (Hkey y (or_intror Hy)).
  now apply Ha.
Qed.

(** X28.  The sort of line 78 on distinct methods (the keys of
    [data]): when every method is in [method_order_list] the result is
    [method_order_list] restricted to the methods present, whatever
    their order was; otherwise the sort raises [ValueError]. *)
Theorem sort_methods_order (methods : list string) :
  List.NoDup methods ->
  if forallb (fun m => existsb (String.eqb m) method_order_list) methods then
    sort_methods methods
    = Ok (List.filter (fun m => existsb (String.eqb m) methods)
                      method_order_list)
  else sort_methods methods = Raise ValueError.
Proof.
  intros Hnd. unfold sort_methods.
  assert (Hex : forall (m : string) l,
             existsb (String.eqb m) l = true <-> In m l).
  { intros m l. rewrite existsb_exists. split.
    - intros (x & Hx & Heq). apply String.eqb_eq in Heq. now subst.
    - intros Hin. exists m. split; [exact Hin|apply String.eqb_refl]. }
  destruct (forallb _ methods) eqn:Hall.
  - rewrite forallb_forall in Hall.
    assert (Hknown : forall m, In m methods -> In m method_order_list)
      by (intros m Hm; apply Hex, Hall, Hm).
    rewrite (for_each_map _ order)
      by (intros m Hm; apply method2order_order, Hknown, Hm).
    cbn [bind]. f_equal.
    set (sorted := fold_right insert_by_key [] (combine (map order methods) methods)).
    assert (Hcomb : combine (map order methods) methods
                    = map (fun m => (order m, m)) methods).
    { clear. induction methods as [|m ms IH]; simpl; [reflexivity|].
      now rewrite IH. }
    assert (Hperm : Permutation (map snd sorted) methods).
    { unfold sorted. rewrite sort_by_key_perm, Hcomb, map_map. simpl.
      now rewrite map_id. }
    apply sorted_unique.
    + apply sorted_strict.
      * apply sorted_map_snd; [|apply sort_by_key_sorted].
        intros x Hx. unfold sorted in Hx.
        apply (Permutation_in _ (sort_by_key_perm _)) in Hx.
        rewrite Hcomb in Hx. apply in_map_iff in Hx as (m & <- & _).
        reflexivity.
      * eapply Permutation_NoDup; [symmetry; exact Hperm|exact Hnd].
      * intros x Hx. apply Hknown. eapply Permutation_in; eassumption.
    + apply filter_sorted, method_order_list_sorted.
    + intros x. rewrite List.filter_In, Hex. split.
      * intros Hx. apply (Permutation_in _ Hperm) in Hx. auto.
      * intros [_ Hx]. eapply Permutation_in; [symmetry; exact Hperm|exact Hx].
  - assert (Hbad : exists m, In m methods /\ ~ In m method_order_list).
    { clear - Hall Hex. induction methods as [|m ms IH]; [discriminate|].
      cbn [forallb] in Hall. apply andb_false_iff in Hall as [H|H].
      - exists m. split; [now left|]. intros Hin. apply Hex in Hin. congruence.
      - destruct (IH H) as (m' & Hm' & Hnot). exists m'. split; [now right|auto]. }
    destruct Hbad as (m & Hm & Hnot).
    assert (Hraise : Py.for_each method2order methods = Raise ValueError).
    { clear - Hm Hnot. induction methods as [|m' ms IH]; [destruct Hm|].
      cbn [for_each].
      destruct (method2order m') as [i|e] eqn:E.
      - cbn [bind]. destruct Hm as [->|Hm].
        + apply list_index_ok in E as [_ E]. apply nth_error_In in E.
          contradiction.
        + now rewrite (IH Hm).
      - apply list_index_raises in E as [-> _]. reflexivity. }
    now rewrite Hraise.
Qed.

End MethodOrder.

Section MethodColor.

#[local] Open Scope string_scope.

Lemma str_int_inj a b : PyStr.str_int a = PyStr.str_int b -> a = b.
Proof.
  intros H. pose proof (int_str_int a) as Ha. rewrite H, int_str_int in Ha.
  now injection Ha.
Qed.

Lemma color_inj a b :
  "C" ++ PyStr.str_int a = "C" ++ PyStr.str_int b -> a = b.
Proof.
  change ("C" ++ PyStr.str_int a) with (String "C" (PyStr.str_int a)).
  change ("C" ++ PyStr.str_int b) with (String "C" (PyStr.str_int b)).
  intros [= H]. now apply str_int_inj.
Qed.

(** What holds of the globals between calls: the colors handed out are
    [C0 .. C(ct-1)], and no color has two names. *)
Let consistent (st : ColorState) : Prop :=
  (0 <= ct st)%Z /\
  (forall name color,
      method2color_dict st !! name = Some color ->
      exists k, (0 <= k < ct st)%Z /\ color = "C" ++ PyStr.str_int k) /\
  (forall name1 name2 color,
      method2color_dict st !! name1 = Some color ->
      method2color_dict st !! name2 = Some color -> name1 = name2).

Let extends (st st' : ColorState) : Prop :=
  forall name color,
    method2color_dict st !! name = Some color ->
    method2color_dict st' !! name = Some color.

Lemma method2color_step name st :
  consistent st ->
  exists color st',
    method2color name st = Ok (color, st') /\
    consistent st' /\ extends st st' /\
    method2color_dict st' !! name = Some color.
Proof.
  intros (Hct & Hrange & Hinj). unfold method2color.
  destruct (method2color_dict st !! name) as [c0|] eqn:E.
  - exists c0, st. unfold Py.dict_getitem. rewrite E. cbn [bind].
    repeat split; auto. intros n c H. exact H.
  - eexists _, _. unfold Py.dict_getitem. cbn [method2color_dict].
    rewrite lookup_insert_eq. cbn [bind]. split; [reflexivity|].
    split; [split; [|split]|split].
    + cbn [ct]. lia.
    + cbn [method2color_dict ct]. intros n c Hn.
      destruct (String.eqb_spec n name) as [->|Hne].
      * rewrite lookup_insert_eq in Hn. injection Hn as <-.
        exists (ct st). split; [lia|reflexivity].
      * rewrite lookup_insert_ne in Hn by congruence.
        destruct (Hrange n c Hn) as (k & Hk & ->). exists k. split; [lia|auto].
    + cbn [method2color_dict]. intros n1 n2 c H1 H2.
      destruct (String.eqb_spec n1 name) as [->|Hne1];
        destruct (String.eqb_spec n2 name) as [->|Hne2]; try reflexivity.
      * rewrite lookup_insert_eq in H1. injection H1 as <-.
        rewrite lookup_insert_ne in H2 by congruence.
        destruct (Hrange n2 _ H2) as (k & Hk & Heq).
        apply color_inj in Heq. lia.
      * rewrite lookup_insert_eq in H2. injection H2 as <-.
        rewrite lookup_insert_ne in H1 by congruence.
        destruct (Hrange n1 _ H1) as (k & Hk & Heq).
        apply color_inj in Heq. lia.
      * rewrite lookup_insert_ne in H1, H2 by congruence.
        now apply (Hinj n1 n2 c).
    + intros n c Hn. cbn [method2color_dict].
      rewrite lookup_insert_ne; [exact Hn|]. intros ->. congruence.
    + cbn [method2color_dict]. apply lookup_insert_eq.
Qed.


Lemma curve_colors_consistent methods : forall st,
  consistent st ->
  exists colors st',
    curve_colors methods st = Ok (colors, st') /\
    consistent st' /\ extends st st' /\
    Forall2 (fun method color =>
               method2color_dict st' !! method = Some color)
            methods colors.
Proof.
  induction methods as [|m ms IH]; intros st Hst; cbn [curve_colors].
  - exists [], st. repeat split; try apply Hst; [|constructor].
    intros n c H. exact H.
  - destruct (method2color_step m st Hst) as (c & st1 & -> & Hst1 & Hext1 & Hm).
    cbn [bind snd fst].
    destruct (IH st1 Hst1) as (cs & st2 & -> & Hst2 & Hext2 & Hall).
    cbn [bind snd fst]. exists (c :: cs), st2.
    split; [reflexivity|]. split; [exact Hst2|]. split.
    + intros n c' H. apply Hext2, Hext1, H.
    + constructor; [apply Hext2, Hm|exact Hall].
Qed.

(** X29.  From the state at load time, [method2color] never raises, and
    the colors it hands out in a run of calls tell the methods apart:
    two calls return the same color exactly when they were made with
    the same name. *)
Theorem curve_colors_tell_methods_apart (methods : list string) :
  exists colors st,
    curve_colors methods initial_colors = Ok (colors, st) /\
    List.length colors = List.length methods /\
    forall i j method_i method_j color_i color_j,
      nth_error methods i = Some method_i ->
      nth_error methods j = Some method_j ->
      nth_error colors i = Some color_i ->
      nth_error colors j = Some color_j ->
      (color_i = color_j <-> method_i = method_j).
Proof.
  destruct (curve_colors_consistent methods initial_colors)
    as (colors & st & Hrun & (_ & _ & Hinj) & _ & Hall).
  { split; [reflexivity|]. split.
    - intros n c H. cbn [initial_colors method2color_dict] in H.
      rewrite lookup_empty in H. discriminate.
    - intros n1 n2 c H. cbn [initial_colors method2color_dict] in H.
      rewrite lookup_empty in H. discriminate. }
  exists colors, st. split; [exact Hrun|].
  split; [symmetry; eapply Forall2_length, Hall|].
  assert (Hnth : forall i m c,
             nth_error methods i = Some m -> nth_error colors i = Some c ->
             method2color_dict st !! m = Some c).
  { clear - Hall. induction Hall as [|m c ms cs Hmc _ IH]; intros i m' c' Hm Hc.
    - destruct i; discriminate.
    - destruct i as [|i]; simpl in Hm, Hc; [congruence|eauto]. }
  intros i j mi mj ci cj Hmi Hmj Hci Hcj.
  pose proof (Hnth _ _ _ Hmi Hci) as Hi.
  pose proof (Hnth _ _ _ Hmj Hcj) as Hj.
  split.
  - intros <-. now apply (Hinj mi mj ci).
  - intros <-. congruence.
Qed.

(** The colors of distinct methods that have none yet. *)
Lemma curve_colors_fresh methods : forall st (n : nat),
  List.NoDup methods ->
  (forall m, In m methods -> method2color_dict st !! m = None) ->
  ct st = Z.of_nat n ->
  exists st',
    curve_colors methods st
    = Ok (map (fun k => "C" ++ PyStr.str_int (Z.of_nat k))
              (seq n (List.length methods)), st') /\
    ct st' = Z.of_nat (n + List.length methods).
Proof.
  induction methods as [|m ms IH]; intros st n Hnd Hnew Hct;
    cbn [curve_colors List.length seq map].
  - exists st. split; [reflexivity|]. rewrite Hct. f_equal. lia.
  - inversion Hnd as [|? ? Hnot Hnd']; subst.
    unfold method2color at 1. rewrite (Hnew m (or_introl eq_refl)).
    unfold Py.dict_getitem. cbn [method2color_dict].
    rewrite lookup_insert_eq. cbn [bind snd fst].
    destruct (IH {| method2color_dict :=
                      <[m := "C" ++ PyStr.str_int (ct st)]>
                        (method2color_dict st);
                    ct := ct st + 1 |} (S n) Hnd') as (st' & -> & Hct').
    + intros m' Hm'. cbn [method2color_dict].
      rewrite lookup_insert_ne by (intros ->; contradiction).
      apply Hnew. now right.
    + cbn [ct]. lia.
    + cbn [bind fst snd]. exists st'. rewrite Hct. split; [reflexivity|].
      rewrite Hct'. f_equal. lia.
Qed.

(** X30.  Called once for each of [n] distinct methods, from the state
    at load time, [method2color] hands out ["C0"], ["C1"], ...,
    ["C(n-1)"] in the order of the calls and leaves [ct] at [n]. *)
Theorem curve_colors_distinct_methods (methods : list string) :
  List.NoDup methods ->
  exists st,
    curve_colors methods initial_colors
    = Ok (map (fun k => "C" ++ PyStr.str_int (Z.of_nat k))
              (seq 0 (List.length methods)), st) /\
    ct st = Z.of_nat (List.length methods).
Proof.
  intros Hnd.
  apply (curve_colors_fresh methods initial_colors 0 Hnd).
  - intros m _. apply lookup_empty.
  - reflexivity.
Qed.

End MethodColor.


(** X23 on two rows of the same policy and SLO. *)
Lemma read_data_last_row_wins_witness :
  exists data params,
    read_data repeated_rows = Ok (data, params) /\
    lookup_goodput data "mp-search" 1 = Some (3 # 4)%Q.
Proof.
  destruct (read_data repeated_rows) as [[data params]|e] eqn:E;
    [|vm_compute in E; discriminate].
  exists data, params. split; [reflexivity|].
  rewrite (read_data_last_row_wins repeated_rows data params E).
  vm_compute. reflexivity.
Defined.

(** X24 on a row of rate 2 followed by a row of rate 3. *)
Lemma read_data_inconsistent_rows_witness :
  [sample_row (gamma_process_str (PyInt 2) (PyInt 4))] <> [] /\
  (3, 4) <> (2, 4) /\
  read_data ([sample_row (gamma_process_str (PyInt 2) (PyInt 4))]
             ++ sample_row (gamma_process_str (PyInt 3) (PyInt 4)) :: [])
  = Raise AssertionError.
Proof.
  split; [discriminate|]. split; [discriminate|].
  apply (read_data_inconsistent_rows
           2 4 3 4 [sample_row (gamma_process_str (PyInt 2) (PyInt 4))] []
           (sample_row (gamma_process_str (PyInt 3) (PyInt 4)))).
  - discriminate.
  - intros row1 [<-|[]]. reflexivity.
  - reflexivity.
  - discriminate.
Defined.

(** X25 on a column without [cv]. *)
Lemma read_data_malformed_arrival_witness :
  is_gamma_row (sample_row "GammaProcess(rate=2)") = true /\
  (count_char "=" (arrival_process (sample_row "GammaProcess(rate=2)")) < 2)%nat /\
  read_data ([] ++ sample_row "GammaProcess(rate=2)" :: []) = Raise IndexError.
Proof.
  split; [reflexivity|]. split; [vm_compute; lia|].
  apply (read_data_malformed_arrival [] [] (sample_row "GammaProcess(rate=2)")).
  - intros row1 [].
  - reflexivity.
  - vm_compute. lia.
Defined.

(** X26 on a method that has no display name. *)
Lemma show_name_legends_witness :
  ~ In "sr-search"%string method_order_list /\
  show_name "sr-search" = "sr-search"%string.
Proof.
  assert (H : ~ In "sr-search"%string method_order_list)
    by (simpl; intuition discriminate).
  split; [exact H|].
  exact (proj1 show_name_legends "sr-search"%string H).
Defined.

(** X28 on two methods given out of order. *)
Lemma sort_methods_order_witness :
  List.NoDup ["mp-search"; "sr-ilp"]%string /\
  sort_methods ["mp-search"; "sr-ilp"]%string
  = Ok ["sr-ilp"; "mp-search"]%string.
Proof.
  assert (H : List.NoDup ["mp-search"; "sr-ilp"]%string).
  { repeat (constructor; [simpl; intuition discriminate|]). constructor. }
  split; [exact H|].
  exact (sort_methods_order ["mp-search"; "sr-ilp"]%string H).
Defined.

(** X30 on two methods. *)
Lemma curve_colors_distinct_methods_witness :
  List.NoDup ["sr-ilp"; "mp-search"]%string /\
  exists st,
    curve_colors ["sr-ilp"; "mp-search"]%string initial_colors
    = Ok (["C0"; "C1"]%string, st) /\
    ct st = 2.
Proof.
  assert (H : List.NoDup ["sr-ilp"; "mp-search"]%string).
  { repeat (constructor; [simpl; intuition discriminate|]). constructor. }
  split; [exact H|].
  exact (curve_colors_distinct_methods ["sr-ilp"; "mp-search"]%string H).
Defined.
